(** * Validation of AAP configuration-as-code files

    A shallow embedding of [scripts/validate-aap-config.py]: the class
    [AAPConfigValidator] (its nine entity validators, the reference
    reconciler, the per-environment driver and the result summary) and the
    loop of [main].

    The validator object is a record of three finding lists and ten name
    sets; every method is a computation in a small state-and-exception monad
    over that record.  Decoded YAML documents are Python values, paths are
    those of [pathlib] on a POSIX system, and the order in which a set is
    walked is left to the run of the interpreter. *)

From Stdlib Require Import String Ascii List ZArith Bool Arith Lia Permutation.
From Stdlib Require Import Decimal DecimalString.
Import ListNotations.

Set Warnings "-register-all".
Local Open Scope string_scope.
Local Open Scope list_scope.

Infix "+:+" := String.append (at level 60, right associativity).

(* ===================================================================== *)
(** ** Python values *)
(* ===================================================================== *)

Module Py.

(** The values [yaml.safe_load] hands to the validators: [None], booleans,
    integers, strings, lists and dicts.  A [string] is read as a sequence of
    code points below 256, one per [ascii].  A dict keeps its entries in
    insertion order.  Floats, timestamps, binaries and YAML sets are outside
    this fragment. *)
Inductive value : Type :=
| VNone
| VBool (b : bool)
| VInt (z : Z)
| VStr (s : string)
| VList (items : list value)
| VDict (entries : list (value * value)).

(** Exceptions the validator can let escape. *)
Inductive exn : Type :=
| TypeError
| AttributeError
| KeyError
| IsADirectoryError.

Inductive outcome (A : Type) : Type :=
| Returned (a : A)
| Raised (e : exn).
Arguments Returned {A} a.
Arguments Raised {A} e.

(** [bool(v)] *)
Definition truthy (v : value) : bool :=
  match v with
  | VNone => false
  | VBool b => b
  | VInt z => negb (Z.eqb z 0)
  | VStr s => negb (String.eqb s "")
  | VList items => match items with [] => false | _ => true end
  | VDict entries => match entries with [] => false | _ => true end
  end.

(** *** [str] and [repr] *)

Definition dquote : ascii := ascii_of_nat 34.
Definition backslash : ascii := ascii_of_nat 92.

Definition hex_digit (n : nat) : ascii :=
  nth n (list_ascii_of_string "0123456789abcdef") "0"%char.

Definition is_printable (c : ascii) : bool :=
  let n := nat_of_ascii c in
  (Nat.leb 32 n && Nat.leb n 126) || (Nat.leb 161 n && negb (Nat.eqb n 173)).

Definition escape_char (quote c : ascii) : string :=
  let n := nat_of_ascii c in
  if Ascii.eqb c quote || Ascii.eqb c backslash then String backslash (String c "")
  else if Nat.eqb n 9 then String backslash "t"
  else if Nat.eqb n 10 then String backslash "n"
  else if Nat.eqb n 13 then String backslash "r"
  else if is_printable c then String c ""
  else String backslash
         (String "x" (String (hex_digit (n / 16)) (String (hex_digit (n mod 16)) ""))).

Definition has_char (c : ascii) (s : string) : bool :=
  existsb (Ascii.eqb c) (list_ascii_of_string s).

(** [repr(s)] for a string: single quotes unless the text holds a single
    quote and no double quote. *)
Definition repr_str (s : string) : string :=
  let quote := if has_char "'"%char s && negb (has_char dquote s)
               then dquote else "'"%char in
  String quote
    (String.concat "" (map (escape_char quote) (list_ascii_of_string s))
     +:+ String quote "").

Definition str_of_Z (z : Z) : string := NilZero.string_of_int (Z.to_int z).
Definition str_of_nat (n : nat) : string := NilZero.string_of_uint (Nat.to_uint n).

Fixpoint repr (v : value) : string :=
  match v with
  | VNone => "None"
  | VBool true => "True"
  | VBool false => "False"
  | VInt z => str_of_Z z
  | VStr s => repr_str s
  | VList items => "[" +:+ String.concat ", " (map repr items) +:+ "]"
  | VDict entries =>
      "{" +:+ String.concat ", "
                (map (fun kv => match kv with
                                | (k, x) => repr k +:+ ": " +:+ repr x
                                end) entries)
          +:+ "}"
  end.

(** [str(v)], also what an f-string placeholder [{v}] renders. *)
Definition str (v : value) : string :=
  match v with
  | VStr s => s
  | _ => repr v
  end.

(** *** Strings *)

(** [hay.startswith(needle)] *)
Definition startswith (hay needle : string) : bool := String.prefix needle hay.

(** [needle in hay] on two strings *)
Fixpoint str_contains (needle hay : string) : bool :=
  String.prefix needle hay ||
  match hay with
  | EmptyString => false
  | String _ rest => str_contains needle rest
  end.

(** *** Hashing and equality of names *)

(** Lists and dicts are unhashable: [set.add] raises [TypeError] on them. *)
Definition hashable (v : value) : bool :=
  match v with
  | VList _ | VDict _ => false
  | _ => true
  end.

(** [a == b] on hashable values ([True == 1] and [False == 0] hold, as
    in Python); never consulted on lists or dicts. *)
Definition eqv (a b : value) : bool :=
  match a, b with
  | VNone, VNone => true
  | VBool x, VBool y => Bool.eqb x y
  | VBool x, VInt z => Z.eqb (Z.b2z x) z
  | VInt z, VBool x => Z.eqb z (Z.b2z x)
  | VInt x, VInt y => Z.eqb x y
  | VStr x, VStr y => String.eqb x y
  | _, _ => false
  end.

Definition is_str (s : string) (v : value) : bool :=
  match v with
  | VStr t => String.eqb s t
  | _ => false
  end.

(** *** Dicts with a string key *)

Fixpoint dict_get (key : string) (entries : list (value * value)) : option value :=
  match entries with
  | [] => None
  | (k, x) :: rest => if is_str key k then Some x else dict_get key rest
  end.

(** [key in d] *)
Definition dict_has (key : string) (entries : list (value * value)) : bool :=
  match dict_get key entries with
  | Some _ => true
  | None => false
  end.

(** [d.get(key, default)] *)
Definition dict_get_or (key : string) (default : value)
    (entries : list (value * value)) : value :=
  match dict_get key entries with
  | Some x => x
  | None => default
  end.

(** *** Operators on a value of unknown shape *)

(** [key in container], the left operand a string literal. *)
Definition contains (key : string) (container : value) : outcome bool :=
  match container with
  | VStr hay => Returned (str_contains key hay)
  | VList items => Returned (existsb (is_str key) items)
  | VDict entries => Returned (dict_has key entries)
  | _ => Raised TypeError
  end.

(** [container[key]], the subscript a string literal. *)
Definition getitem (key : string) (container : value) : outcome value :=
  match container with
  | VDict entries =>
      match dict_get key entries with
      | Some x => Returned x
      | None => Raised KeyError
      end
  | _ => Raised TypeError
  end.

(** The items a [for] loop visits. *)
Definition iter (v : value) : outcome (list value) :=
  match v with
  | VList items => Returned items
  | VDict entries => Returned (map fst entries)
  | VStr s => Returned (map (fun c => VStr (String c "")) (list_ascii_of_string s))
  | _ => Raised TypeError
  end.

(** [len(v)] *)
Definition len (v : value) : outcome nat :=
  match v with
  | VList items => Returned (List.length items)
  | VDict entries => Returned (List.length entries)
  | VStr s => Returned (String.length s)
  | _ => Raised TypeError
  end.

(** *** Sets of names

    A Python [set] of hashable values, kept as the duplicate-free list of
    its members in the order they were added.  That list is the history of
    the set, not the order in which a loop meets its members: see
    [set_order] below. *)
Definition pyset : Type := list value.

Definition set_mem (x : value) (s : pyset) : bool := existsb (eqv x) s.

Definition set_add (x : value) (s : pyset) : pyset :=
  if set_mem x s then s else s ++ [x].

(** [a - b] *)
Definition set_diff (a b : pyset) : pyset :=
  filter (fun x => negb (set_mem x b)) a.

(** Python fixes no order in which [for x in a - b] meets the members of the
    difference: it follows the hashes of the members, and the hash of a text
    changes from one run of the interpreter to the next.  A [set_order] is
    what one run of the interpreter does: to every difference it gives some
    arrangement of its members. *)
Record set_order : Type := mkSetOrder {
  walk_difference : pyset -> pyset -> list value;
  walk_permutes : forall a b : pyset, Permutation (walk_difference a b) (set_diff a b)
}.

(** Two of the orders a run may take. *)
Definition insertion_order : set_order :=
  mkSetOrder set_diff (fun a b => Permutation_refl (set_diff a b)).

Definition reverse_order : set_order :=
  mkSetOrder (fun a b => List.rev (set_diff a b))
             (fun a b => Permutation_sym (Permutation_rev (set_diff a b))).

End Py.

Import Py.

(* ===================================================================== *)
(** ** Paths *)
(* ===================================================================== *)

(** A [pathlib.Path] on a POSIX system: its anchor (empty for a relative
    path, [/] or [//]) and its components. *)
Record path : Type := mkPath {
  anchor : string;
  parts : list string
}.

(** [s.split('/')] *)
Fixpoint split_slash (s : string) : list string :=
  match s with
  | EmptyString => [""]
  | String c rest =>
      if Ascii.eqb c "/" then "" :: split_slash rest
      else match split_slash rest with
           | [] => [String c ""]
           | p :: ps => String c p :: ps
           end
  end.

(** The components of a text: empty ones and [.] are dropped, [..] is kept. *)
Definition components (s : string) : list string :=
  filter (fun p => negb (String.eqb p "") && negb (String.eqb p "."))
         (split_slash s).

(** The anchor of a text: two leading slashes are kept, one or three and
    more are a single slash. *)
Definition anchor_of (s : string) : string :=
  match s with
  | String "/" (String "/" (String "/" _)) => "/"
  | String "/" (String "/" _) => "//"
  | String "/" _ => "/"
  | _ => ""
  end.

(** [Path(s)] *)
Definition path_of_string (s : string) : path :=
  mkPath (anchor_of s) (components s).

(** [parent / child], for a text [child]: an absolute child replaces the
    parent. *)
Definition path_div (parent : path) (child : string) : path :=
  if String.prefix "/" child then path_of_string child
  else mkPath (anchor parent) (parts parent ++ components child).

(** [str(p)], which is also the text [open] and [exists] hand to the system. *)
Definition path_str (p : path) : string :=
  match parts p with
  | [] => if String.eqb (anchor p) "" then "." else anchor p
  | _ => anchor p +:+ String.concat "/" (parts p)
  end.

(* ===================================================================== *)
(** ** The validator object *)
(* ===================================================================== *)

(** The fields [__init__] creates. *)
Record validator : Type := mkValidator {
  base_path : path;
  environment : string;
  errors : list string;
  warnings : list string;
  info : list string;
  defined_credentials : pyset;
  defined_projects : pyset;
  defined_inventories : pyset;
  defined_ees : pyset;
  defined_organizations : pyset;
  defined_teams : pyset;
  referenced_credentials : pyset;
  referenced_projects : pyset;
  referenced_inventories : pyset;
  referenced_ees : pyset
}.

(** [AAPConfigValidator(base_path, environment)] *)
Definition new_validator (base : path) (env : string) : validator :=
  mkValidator base env [] [] [] [] [] [] [] [] [] [] [] [] [].

(** The ten name sets, by field. *)
Inductive name_set : Type :=
| DefinedCredentials | DefinedProjects | DefinedInventories | DefinedEes
| DefinedOrganizations | DefinedTeams
| ReferencedCredentials | ReferencedProjects | ReferencedInventories
| ReferencedEes.

Definition get_set (k : name_set) (v : validator) : pyset :=
  match k with
  | DefinedCredentials => defined_credentials v
  | DefinedProjects => defined_projects v
  | DefinedInventories => defined_inventories v
  | DefinedEes => defined_ees v
  | DefinedOrganizations => defined_organizations v
  | DefinedTeams => defined_teams v
  | ReferencedCredentials => referenced_credentials v
  | ReferencedProjects => referenced_projects v
  | ReferencedInventories => referenced_inventories v
  | ReferencedEes => referenced_ees v
  end.

Definition put_set (k : name_set) (s : pyset) (v : validator) : validator :=
  let '(mkValidator b e er wa inf dc dp di de dor dt rc rp ri re) := v in
  match k with
  | DefinedCredentials => mkValidator b e er wa inf s dp di de dor dt rc rp ri re
  | DefinedProjects => mkValidator b e er wa inf dc s di de dor dt rc rp ri re
  | DefinedInventories => mkValidator b e er wa inf dc dp s de dor dt rc rp ri re
  | DefinedEes => mkValidator b e er wa inf dc dp di s dor dt rc rp ri re
  | DefinedOrganizations => mkValidator b e er wa inf dc dp di de s dt rc rp ri re
  | DefinedTeams => mkValidator b e er wa inf dc dp di de dor s rc rp ri re
  | ReferencedCredentials => mkValidator b e er wa inf dc dp di de dor dt s rp ri re
  | ReferencedProjects => mkValidator b e er wa inf dc dp di de dor dt rc s ri re
  | ReferencedInventories => mkValidator b e er wa inf dc dp di de dor dt rc rp s re
  | ReferencedEes => mkValidator b e er wa inf dc dp di de dor dt rc rp ri s
  end.

Definition put_errors (l : list string) (v : validator) : validator :=
  let '(mkValidator b e _ wa inf dc dp di de dor dt rc rp ri re) := v in
  mkValidator b e l wa inf dc dp di de dor dt rc rp ri re.

Definition put_warnings (l : list string) (v : validator) : validator :=
  let '(mkValidator b e er _ inf dc dp di de dor dt rc rp ri re) := v in
  mkValidator b e er l inf dc dp di de dor dt rc rp ri re.

Definition put_info (l : list string) (v : validator) : validator :=
  let '(mkValidator b e er wa _ dc dp di de dor dt rc rp ri re) := v in
  mkValidator b e er wa l dc dp di de dor dt rc rp ri re.

(* ===================================================================== *)
(** ** Methods as computations on the validator *)
(* ===================================================================== *)

(** A method body: it runs on the object and either returns or raises; the
    object it leaves behind is kept in both cases. *)
Definition M (A : Type) : Type := validator -> outcome A * validator.

Definition ret {A : Type} (a : A) : M A := fun v => (Returned a, v).

Definition raise {A : Type} (e : exn) : M A := fun v => (Raised e, v).

Definition bind {A B : Type} (c : M A) (k : A -> M B) : M B :=
  fun v =>
    match c v with
    | (Returned a, v') => k a v'
    | (Raised e, v') => (Raised e, v')
    end.

Declare Scope py_scope.
Delimit Scope py_scope with py.
Notation "x <- c ;; k" := (bind c (fun x => k))
  (at level 100, c at next level, right associativity) : py_scope.
Notation "c ;; k" := (bind c (fun _ => k))
  (at level 100, right associativity) : py_scope.
Local Open Scope py_scope.

(** The value or the exception of an operator, the object untouched. *)
Definition lift {A : Type} (o : outcome A) : M A := fun v => (o, v).

Definition self : M validator := fun v => (Returned v, v).

(** [if cond: body] *)
Definition when (cond : bool) (body : M unit) : M unit :=
  if cond then body else ret tt.

(** [for x in items: body(x)] *)
Fixpoint for_each {A : Type} (body : A -> M unit) (items : list A) : M unit :=
  match items with
  | [] => ret tt
  | x :: rest => body x ;; for_each body rest
  end.

(** [self.errors.append(msg)] *)
Definition append_error (msg : string) : M unit :=
  fun v => (Returned tt, put_errors (errors v ++ [msg]) v).

(** [self.warnings.append(msg)] *)
Definition append_warning (msg : string) : M unit :=
  fun v => (Returned tt, put_warnings (warnings v ++ [msg]) v).

(** [self.info.append(msg)] *)
Definition append_info (msg : string) : M unit :=
  fun v => (Returned tt, put_info (info v ++ [msg]) v).

(** [self.<set>.add(x)] *)
Definition add_name (k : name_set) (x : value) : M unit :=
  fun v =>
    if hashable x then (Returned tt, put_set k (set_add x (get_set k v)) v)
    else (Raised TypeError, v).

(** The validator a method leaves behind, by return or by exception. *)
Definition after {A : Type} (c : M A) (v : validator) : validator := snd (c v).

(* ===================================================================== *)
(** ** Entity validators *)
(* ===================================================================== *)

(** [config.get(key, [])]; a [config] that is no dict has no [get]. *)
Definition config_get (key : string) (config : value) : M value :=
  match config with
  | VDict c => ret (dict_get_or key (VList []) c)
  | _ => raise AttributeError
  end.

(** [name = record.get('name', 'unnamed')] *)
Definition name_of (record : list (value * value)) : value :=
  dict_get_or "name" (VStr "unnamed") record.

(** *** Organizations *)

Definition check_organization (org : value) : M unit :=
  match org with
  | VDict d =>
      let name := name_of d in
      add_name DefinedOrganizations name ;;
      when (negb (dict_has "name" d))
        (append_error "Organization missing 'name' field") ;;
      when (negb (dict_has "description" d))
        (append_warning ("Organization '" +:+ str name +:+ "' missing description"))
  | _ => raise AttributeError
  end.

Definition validate_organizations (config : value) : M unit :=
  orgs <- config_get "controller_organizations" config ;;
  if negb (truthy orgs) then append_warning "No organizations defined"
  else
    items <- lift (iter orgs) ;;
    for_each check_organization items ;;
    n <- lift (len orgs) ;;
    append_info ("Found " +:+ str_of_nat n +:+ " organization(s)").

(** *** Teams *)

Definition check_team (team : value) : M unit :=
  match team with
  | VDict d =>
      let name := name_of d in
      add_name DefinedTeams name ;;
      when (negb (dict_has "name" d))
        (append_error "Team missing 'name' field") ;;
      when (negb (dict_has "organization" d))
        (append_error ("Team '" +:+ str name +:+ "' missing organization reference")) ;;
      when (negb (dict_has "description" d))
        (append_warning ("Team '" +:+ str name +:+ "' missing description"))
  | _ => raise AttributeError
  end.

Definition validate_teams (config : value) : M unit :=
  teams <- config_get "controller_teams" config ;;
  if negb (truthy teams)
  then append_warning "No teams defined - consider RBAC best practices"
  else
    items <- lift (iter teams) ;;
    for_each check_team items ;;
    n <- lift (len teams) ;;
    append_info ("Found " +:+ str_of_nat n +:+ " team(s)").

(** *** Credentials *)

Definition sensitive_fields : list string :=
  ["password"; "secret"; "token"; "private_key"].

Definition unencrypted_message (name : value) (field : string) : string :=
  "Credential '" +:+ str name +:+ "' has unencrypted '" +:+ field
  +:+ "' - use ansible-vault or lookup".

(** The body of [for field in sensitive_fields]. *)
Definition check_sensitive_field (name inputs : value) (field : string) : M unit :=
  present <- lift (contains field inputs) ;;
  if present then
    raw <- lift (getitem field inputs) ;;
    let text := str raw in
    when (negb (startswith text "{{ ") && negb (startswith text "!vault"))
      (append_error (unencrypted_message name field))
  else ret tt.

Definition check_credential (cred : value) : M unit :=
  match cred with
  | VDict d =>
      let name := name_of d in
      add_name DefinedCredentials name ;;
      when (negb (dict_has "name" d))
        (append_error "Credential missing 'name' field") ;;
      when (negb (dict_has "credential_type" d))
        (append_error ("Credential '" +:+ str name +:+ "' missing credential_type")) ;;
      when (negb (dict_has "organization" d))
        (append_error ("Credential '" +:+ str name +:+ "' missing organization")) ;;
      let inputs := dict_get_or "inputs" (VDict []) d in
      for_each (check_sensitive_field name inputs) sensitive_fields
  | _ => raise AttributeError
  end.

Definition validate_credentials (config : value) : M unit :=
  credentials <- config_get "controller_credentials" config ;;
  items <- lift (iter credentials) ;;
  for_each check_credential items ;;
  n <- lift (len credentials) ;;
  append_info ("Found " +:+ str_of_nat n +:+ " credential(s)").

(** *** Execution environments *)

Definition digest_message (name : value) : string :=
  "Execution Environment '" +:+ str name
  +:+ "' should use digest-based image reference in production".

Definition latest_message (name : value) : string :=
  "Execution Environment '" +:+ str name
  +:+ "' uses 'latest' tag - use specific version".

Definition check_execution_environment (ee : value) : M unit :=
  match ee with
  | VDict d =>
      let name := name_of d in
      add_name DefinedEes name ;;
      when (negb (dict_has "name" d))
        (append_error "Execution Environment missing 'name' field") ;;
      match dict_get "image" d with
      | None =>
          append_error ("Execution Environment '" +:+ str name +:+ "' missing image")
      | Some image =>
          has_digest <- lift (contains "@sha256:" image) ;;
          v <- self ;;
          when (negb has_digest && String.eqb (environment v) "prod")
            (append_warning (digest_message name)) ;;
          has_latest <- lift (contains ":latest" image) ;;
          when has_latest (append_error (latest_message name))
      end
  | _ => raise AttributeError
  end.

Definition validate_execution_environments (config : value) : M unit :=
  ees <- config_get "controller_execution_environments" config ;;
  items <- lift (iter ees) ;;
  for_each check_execution_environment items ;;
  n <- lift (len ees) ;;
  append_info ("Found " +:+ str_of_nat n +:+ " execution environment(s)").

(** *** Projects *)

Definition check_project (project : value) : M unit :=
  match project with
  | VDict d =>
      let name := name_of d in
      add_name DefinedProjects name ;;
      when (negb (dict_has "name" d))
        (append_error "Project missing 'name' field") ;;
      match dict_get "scm_type" d with
      | None => append_error ("Project '" +:+ str name +:+ "' missing scm_type")
      | Some scm_type =>
          when (negb (is_str "git" scm_type))
            (append_warning
               ("Project '" +:+ str name
                +:+ "' not using Git SCM (Constitutional Article I: GitOps First)"))
      end ;;
      when (negb (dict_has "scm_url" d))
        (append_error ("Project '" +:+ str name +:+ "' missing scm_url")) ;;
      when (negb (dict_has "scm_branch" d))
        (append_warning
           ("Project '" +:+ str name
            +:+ "' not specifying branch - will use repository default")) ;;
      match dict_get "credential" d with
      | Some credential => add_name ReferencedCredentials credential
      | None => ret tt
      end ;;
      match dict_get "default_environment" d with
      | Some ee => add_name ReferencedEes ee
      | None => ret tt
      end
  | _ => raise AttributeError
  end.

Definition validate_projects (config : value) : M unit :=
  projects <- config_get "controller_projects" config ;;
  items <- lift (iter projects) ;;
  for_each check_project items ;;
  n <- lift (len projects) ;;
  append_info ("Found " +:+ str_of_nat n +:+ " project(s)").

(** *** Inventories *)

Definition check_inventory (inventory : value) : M unit :=
  match inventory with
  | VDict d =>
      let name := name_of d in
      add_name DefinedInventories name ;;
      when (negb (dict_has "name" d))
        (append_error "Inventory missing 'name' field") ;;
      when (negb (dict_has "organization" d))
        (append_error ("Inventory '" +:+ str name +:+ "' missing organization"))
  | _ => raise AttributeError
  end.

Definition validate_inventories (config : value) : M unit :=
  inventories <- config_get "controller_inventories" config ;;
  items <- lift (iter inventories) ;;
  for_each check_inventory items ;;
  n <- lift (len inventories) ;;
  append_info ("Found " +:+ str_of_nat n +:+ " inventor(y|ies)").

(** *** Job templates *)

(** The body of [for cred in template['credentials']]. *)
Definition note_template_credential (cred : value) : M unit :=
  match cred with
  | VStr _ => add_name ReferencedCredentials cred
  | VDict c =>
      match dict_get "name" c with
      | Some n => add_name ReferencedCredentials n
      | None => ret tt
      end
  | _ => ret tt
  end.

Definition check_job_template (template : value) : M unit :=
  match template with
  | VDict d =>
      let name := name_of d in
      when (negb (dict_has "name" d))
        (append_error "Job Template missing 'name' field") ;;
      match dict_get "project" d with
      | Some project => add_name ReferencedProjects project
      | None => append_error ("Job Template '" +:+ str name +:+ "' missing project")
      end ;;
      match dict_get "inventory" d with
      | Some inventory => add_name ReferencedInventories inventory
      | None => append_error ("Job Template '" +:+ str name +:+ "' missing inventory")
      end ;;
      when (negb (dict_has "playbook" d))
        (append_error ("Job Template '" +:+ str name +:+ "' missing playbook")) ;;
      match dict_get "credentials" d with
      | Some creds =>
          items <- lift (iter creds) ;;
          for_each note_template_credential items
      | None => ret tt
      end ;;
      match dict_get "execution_environment" d with
      | Some ee => add_name ReferencedEes ee
      | None => ret tt
      end ;;
      v <- self ;;
      when (String.eqb (environment v) "prod")
        (when (truthy (dict_get_or "ask_variables_on_launch" (VBool false) d))
           (append_warning
              ("Job Template '" +:+ str name
               +:+ "' allows variable prompts in production - consider pre-defining variables")) ;;
         when (negb (truthy (dict_get_or "use_fact_cache" (VBool false) d)))
           (append_warning
              ("Job Template '" +:+ str name
               +:+ "' not using fact cache - consider enabling for performance")))
  | _ => raise AttributeError
  end.

Definition validate_job_templates (config : value) : M unit :=
  templates <- config_get "controller_templates" config ;;
  items <- lift (iter templates) ;;
  for_each check_job_template items ;;
  n <- lift (len templates) ;;
  append_info ("Found " +:+ str_of_nat n +:+ " job template(s)").

(** *** Workflow templates *)

Definition check_workflow_template (workflow : value) : M unit :=
  match workflow with
  | VDict d =>
      let name := name_of d in
      when (negb (dict_has "name" d))
        (append_error "Workflow Template missing 'name' field") ;;
      when (negb (dict_has "simplified_workflow_nodes" d)
            && negb (dict_has "workflow_nodes" d))
        (append_warning
           ("Workflow Template '" +:+ str name +:+ "' has no workflow nodes defined"))
  | _ => raise AttributeError
  end.

Definition validate_workflow_templates (config : value) : M unit :=
  workflows <- config_get "controller_workflows" config ;;
  items <- lift (iter workflows) ;;
  for_each check_workflow_template items ;;
  n <- lift (len workflows) ;;
  append_info ("Found " +:+ str_of_nat n +:+ " workflow template(s)").

(** *** Schedules *)

Definition check_schedule (schedule : value) : M unit :=
  match schedule with
  | VDict d =>
      let name := name_of d in
      when (negb (dict_has "name" d))
        (append_error "Schedule missing 'name' field") ;;
      when (negb (dict_has "rrule" d))
        (append_error ("Schedule '" +:+ str name +:+ "' missing rrule")) ;;
      when (negb (dict_has "unified_job_template" d))
        (append_error ("Schedule '" +:+ str name +:+ "' missing unified_job_template")) ;;
      v <- self ;;
      when (truthy (dict_get_or "enabled" (VBool true) d)
            && String.eqb (environment v) "prod")
        (append_info ("Schedule '" +:+ str name +:+ "' is enabled in production"))
  | _ => raise AttributeError
  end.

Definition validate_schedules (config : value) : M unit :=
  schedules <- config_get "controller_schedules" config ;;
  items <- lift (iter schedules) ;;
  for_each check_schedule items ;;
  n <- lift (len schedules) ;;
  append_info ("Found " +:+ str_of_nat n +:+ " schedule(s)").

(* ===================================================================== *)
(** ** Reference reconciliation *)
(* ===================================================================== *)

(** The four kinds [validate_references] reconciles, in its order. *)
Inductive ref_kind : Type :=
| Credentials | Projects | Inventories | ExecutionEnvironments.

Definition ref_kinds : list ref_kind :=
  [Credentials; Projects; Inventories; ExecutionEnvironments].

Definition referenced_of (k : ref_kind) : name_set :=
  match k with
  | Credentials => ReferencedCredentials
  | Projects => ReferencedProjects
  | Inventories => ReferencedInventories
  | ExecutionEnvironments => ReferencedEes
  end.

Definition defined_of (k : ref_kind) : name_set :=
  match k with
  | Credentials => DefinedCredentials
  | Projects => DefinedProjects
  | Inventories => DefinedInventories
  | ExecutionEnvironments => DefinedEes
  end.

Definition kind_label (k : ref_kind) : string :=
  match k with
  | Credentials => "credential"
  | Projects => "project"
  | Inventories => "inventory"
  | ExecutionEnvironments => "execution environment"
  end.

Definition dangling_message (k : ref_kind) (name : value) : string :=
  "Referenced " +:+ kind_label k +:+ " '" +:+ str name
  +:+ "' is not defined (may be in different environment)".

(** [self.referenced_<kind> - self.defined_<kind>] *)
Definition undefined_names (k : ref_kind) (v : validator) : pyset :=
  set_diff (get_set (referenced_of k) v) (get_set (defined_of k) v).

Section Interpreter.

(** The run of the interpreter in which the methods below execute. *)
Variable order : set_order.

(** The members of that difference, as [for name in undefined] meets them. *)
Definition undefined_in_order (k : ref_kind) (v : validator) : list value :=
  walk_difference order (get_set (referenced_of k) v) (get_set (defined_of k) v).

(** One of the four blocks of [validate_references]. *)
Definition check_references (k : ref_kind) : M unit :=
  v <- self ;;
  let undefined := undefined_names k v in
  match undefined with
  | [] => ret tt
  | _ => for_each (fun x => append_warning (dangling_message k x))
                  (undefined_in_order k v)
  end.

Definition validate_references : M unit :=
  check_references Credentials ;;
  check_references Projects ;;
  check_references Inventories ;;
  check_references ExecutionEnvironments.

(* ===================================================================== *)
(** ** Files and the per-environment driver *)
(* ===================================================================== *)

(** What [yaml.safe_load] makes of a regular file. *)
Inductive decoded : Type :=
| YamlError (msg : string)
| Document (content : value).

Inductive fs_entry : Type :=
| NoEntry
| Directory
| File (d : decoded).

(** The file tree: what is at a path, by the text [str] gives for it. *)
Definition filesystem : Type := string -> fs_entry.

(** [p.exists()] *)
Definition path_exists (fs : filesystem) (p : path) : bool :=
  match fs (path_str p) with
  | NoEntry => false
  | _ => true
  end.

Definition load_yaml_file (fs : filesystem) (file_path : path) : M value :=
  match fs (path_str file_path) with
  | File (Document content) => ret (if truthy content then content else VDict [])
  | NoEntry =>
      append_warning ("File not found: " +:+ path_str file_path) ;;
      ret (VDict [])
  | File (YamlError e) =>
      append_error ("YAML parsing error in " +:+ path_str file_path +:+ ": " +:+ e) ;;
      ret (VDict [])
  | Directory => raise IsADirectoryError
  end.

Definition get_group_vars_path (base : path) (env : string) : path :=
  if negb (String.eqb env "")
  then path_div (path_div (path_div base "inventory") "group_vars") ("aap_" +:+ env)
  else path_div (path_div base "inventory") "group_vars".

(** The table [config_files], in its order. *)
Definition config_files : list (string * (value -> M unit)) :=
  [("organizations.yml", validate_organizations);
   ("teams.yml", validate_teams);
   ("credentials.yml", validate_credentials);
   ("execution_environments.yml", validate_execution_environments);
   ("projects.yml", validate_projects);
   ("inventories.yml", validate_inventories);
   ("job_templates.yml", validate_job_templates);
   ("workflow_templates.yml", validate_workflow_templates);
   ("schedules.yml", validate_schedules)].

(** The body of [for filename, validator in config_files.items()]. *)
Definition validate_config_file (fs : filesystem) (group_vars_path : path)
    (entry : string * (value -> M unit)) : M unit :=
  let file_path := path_div group_vars_path (fst entry) in
  if path_exists fs file_path then
    config <- load_yaml_file fs file_path ;;
    when (truthy config) (snd entry config)
  else ret tt.

(** The loop over [config_files]: every entity validator whose file is there. *)
Definition validate_config_files (fs : filesystem) (group_vars_path : path) : M unit :=
  for_each (validate_config_file fs group_vars_path) config_files.

Definition validate_environment (fs : filesystem) (env : string) : M bool :=
  v <- self ;;
  let group_vars_path := get_group_vars_path (base_path v) env in
  if negb (path_exists fs group_vars_path) then
    append_error ("Environment path not found: " +:+ path_str group_vars_path) ;;
    ret false
  else
    validate_config_files fs group_vars_path ;;
    validate_references ;;
    ret true.

(** The value [print_results] returns; its console output is the three
    finding lists and this verdict. *)
Definition print_results : M bool :=
  v <- self ;;
  match errors v with
  | [] => ret true
  | _ => ret false
  end.

(* ===================================================================== *)
(** ** [main] *)
(* ===================================================================== *)

(** What one call of [print_results] shows. *)
Record report : Type := mkReport {
  shown_errors : list string;
  shown_warnings : list string;
  shown_info : list string;
  passed : bool
}.

Definition report_of (v : validator) (verdict : bool) : report :=
  mkReport (errors v) (warnings v) (info v) verdict.

(** The locals of [main] while it loops, and the reports shown so far. *)
Record process : Type := mkProcess {
  validator_var : option validator;
  all_passed : bool;
  console : list report
}.

(** [environments], from the two command-line switches. *)
Definition environments_of (all_environments : bool) (env : string) : list string :=
  if all_environments || String.eqb env "all" then ["dev"; "qa"; "prod"] else [env].

(** One turn of [for env in environments]. *)
Definition main_step (fs : filesystem) (base : path) (env : string)
    (p : process) : outcome unit * process :=
  let validator := new_validator base env in
  match validate_environment fs env validator with
  | (Raised e, v1) => (Raised e, mkProcess (Some v1) (all_passed p) (console p))
  | (Returned _, v1) =>
      match print_results v1 with
      | (Raised e, v2) => (Raised e, mkProcess (Some v2) (all_passed p) (console p))
      | (Returned verdict, v2) =>
          (Returned tt,
           mkProcess (Some v2) (all_passed p && verdict)
             (console p ++ [report_of v2 verdict]))
      end
  end.

Fixpoint main_loop (fs : filesystem) (base : path) (environments : list string)
    (p : process) : outcome unit * process :=
  match environments with
  | [] => (Returned tt, p)
  | env :: rest =>
      match main_step fs base env p with
      | (Returned _, p') => main_loop fs base rest p'
      | (Raised e, p') => (Raised e, p')
      end
  end.

(** [main]: the exit status handed to [sys.exit], or the exception that
    ends the process, with the reports shown.  [base] is [args.base_path]:
    [Path(text)] for the text given as [--base-path], [Path.cwd()] without
    one. *)
Definition main (fs : filesystem) (base : path) (all_environments : bool)
    (env : string) : outcome Z * list report :=
  match main_loop fs base (environments_of all_environments env)
          (mkProcess None true []) with
  | (Returned _, p) => (Returned (if all_passed p then 0%Z else 1%Z), console p)
  | (Raised e, p) => (Raised e, console p)
  end.

(* ===================================================================== *)
(** ** Vocabulary of the properties *)
(* ===================================================================== *)

(** The validator with findings appended to its three lists. *)
Definition grow (e w i : list string) (v : validator) : validator :=
  put_info (info v ++ i) (put_warnings (warnings v ++ w) (put_errors (errors v ++ e) v)).

Definition name_set_eq_dec (a b : name_set) : {a = b} + {a <> b}.
Proof. decide equality. Defined.

(** [l'] is [l] with items appended: nothing removed, reordered or changed. *)
Definition prefix_of {A : Type} (l l' : list A) : Prop := exists t, l' = l ++ t.

(** The representative of a hashable value under [==]: booleans are the
    integers 0 and 1. *)
Definition canon (x : value) : value :=
  match x with
  | VBool b => VInt (Z.b2z b)
  | _ => x
  end.

(** A well-formed set: hashable members, no two of them equal. *)
Definition wf_set (s : pyset) : Prop :=
  Forall (fun x => hashable x = true) s /\ NoDup (map canon s).

Definition wf_validator (v : validator) : Prop :=
  forall k, wf_set (get_set k v).

(** [v'] is [v] after appends to the lists and additions to the sets only;
    the sets stay well formed. *)
Record extends (v v' : validator) : Prop := mkExtends {
  ext_base : base_path v' = base_path v;
  ext_env : environment v' = environment v;
  ext_errors : prefix_of (errors v) (errors v');
  ext_warnings : prefix_of (warnings v) (warnings v');
  ext_info : prefix_of (info v) (info v');
  ext_sets : forall k, prefix_of (get_set k v) (get_set k v');
  ext_wf : wf_validator v -> wf_validator v'
}.

Definition monotone {A : Type} (c : M A) : Prop :=
  forall v, extends v (after c v).

(** What holds when [c] returns from [v]; [R] is what is asked when it
    raises ([False]: it must return; [True]: nothing). *)
Definition triple {A : Type} (R : Prop) (c : M A) (v : validator)
    (Q : A -> validator -> Prop) : Prop :=
  match c v with
  | (Returned a, v') => Q a v'
  | (Raised _, _) => R
  end.

(** How many members of [s] are equal to [x]. *)
Definition count_name (x : value) (s : pyset) : nat :=
  List.length (filter (eqv x) s).

(** The errors the loop over [sensitive_fields] appends for one field. *)
Definition field_findings (name : value) (inputs : list (value * value))
    (field : string) : list string :=
  match dict_get field inputs with
  | Some raw =>
      if negb (startswith (str raw) "{{ ") && negb (startswith (str raw) "!vault")
      then [unencrypted_message name field]
      else []
  | None => []
  end.

(** The errors one credential record appends, in order. *)
Definition credential_errors (d inputs : list (value * value)) : list string :=
  (if negb (dict_has "name" d) then ["Credential missing 'name' field"] else [])
  ++ (if negb (dict_has "credential_type" d)
      then ["Credential '" +:+ str (name_of d) +:+ "' missing credential_type"]
      else [])
  ++ (if negb (dict_has "organization" d)
      then ["Credential '" +:+ str (name_of d) +:+ "' missing organization"]
      else [])
  ++ flat_map (field_findings (name_of d) inputs) sensitive_fields.

(** The errors one execution-environment record with image text [image]
    appends, in order. *)
Definition ee_errors (d : list (value * value)) (image : string) : list string :=
  (if negb (dict_has "name" d)
   then ["Execution Environment missing 'name' field"] else [])
  ++ (if str_contains ":latest" image then [latest_message (name_of d)] else []).

(** The warnings that record appends when the active environment is [env]. *)
Definition ee_warnings (env : string) (d : list (value * value)) (image : string)
    : list string :=
  if negb (str_contains "@sha256:" image) && String.eqb env "prod"
  then [digest_message (name_of d)] else [].

(** The nine kinds of records, in the order of [config_files]. *)
Inductive entity : Type :=
| Organization | Team | Credential | ExecutionEnvironment | Project
| Inventory | JobTemplate | WorkflowTemplate | Schedule.

(** The loop body of the validator of a kind. *)
Definition checker (e : entity) : value -> M unit :=
  match e with
  | Organization => check_organization
  | Team => check_team
  | Credential => check_credential
  | ExecutionEnvironment => check_execution_environment
  | Project => check_project
  | Inventory => check_inventory
  | JobTemplate => check_job_template
  | WorkflowTemplate => check_workflow_template
  | Schedule => check_schedule
  end.

Definition validator_of (e : entity) : value -> M unit :=
  match e with
  | Organization => validate_organizations
  | Team => validate_teams
  | Credential => validate_credentials
  | ExecutionEnvironment => validate_execution_environments
  | Project => validate_projects
  | Inventory => validate_inventories
  | JobTemplate => validate_job_templates
  | WorkflowTemplate => validate_workflow_templates
  | Schedule => validate_schedules
  end.

(** The key a validator reads its records from. *)
Definition config_key (e : entity) : string :=
  match e with
  | Organization => "controller_organizations"
  | Team => "controller_teams"
  | Credential => "controller_credentials"
  | ExecutionEnvironment => "controller_execution_environments"
  | Project => "controller_projects"
  | Inventory => "controller_inventories"
  | JobTemplate => "controller_templates"
  | WorkflowTemplate => "controller_workflows"
  | Schedule => "controller_schedules"
  end.

Definition missing_name_message (e : entity) : string :=
  match e with
  | Organization => "Organization missing 'name' field"
  | Team => "Team missing 'name' field"
  | Credential => "Credential missing 'name' field"
  | ExecutionEnvironment => "Execution Environment missing 'name' field"
  | Project => "Project missing 'name' field"
  | Inventory => "Inventory missing 'name' field"
  | JobTemplate => "Job Template missing 'name' field"
  | WorkflowTemplate => "Workflow Template missing 'name' field"
  | Schedule => "Schedule missing 'name' field"
  end.

(** The set a kind records its own names in; three kinds keep none. *)
Definition defined_set (e : entity) : option name_set :=
  match e with
  | Organization => Some DefinedOrganizations
  | Team => Some DefinedTeams
  | Credential => Some DefinedCredentials
  | ExecutionEnvironment => Some DefinedEes
  | Project => Some DefinedProjects
  | Inventory => Some DefinedInventories
  | JobTemplate | WorkflowTemplate | Schedule => None
  end.

(** A field that, when present, holds a hashable value. *)
Definition opt_hashable (o : option value) : bool :=
  match o with
  | Some x => hashable x
  | None => true
  end.

(** An item of a template's [credentials] that [set.add] accepts. *)
Definition credential_ref_ok (c : value) : bool :=
  match c with
  | VDict cd => opt_hashable (dict_get "name" cd)
  | _ => true
  end.

(** A job-template record none of whose statements raises. *)
Definition job_template_ok (d : list (value * value)) : bool :=
  opt_hashable (dict_get "project" d)
  && opt_hashable (dict_get "inventory" d)
  && match dict_get "credentials" d with
     | Some creds =>
         match iter creds with
         | Returned items => forallb credential_ref_ok items
         | Raised _ => false
         end
     | None => true
     end
  && opt_hashable (dict_get "execution_environment" d).

Definition missing_project_message (name : value) : string :=
  "Job Template '" +:+ str name +:+ "' missing project".

Definition missing_inventory_message (name : value) : string :=
  "Job Template '" +:+ str name +:+ "' missing inventory".

(** The errors one job-template record appends, in order. *)
Definition job_template_errors (d : list (value * value)) : list string :=
  (if negb (dict_has "name" d) then ["Job Template missing 'name' field"] else [])
  ++ match dict_get "project" d with
     | Some _ => []
     | None => [missing_project_message (name_of d)]
     end
  ++ match dict_get "inventory" d with
     | Some _ => []
     | None => [missing_inventory_message (name_of d)]
     end
  ++ (if negb (dict_has "playbook" d)
      then ["Job Template '" +:+ str (name_of d) +:+ "' missing playbook"]
      else []).

(** The set after [add] of a field's value, when the field is there. *)
Definition add_opt (o : option value) (s : pyset) : pyset :=
  match o with
  | Some x => set_add x s
  | None => s
  end.

(** The warnings [validate_references] appends: kind by kind, one per
    member of the difference, in the order the loop meets them. *)
Definition dangling_warnings (v : validator) : list string :=
  flat_map (fun k => map (dangling_message k) (undefined_in_order k v)) ref_kinds.

(** A name that is a text. *)
Definition is_text (x : value) : bool :=
  match x with
  | VStr _ => true
  | _ => false
  end.

(** From [v] to [v']: the three finding lists have only been appended to,
    and no name has left a set. *)
Definition only_grows (v v' : validator) : Prop :=
  prefix_of (errors v) (errors v') /\
  prefix_of (warnings v) (warnings v') /\
  prefix_of (info v) (info v') /\
  forall k, incl (get_set k v) (get_set k v').

(** What a validator appends when its key maps to an empty list: a
    warning for organizations and teams, a zero count for the others. *)
Definition zero_warnings (e : entity) : list string :=
  match e with
  | Organization => ["No organizations defined"]
  | Team => ["No teams defined - consider RBAC best practices"]
  | _ => []
  end.

Definition zero_info (e : entity) : list string :=
  match e with
  | Organization | Team => []
  | Credential => ["Found 0 credential(s)"]
  | ExecutionEnvironment => ["Found 0 execution environment(s)"]
  | Project => ["Found 0 project(s)"]
  | Inventory => ["Found 0 inventor(y|ies)"]
  | JobTemplate => ["Found 0 job template(s)"]
  | WorkflowTemplate => ["Found 0 workflow template(s)"]
  | Schedule => ["Found 0 schedule(s)"]
  end.

(** A record of a kind none of whose statements raises: hashable names and
    references, a mapping under [inputs], a text under [image], an iterable
    of acceptable items under [credentials]. *)
Definition record_ok (e : entity) (d : list (value * value)) : bool :=
  match e with
  | Organization | Team | Inventory => hashable (name_of d)
  | Credential =>
      hashable (name_of d)
      && match dict_get_or "inputs" (VDict []) d with
         | VDict _ => true
         | _ => false
         end
  | ExecutionEnvironment =>
      hashable (name_of d)
      && match dict_get "image" d with
         | Some (VStr _) | None => true
         | Some _ => false
         end
  | Project =>
      hashable (name_of d)
      && opt_hashable (dict_get "credential" d)
      && opt_hashable (dict_get "default_environment" d)
  | JobTemplate => job_template_ok d
  | WorkflowTemplate | Schedule => true
  end.

Definition is_ok_record (e : entity) (r : value) : bool :=
  match r with
  | VDict d => record_ok e d
  | _ => false
  end.

(** The records a document holds for a kind, when it is a mapping whose
    recognized key, if there, maps to a list. *)
Definition records_of (e : entity) (config : value) : option (list value) :=
  match config with
  | VDict c =>
      match dict_get_or (config_key e) (VList []) c with
      | VList items => Some items
      | _ => None
      end
  | _ => None
  end.

(** A well-shaped document for a kind: a mapping, a list under the key,
    every record a mapping that is acceptable for the kind. *)
Definition config_ok (e : entity) (config : value) : bool :=
  match records_of e config with
  | Some items => forallb (is_ok_record e) items
  | None => false
  end.

(** The required fields of a kind, each with the error its absence gets. *)
Definition required_fields (e : entity) (d : list (value * value))
    : list (string * string) :=
  match e with
  | Organization => [("name", "Organization missing 'name' field")]
  | Team =>
      [("name", "Team missing 'name' field");
       ("organization", "Team '" +:+ str (name_of d) +:+ "' missing organization reference")]
  | Credential =>
      [("name", "Credential missing 'name' field");
       ("credential_type", "Credential '" +:+ str (name_of d) +:+ "' missing credential_type");
       ("organization", "Credential '" +:+ str (name_of d) +:+ "' missing organization")]
  | ExecutionEnvironment =>
      [("name", "Execution Environment missing 'name' field");
       ("image", "Execution Environment '" +:+ str (name_of d) +:+ "' missing image")]
  | Project =>
      [("name", "Project missing 'name' field");
       ("scm_type", "Project '" +:+ str (name_of d) +:+ "' missing scm_type");
       ("scm_url", "Project '" +:+ str (name_of d) +:+ "' missing scm_url")]
  | Inventory =>
      [("name", "Inventory missing 'name' field");
       ("organization", "Inventory '" +:+ str (name_of d) +:+ "' missing organization")]
  | JobTemplate =>
      [("name", "Job Template missing 'name' field");
       ("project", "Job Template '" +:+ str (name_of d) +:+ "' missing project");
       ("inventory", "Job Template '" +:+ str (name_of d) +:+ "' missing inventory");
       ("playbook", "Job Template '" +:+ str (name_of d) +:+ "' missing playbook")]
  | WorkflowTemplate => [("name", "Workflow Template missing 'name' field")]
  | Schedule =>
      [("name", "Schedule missing 'name' field");
       ("rrule", "Schedule '" +:+ str (name_of d) +:+ "' missing rrule");
       ("unified_job_template",
        "Schedule '" +:+ str (name_of d) +:+ "' missing unified_job_template")]
  end.

(** The closing note of a validator that has seen [n] records. *)
Definition count_message (e : entity) (n : nat) : string :=
  "Found " +:+ str_of_nat n +:+
  match e with
  | Organization => " organization(s)"
  | Team => " team(s)"
  | Credential => " credential(s)"
  | ExecutionEnvironment => " execution environment(s)"
  | Project => " project(s)"
  | Inventory => " inventor(y|ies)"
  | JobTemplate => " job template(s)"
  | WorkflowTemplate => " workflow template(s)"
  | Schedule => " schedule(s)"
  end.

(** Whether a validator stops at its guard on an empty collection. *)
Definition guards_empty (e : entity) : bool :=
  match e with
  | Organization | Team => true
  | _ => false
  end.

(** One environment validated on a validator of its own, as one turn of
    the loop of [main] does: the report shown, or the exception. *)
Definition solo (fs : filesystem) (base : path) (env : string) : outcome report :=
  match validate_environment fs env (new_validator base env) with
  | (Returned _, v1) =>
      match print_results v1 with
      | (Returned verdict, v2) => Returned (report_of v2 verdict)
      | (Raised e, _) => Raised e
      end
  | (Raised e, _) => Raised e
  end.


(** *** Sample inputs *)

Definition repo : path := path_of_string "/repo".

Definition sample_validator : validator := new_validator repo "prod".

(** A credential with a plaintext password and a looked-up token. *)
Definition sample_credential : list (value * value) :=
  [(VStr "name", VStr "vault-cred");
   (VStr "credential_type", VStr "Machine");
   (VStr "inputs",
    VDict [(VStr "password", VStr "hunter2");
           (VStr "token", VStr "{{ lookup('env', 'TOKEN') }}")])].

Definition sample_inputs : list (value * value) :=
  [(VStr "password", VStr "hunter2");
   (VStr "token", VStr "{{ lookup('env', 'TOKEN') }}")].

(** An execution environment on a mutable tag. *)
Definition sample_ee : list (value * value) :=
  [(VStr "name", VStr "ee-default");
   (VStr "image", VStr "quay.io/acme/ee:latest")].

(** A credential without a name. *)
Definition nameless_credential : list (value * value) :=
  [(VStr "credential_type", VStr "Machine");
   (VStr "organization", VStr "Default")].

(** A job template with a project and no inventory. *)
Definition sample_template : list (value * value) :=
  [(VStr "name", VStr "deploy");
   (VStr "project", VStr "playbooks");
   (VStr "playbook", VStr "site.yml");
   (VStr "credentials", VList [VStr "vault-cred"])].

(** Documents with no record under the recognized key. *)
Definition no_organizations : list (value * value) :=
  [(VStr "controller_organizations", VList [])].

Definition no_credentials : list (value * value) :=
  [(VStr "controller_credentials", VList [])].

(** Documents of an unexpected shape. *)
Definition null_credentials : value :=
  VDict [(VStr "controller_credentials", VNone)].

Definition text_for_project : value :=
  VDict [(VStr "controller_projects", VList [VStr "oops"])].

(** A document with one job template. *)
Definition templates_document : value :=
  VDict [(VStr "controller_templates", VList [VDict sample_template])].

(** *** Sample file trees *)

(** The text of [repo / 'inventory' / 'group_vars' / 'aap_dev']. *)
Definition dev_dir : string := "/repo/inventory/group_vars/aap_dev".

(** One credential with a plaintext password. *)
Definition hunter2_document : value :=
  VDict [(VStr "controller_credentials",
          VList [VDict [(VStr "name", VStr "machine");
                        (VStr "credential_type", VStr "Machine");
                        (VStr "organization", VStr "Default");
                        (VStr "inputs",
                         VDict [(VStr "password", VStr "hunter2")])]])].

Definition fs_plaintext : filesystem :=
  fun path =>
    if String.eqb path dev_dir then Directory
    else if String.eqb path (dev_dir +:+ "/credentials.yml")
    then File (Document hunter2_document)
    else NoEntry.

(** Nothing at all. *)
Definition fs_empty : filesystem := fun _ => NoEntry.

(** An [organizations.yml] that decodes to an empty document. *)
Definition fs_blank_organizations : filesystem :=
  fun path =>
    if String.eqb path dev_dir then Directory
    else if String.eqb path (dev_dir +:+ "/organizations.yml")
    then File (Document VNone)
    else NoEntry.

(** A project, and a job template that points at it and at an inventory
    nobody defines. *)
Definition fs_references : filesystem :=
  fun path =>
    if String.eqb path dev_dir then Directory
    else if String.eqb path (dev_dir +:+ "/projects.yml")
    then File (Document
                 (VDict [(VStr "controller_projects",
                          VList [VDict [(VStr "name", VStr "playbooks");
                                        (VStr "scm_type", VStr "git");
                                        (VStr "scm_url", VStr "https://git.example/p.git");
                                        (VStr "scm_branch", VStr "main")]])]))
    else if String.eqb path (dev_dir +:+ "/job_templates.yml")
    then File (Document
                 (VDict [(VStr "controller_templates",
                          VList [VDict [(VStr "name", VStr "deploy");
                                        (VStr "project", VStr "playbooks");
                                        (VStr "inventory", VStr "lab");
                                        (VStr "playbook", VStr "site.yml")]])]))
    else NoEntry.

(** A [credentials.yml] whose key maps to null. *)
Definition fs_null_credentials : filesystem :=
  fun path =>
    if String.eqb path dev_dir then Directory
    else if String.eqb path (dev_dir +:+ "/credentials.yml")
    then File (Document null_credentials)
    else NoEntry.

(** Two job templates and no project: one template has [project: 5], a
    number, the other [project: "5"], a text. *)
Definition five_twice_document : value :=
  VDict [(VStr "controller_templates",
          VList [VDict [(VStr "name", VStr "by-number");
                        (VStr "project", VInt 5);
                        (VStr "inventory", VStr "lab");
                        (VStr "playbook", VStr "site.yml")];
                 VDict [(VStr "name", VStr "by-text");
                        (VStr "project", VStr "5");
                        (VStr "inventory", VStr "lab");
                        (VStr "playbook", VStr "site.yml")]])].

Definition fs_five_twice : filesystem :=
  fun path =>
    if String.eqb path dev_dir then Directory
    else if String.eqb path (dev_dir +:+ "/job_templates.yml")
    then File (Document five_twice_document)
    else NoEntry.

(** What the entity validators leave of that tree. *)
Definition five_twice_validated : validator :=
  after (validate_config_files fs_five_twice (get_group_vars_path repo "dev"))
        (new_validator repo "dev").

(** The tree of [fs_references], seen from the repository itself. *)
Definition fs_here : filesystem :=
  fun path => fs_references ("/repo/" +:+ path).

(* ===================================================================== *)
(** ** What one record contributes *)
(* ===================================================================== *)

(** [self.<set>.add(x)] on a hashable [x], as a change of the validator. *)
Definition add_pure (k : name_set) (x : value) (v : validator) : validator :=
  put_set k (set_add x (get_set k v)) v.

(** Additions to the sets, in order. *)
Definition add_names (l : list (name_set * value)) (v : validator) : validator :=
  fold_left (fun acc kx => add_pure (fst kx) (snd kx) acc) l v.

(** The names of [l] that go to the set [k]. *)
Definition names_for (k : name_set) (l : list (name_set * value)) : list value :=
  map snd (filter (fun kx => if name_set_eq_dec (fst kx) k then true else false) l).

Definition add_all (names : list value) (s : pyset) : pyset :=
  fold_left (fun acc x => set_add x acc) names s.

(** One message when the test holds. *)
Definition if_msg (test : bool) (m : string) : list string :=
  if test then [m] else [].

(** One addition when the field is there. *)
Definition if_present (k : name_set) (o : option value) : list (name_set * value) :=
  match o with
  | Some x => [(k, x)]
  | None => []
  end.

(** The mapping under [inputs] of a credential. *)
Definition inputs_of (d : list (value * value)) : list (value * value) :=
  match dict_get_or "inputs" (VDict []) d with
  | VDict ins => ins
  | _ => []
  end.

(** The items of [credentials] of a job template. *)
Definition template_credentials (d : list (value * value)) : list value :=
  match dict_get "credentials" d with
  | Some creds =>
      match iter creds with
      | Returned items => items
      | Raised _ => []
      end
  | None => []
  end.

(** The names the loop over [credentials] adds: a text as it is, a mapping
    by its [name]; anything else is passed over. *)
Definition template_credential_names (items : list value) : list value :=
  flat_map
    (fun c =>
       match c with
       | VStr _ => [c]
       | VDict cd =>
           match dict_get "name" cd with
           | Some n => [n]
           | None => []
           end
       | _ => []
       end) items.

(** The errors one record of a kind appends, in order. *)
Definition record_errors (e : entity) (d : list (value * value)) : list string :=
  let name := str (name_of d) in
  match e with
  | Organization =>
      if_msg (negb (dict_has "name" d)) "Organization missing 'name' field"
  | Team =>
      if_msg (negb (dict_has "name" d)) "Team missing 'name' field"
      ++ if_msg (negb (dict_has "organization" d))
           ("Team '" +:+ name +:+ "' missing organization reference")
  | Credential => credential_errors d (inputs_of d)
  | ExecutionEnvironment =>
      if_msg (negb (dict_has "name" d)) "Execution Environment missing 'name' field"
      ++ match dict_get "image" d with
         | Some (VStr image) =>
             if_msg (str_contains ":latest" image) (latest_message (name_of d))
         | Some _ => []
         | None => ["Execution Environment '" +:+ name +:+ "' missing image"]
         end
  | Project =>
      if_msg (negb (dict_has "name" d)) "Project missing 'name' field"
      ++ if_msg (negb (dict_has "scm_type" d))
           ("Project '" +:+ name +:+ "' missing scm_type")
      ++ if_msg (negb (dict_has "scm_url" d))
           ("Project '" +:+ name +:+ "' missing scm_url")
  | Inventory =>
      if_msg (negb (dict_has "name" d)) "Inventory missing 'name' field"
      ++ if_msg (negb (dict_has "organization" d))
           ("Inventory '" +:+ name +:+ "' missing organization")
  | JobTemplate => job_template_errors d
  | WorkflowTemplate =>
      if_msg (negb (dict_has "name" d)) "Workflow Template missing 'name' field"
  | Schedule =>
      if_msg (negb (dict_has "name" d)) "Schedule missing 'name' field"
      ++ if_msg (negb (dict_has "rrule" d))
           ("Schedule '" +:+ name +:+ "' missing rrule")
      ++ if_msg (negb (dict_has "unified_job_template" d))
           ("Schedule '" +:+ name +:+ "' missing unified_job_template")
  end.

(** The warnings one record appends when the active environment is [env]. *)
Definition record_warnings (env : string) (e : entity) (d : list (value * value))
    : list string :=
  let name := str (name_of d) in
  match e with
  | Organization =>
      if_msg (negb (dict_has "description" d))
        ("Organization '" +:+ name +:+ "' missing description")
  | Team =>
      if_msg (negb (dict_has "description" d))
        ("Team '" +:+ name +:+ "' missing description")
  | ExecutionEnvironment =>
      match dict_get "image" d with
      | Some (VStr image) => ee_warnings env d image
      | _ => []
      end
  | Project =>
      match dict_get "scm_type" d with
      | Some scm_type =>
          if_msg (negb (is_str "git" scm_type))
            ("Project '" +:+ name
             +:+ "' not using Git SCM (Constitutional Article I: GitOps First)")
      | None => []
      end
      ++ if_msg (negb (dict_has "scm_branch" d))
           ("Project '" +:+ name
            +:+ "' not specifying branch - will use repository default")
  | JobTemplate =>
      if String.eqb env "prod" then
        if_msg (truthy (dict_get_or "ask_variables_on_launch" (VBool false) d))
          ("Job Template '" +:+ name
           +:+ "' allows variable prompts in production - consider pre-defining variables")
        ++ if_msg (negb (truthy (dict_get_or "use_fact_cache" (VBool false) d)))
             ("Job Template '" +:+ name
              +:+ "' not using fact cache - consider enabling for performance")
      else []
  | WorkflowTemplate =>
      if_msg (negb (dict_has "simplified_workflow_nodes" d)
              && negb (dict_has "workflow_nodes" d))
        ("Workflow Template '" +:+ name +:+ "' has no workflow nodes defined")
  | Credential | Inventory | Schedule => []
  end.

(** The notes one record appends when the active environment is [env]. *)
Definition record_info (env : string) (e : entity) (d : list (value * value))
    : list string :=
  match e with
  | Schedule =>
      if_msg (truthy (dict_get_or "enabled" (VBool true) d) && String.eqb env "prod")
        ("Schedule '" +:+ str (name_of d) +:+ "' is enabled in production")
  | _ => []
  end.

(** The additions to the sets one record makes, in order. *)
Definition record_names (e : entity) (d : list (value * value))
    : list (name_set * value) :=
  match e with
  | Organization => [(DefinedOrganizations, name_of d)]
  | Team => [(DefinedTeams, name_of d)]
  | Credential => [(DefinedCredentials, name_of d)]
  | ExecutionEnvironment => [(DefinedEes, name_of d)]
  | Project =>
      [(DefinedProjects, name_of d)]
      ++ if_present ReferencedCredentials (dict_get "credential" d)
      ++ if_present ReferencedEes (dict_get "default_environment" d)
  | Inventory => [(DefinedInventories, name_of d)]
  | JobTemplate =>
      if_present ReferencedProjects (dict_get "project" d)
      ++ if_present ReferencedInventories (dict_get "inventory" d)
      ++ map (pair ReferencedCredentials)
           (template_credential_names (template_credentials d))
      ++ if_present ReferencedEes (dict_get "execution_environment" d)
  | WorkflowTemplate | Schedule => []
  end.

(** The same four, on a record given as a value. *)
Definition errors_of (e : entity) (r : value) : list string :=
  match r with VDict d => record_errors e d | _ => [] end.

Definition warnings_of (env : string) (e : entity) (r : value) : list string :=
  match r with VDict d => record_warnings env e d | _ => [] end.

Definition info_of (env : string) (e : entity) (r : value) : list string :=
  match r with VDict d => record_info env e d | _ => [] end.

Definition names_of (e : entity) (r : value) : list (name_set * value) :=
  match r with VDict d => record_names e d | _ => [] end.

(** What a validator leaves on a list of records: the findings of the
    records in order, then, unless the guard on an empty collection
    stopped it, the count. *)
Definition validated (e : entity) (items : list value) (v : validator) : validator :=
  match items with
  | [] =>
      if guards_empty e then grow [] (zero_warnings e) [] v
      else grow [] [] [count_message e 0] v
  | _ :: _ =>
      grow (flat_map (errors_of e) items)
        (flat_map (warnings_of (environment v) e) items)
        (flat_map (info_of (environment v) e) items
         ++ [count_message e (List.length items)])
        (add_names (flat_map (names_of e) items) v)
  end.

(** A sensitive field that is absent or starts with one of the two markers. *)
Definition secret_ok (inputs : list (value * value)) (field : string) : bool :=
  match dict_get field inputs with
  | Some raw => startswith (str raw) "{{ " || startswith (str raw) "!vault"
  | None => true
  end.

(** The two policies that give errors: no plaintext secret, no [:latest]. *)
Definition policy_ok (e : entity) (d : list (value * value)) : bool :=
  match e with
  | Credential => forallb (secret_ok (inputs_of d)) sensitive_fields
  | ExecutionEnvironment =>
      match dict_get "image" d with
      | Some (VStr image) => negb (str_contains ":latest" image)
      | _ => true
      end
  | _ => true
  end.

(** Every required field of the kind is there. *)
Definition has_required (e : entity) (d : list (value * value)) : bool :=
  forallb (fun fm => dict_has (fst fm) d) (required_fields e d).

(** A record that gives no error. *)
Definition clean_record (e : entity) (d : list (value * value)) : bool :=
  has_required e d && policy_ok e d.

Definition is_clean (e : entity) (r : value) : bool :=
  match r with
  | VDict d => clean_record e d
  | _ => true
  end.

(** The two production-only warnings of a job template, the note of a
    schedule, the warnings of a project and of a workflow template. *)
Definition prompts_message (name : value) : string :=
  "Job Template '" +:+ str name
  +:+ "' allows variable prompts in production - consider pre-defining variables".

Definition fact_cache_message (name : value) : string :=
  "Job Template '" +:+ str name
  +:+ "' not using fact cache - consider enabling for performance".

Definition enabled_message (name : value) : string :=
  "Schedule '" +:+ str name +:+ "' is enabled in production".

Definition not_git_message (name : value) : string :=
  "Project '" +:+ str name
  +:+ "' not using Git SCM (Constitutional Article I: GitOps First)".

Definition no_branch_message (name : value) : string :=
  "Project '" +:+ str name
  +:+ "' not specifying branch - will use repository default".

Definition no_nodes_message (name : value) : string :=
  "Workflow Template '" +:+ str name +:+ "' has no workflow nodes defined".

Definition yaml_error_message (file_path msg : string) : string :=
  "YAML parsing error in " +:+ file_path +:+ ": " +:+ msg.

Definition not_found_message (group_vars_path : string) : string :=
  "Environment path not found: " +:+ group_vars_path.

Definition is_mapping (r : value) : bool :=
  match r with
  | VDict _ => true
  | _ => false
  end.

(** [None], a boolean or a number: nothing a [for] loop can visit. *)
Definition not_iterable (x : value) : bool :=
  match x with
  | VNone | VBool _ | VInt _ => true
  | _ => false
  end.

(** The sets a kind's validator can add to. *)
Definition touched (e : entity) : list name_set :=
  match e with
  | Organization => [DefinedOrganizations]
  | Team => [DefinedTeams]
  | Credential => [DefinedCredentials]
  | ExecutionEnvironment => [DefinedEes]
  | Project => [DefinedProjects; ReferencedCredentials; ReferencedEes]
  | Inventory => [DefinedInventories]
  | JobTemplate =>
      [ReferencedProjects; ReferencedInventories; ReferencedCredentials;
       ReferencedEes]
  | WorkflowTemplate | Schedule => []
  end.

(** A method that leaves the set [k] as it is, also when it raises. *)
Definition keeps (k : name_set) {A : Type} (c : M A) : Prop :=
  forall v, get_set k (after c v) = get_set k v.

(** *** More sample inputs *)

(** A project under Subversion, with a credential and an execution
    environment, and no branch. *)
Definition sample_project : list (value * value) :=
  [(VStr "name", VStr "legacy");
   (VStr "scm_type", VStr "svn");
   (VStr "scm_url", VStr "https://svn.example/legacy");
   (VStr "credential", VStr "vault-cred");
   (VStr "default_environment", VStr "ee-default")].

(** An organization whose name is a list. *)
Definition list_named_organization : list (value * value) :=
  [(VStr "name", VList [VStr "a"; VStr "b"])].

(** A credential whose password is a number. *)
Definition numeric_password_inputs : list (value * value) :=
  [(VStr "password", VInt 12345)].

Definition numeric_password_credential : list (value * value) :=
  [(VStr "name", VStr "db");
   (VStr "credential_type", VStr "Machine");
   (VStr "organization", VStr "Default");
   (VStr "inputs", VDict numeric_password_inputs)].

(** Two inventories of the same name. *)
Definition lab_inventory : list (value * value) :=
  [(VStr "name", VStr "lab"); (VStr "organization", VStr "Default")].

Definition lab_inventory_again : list (value * value) :=
  [(VStr "name", VStr "lab")].

(** A credentials document with a key the validator does not know. *)
Definition no_credentials_and_more : list (value * value) :=
  [(VStr "controller_credentials", VList []); (VStr "owner", VStr "ops")].

Definition dev_validator : validator := new_validator repo "dev".

(** The nine kinds, in the order of [config_files]. *)
Definition entities : list entity :=
  [Organization; Team; Credential; ExecutionEnvironment; Project;
   Inventory; JobTemplate; WorkflowTemplate; Schedule].

(** The file of a kind. *)
Definition file_name (e : entity) : string :=
  match e with
  | Organization => "organizations.yml"
  | Team => "teams.yml"
  | Credential => "credentials.yml"
  | ExecutionEnvironment => "execution_environments.yml"
  | Project => "projects.yml"
  | Inventory => "inventories.yml"
  | JobTemplate => "job_templates.yml"
  | WorkflowTemplate => "workflow_templates.yml"
  | Schedule => "schedules.yml"
  end.

(** The file of a kind is missing, or decodes to a falsy document, or to a
    well-shaped one. *)
Definition file_ok (fs : filesystem) (dir : path) (e : entity) : bool :=
  match fs (path_str (path_div dir (file_name e))) with
  | NoEntry => true
  | File (Document c) => negb (truthy c) || config_ok e c
  | _ => false
  end.

(** The records the validator of a kind gets to see in a directory. *)
Definition records_in (fs : filesystem) (dir : path) (e : entity) : list value :=
  match fs (path_str (path_div dir (file_name e))) with
  | File (Document c) =>
      if truthy c then
        match records_of e c with
        | Some items => items
        | None => []
        end
      else []
  | _ => []
  end.

(** The errors of all the records of the kinds [l] in a directory. *)
Definition errors_in (fs : filesystem) (dir : path) (l : list entity) : list string :=
  flat_map (fun e => flat_map (errors_of e) (records_in fs dir e)) l.

(* ===================================================================== *)
(** ** Basic facts: the record, the lists, the sets *)
(* ===================================================================== *)

Section RecordFacts.
Variables (e w i : list string) (k : name_set) (s : pyset) (v : validator).

Lemma errors_grow : errors (grow e w i v) = errors v ++ e.
Proof. destruct v; reflexivity. Qed.

Lemma warnings_grow : warnings (grow e w i v) = warnings v ++ w.
Proof. destruct v; reflexivity. Qed.

Lemma info_grow : info (grow e w i v) = info v ++ i.
Proof. destruct v; reflexivity. Qed.

Lemma environment_grow : environment (grow e w i v) = environment v.
Proof. destruct v; reflexivity. Qed.

Lemma base_path_grow : base_path (grow e w i v) = base_path v.
Proof. destruct v; reflexivity. Qed.

Lemma get_set_grow : get_set k (grow e w i v) = get_set k v.
Proof. destruct v, k; reflexivity. Qed.

Lemma errors_put_set : errors (put_set k s v) = errors v.
Proof. destruct v, k; reflexivity. Qed.

Lemma warnings_put_set : warnings (put_set k s v) = warnings v.
Proof. destruct v, k; reflexivity. Qed.

Lemma info_put_set : info (put_set k s v) = info v.
Proof. destruct v, k; reflexivity. Qed.

Lemma environment_put_set : environment (put_set k s v) = environment v.
Proof. destruct v, k; reflexivity. Qed.

Lemma base_path_put_set : base_path (put_set k s v) = base_path v.
Proof. destruct v, k; reflexivity. Qed.

Lemma get_put_set (k' : name_set) :
  get_set k' (put_set k s v) = if name_set_eq_dec k' k then s else get_set k' v.
Proof. destruct v, k, k'; reflexivity. Qed.

Lemma put_set_grow : put_set k s (grow e w i v) = grow e w i (put_set k s v).
Proof. destruct v, k; reflexivity. Qed.
End RecordFacts.

Lemma grow_nil (v : validator) : grow [] [] [] v = v.
Proof. destruct v; unfold grow; simpl. rewrite !app_nil_r. reflexivity. Qed.

Lemma grow_grow (e1 w1 i1 e2 w2 i2 : list string) (v : validator) :
  grow e2 w2 i2 (grow e1 w1 i1 v) = grow (e1 ++ e2) (w1 ++ w2) (i1 ++ i2) v.
Proof. destruct v; unfold grow; simpl. rewrite !app_assoc. reflexivity. Qed.

Lemma put_set_same (k : name_set) (v : validator) : put_set k (get_set k v) v = v.
Proof. destruct v, k; reflexivity. Qed.

Create Rewrite HintDb proj.
#[local] Hint Rewrite errors_grow warnings_grow info_grow environment_grow
  base_path_grow get_set_grow errors_put_set warnings_put_set info_put_set
  environment_put_set base_path_put_set get_put_set : proj.

Ltac proj := autorewrite with proj in *; rewrite ?app_nil_r in *.

(** *** Prefixes *)

Lemma prefix_of_refl {A : Type} (l : list A) : prefix_of l l.
Proof. exists []. now rewrite app_nil_r. Qed.

Lemma prefix_of_app {A : Type} (l t : list A) : prefix_of l (l ++ t).
Proof. now exists t. Qed.

Lemma prefix_of_trans {A : Type} (l1 l2 l3 : list A) :
  prefix_of l1 l2 -> prefix_of l2 l3 -> prefix_of l1 l3.
Proof.
  intros [t1 ->] [t2 ->]. exists (t1 ++ t2). now rewrite app_assoc.
Qed.

Lemma prefix_of_In {A : Type} (l l' : list A) (x : A) :
  prefix_of l l' -> In x l -> In x l'.
Proof. intros [t ->] H. apply in_or_app. now left. Qed.

Lemma prefix_of_set_add (x : value) (s : pyset) : prefix_of s (set_add x s).
Proof.
  unfold set_add. destruct (set_mem x s).
  - apply prefix_of_refl.
  - apply prefix_of_app.
Qed.

(** *** Membership in a set *)

Lemma set_mem_app (x : value) (s t : pyset) :
  set_mem x (s ++ t) = set_mem x s || set_mem x t.
Proof. apply existsb_app. Qed.

Lemma set_mem_prefix (x : value) (s s' : pyset) :
  prefix_of s s' -> set_mem x s = true -> set_mem x s' = true.
Proof. intros [t ->] H. rewrite set_mem_app, H. reflexivity. Qed.

Lemma eqv_refl (x : value) : hashable x = true -> eqv x x = true.
Proof.
  destruct x as [ | b | z | s | | ]; simpl; intros H; try discriminate; auto.
  - now destruct b.
  - apply Z.eqb_refl.
  - apply String.eqb_refl.
Qed.

Lemma eqv_canon (x y : value) :
  hashable x = true -> hashable y = true ->
  eqv x y = true <-> canon x = canon y.
Proof.
  destruct x as [ | a | a | a | | ], y as [ | b | b | b | | ]; simpl;
    intros Hx Hy; try discriminate; split; intros H;
    try discriminate; try reflexivity.
  - destruct a, b; simpl in *; congruence.
  - destruct a, b; reflexivity || discriminate.
  - apply Z.eqb_eq in H. now subst.
  - injection H as H. now apply Z.eqb_eq.
  - apply Z.eqb_eq in H. now subst.
  - injection H as H. now apply Z.eqb_eq.
  - apply Z.eqb_eq in H. now subst.
  - injection H as H. now apply Z.eqb_eq.
  - apply String.eqb_eq in H. now subst.
  - injection H as H. now apply String.eqb_eq.
Qed.

Lemma set_mem_canon (x : value) (s : pyset) :
  hashable x = true -> Forall (fun y => hashable y = true) s ->
  set_mem x s = true <-> In (canon x) (map canon s).
Proof.
  intros Hx Hs. unfold set_mem. rewrite existsb_exists, in_map_iff. split.
  - intros (y & Hy & E). exists y. split; [|assumption].
    symmetry. apply eqv_canon; auto.
    rewrite Forall_forall in Hs. auto.
  - intros (y & E & Hy). exists y. split; [assumption|].
    apply eqv_canon; auto.
    rewrite Forall_forall in Hs. auto.
Qed.

Lemma set_mem_add_same (x : value) (s : pyset) :
  hashable x = true -> set_mem x (set_add x s) = true.
Proof.
  intros H. unfold set_add. destruct (set_mem x s) eqn:E; [assumption|].
  rewrite set_mem_app. simpl. rewrite (eqv_refl x H). now rewrite orb_true_r.
Qed.

Lemma wf_set_nil : wf_set [].
Proof. split; constructor. Qed.

Lemma wf_set_add (x : value) (s : pyset) :
  hashable x = true -> wf_set s -> wf_set (set_add x s).
Proof.
  intros Hx [Hh Hn]. unfold set_add. destruct (set_mem x s) eqn:E.
  - now split.
  - split.
    + apply Forall_app. split; [assumption|]. now constructor.
    + rewrite map_app. simpl.
      apply NoDup_app.
      * assumption.
      * constructor; [intros []|constructor].
      * intros y Hy [<-|[]].
        apply (set_mem_canon x s Hx Hh) in Hy. congruence.
Qed.

(* ===================================================================== *)
(** ** Every method only appends and adds *)
(* ===================================================================== *)

Lemma extends_refl (v : validator) : extends v v.
Proof. constructor; intros; auto using prefix_of_refl. Qed.

Lemma extends_trans (v1 v2 v3 : validator) :
  extends v1 v2 -> extends v2 v3 -> extends v1 v3.
Proof.
  intros [b1 e1 er1 w1 i1 s1 f1] [b2 e2 er2 w2 i2 s2 f2]. constructor;
    try congruence; eauto using prefix_of_trans.
Qed.

Lemma extends_grow (e w i : list string) (v : validator) : extends v (grow e w i v).
Proof.
  constructor; intros; proj; auto using prefix_of_app, prefix_of_refl.
  intros k. proj. auto.
Qed.

Lemma extends_add (k : name_set) (x : value) (v : validator) :
  hashable x = true ->
  extends v (put_set k (set_add x (get_set k v)) v).
Proof.
  intros Hx. constructor; intros; proj; auto using prefix_of_refl.
  - destruct (name_set_eq_dec k0 k) as [->|];
      auto using prefix_of_refl, prefix_of_set_add.
  - intros k'. proj.
    destruct (name_set_eq_dec k' k) as [->|]; auto using wf_set_add.
Qed.

Section Monotone.
Context {A B : Type}.

Lemma monotone_ret (a : A) : monotone (ret a).
Proof. intros v. apply extends_refl. Qed.

Lemma monotone_raise (e : exn) : monotone (@raise A e).
Proof. intros v. apply extends_refl. Qed.

Lemma monotone_lift (o : outcome A) : monotone (lift o).
Proof. intros v. apply extends_refl. Qed.

Lemma monotone_bind (c : M A) (k : A -> M B) :
  monotone c -> (forall a, monotone (k a)) -> monotone (bind c k).
Proof.
  intros Hc Hk v. unfold after, bind. specialize (Hc v). unfold after in Hc.
  destruct (c v) as [[a|e] v1]; simpl in *; [|assumption].
  eapply extends_trans; [eassumption|]. apply Hk.
Qed.

End Monotone.

Lemma monotone_for_each {A : Type} (body : A -> M unit) (items : list A) :
  (forall x, monotone (body x)) -> monotone (for_each body items).
Proof.
  intros Hb. induction items as [|x rest IH]; simpl.
  - intros v. apply extends_refl.
  - apply monotone_bind; auto.
Qed.

Lemma monotone_self : monotone self.
Proof. intros v. apply extends_refl. Qed.

Lemma monotone_when (b : bool) (body : M unit) : monotone body -> monotone (when b body).
Proof. intros H. destruct b; simpl; [assumption|apply monotone_ret]. Qed.

Lemma append_error_grow (m : string) (v : validator) :
  append_error m v = (Returned tt, grow [m] [] [] v).
Proof. destruct v; unfold append_error, grow; simpl. now rewrite !app_nil_r. Qed.

Lemma append_warning_grow (m : string) (v : validator) :
  append_warning m v = (Returned tt, grow [] [m] [] v).
Proof. destruct v; unfold append_warning, grow; simpl. now rewrite !app_nil_r. Qed.

Lemma append_info_grow (m : string) (v : validator) :
  append_info m v = (Returned tt, grow [] [] [m] v).
Proof. destruct v; unfold append_info, grow; simpl. now rewrite !app_nil_r. Qed.

Lemma monotone_append_error (m : string) : monotone (append_error m).
Proof. intros v. unfold after. rewrite append_error_grow. apply extends_grow. Qed.

Lemma monotone_append_warning (m : string) : monotone (append_warning m).
Proof. intros v. unfold after. rewrite append_warning_grow. apply extends_grow. Qed.

Lemma monotone_append_info (m : string) : monotone (append_info m).
Proof. intros v. unfold after. rewrite append_info_grow. apply extends_grow. Qed.

Lemma monotone_add_name (k : name_set) (x : value) : monotone (add_name k x).
Proof.
  intros v. unfold after, add_name. destruct (hashable x) eqn:Hx; simpl.
  - now apply extends_add.
  - apply extends_refl.
Qed.

Lemma monotone_config_get (key : string) (config : value) :
  monotone (config_get key config).
Proof. destruct config; simpl; apply monotone_ret || apply monotone_raise. Qed.

Create HintDb mono.
#[local] Hint Resolve monotone_ret monotone_raise monotone_lift monotone_self
  monotone_append_error monotone_append_warning monotone_append_info
  monotone_add_name monotone_config_get : mono.

(** Walks down a method body: binds, loops, conditionals and the matches on
    the shape of a value. *)
Ltac mono :=
  repeat first
    [ progress (auto with mono)
    | match goal with
      | |- monotone (bind _ _) => apply monotone_bind; [|intros ?]
      | |- monotone (when _ _) => apply monotone_when
      | |- monotone (for_each _ _) => apply monotone_for_each; intros ?
      | |- monotone (match ?x with _ => _ end) => destruct x
      | |- monotone (if ?x then _ else _) => destruct x
      end ].

Lemma monotone_check_organization (r : value) : monotone (check_organization r).
Proof. unfold check_organization. mono. Qed.

Lemma monotone_check_team (r : value) : monotone (check_team r).
Proof. unfold check_team. mono. Qed.

Lemma monotone_check_sensitive_field (name inputs : value) (field : string) :
  monotone (check_sensitive_field name inputs field).
Proof. unfold check_sensitive_field. mono. Qed.

#[local] Hint Resolve monotone_check_sensitive_field : mono.

Lemma monotone_check_credential (r : value) : monotone (check_credential r).
Proof.
  unfold check_credential. mono.
Qed.

Lemma monotone_check_execution_environment (r : value) :
  monotone (check_execution_environment r).
Proof. unfold check_execution_environment. mono. Qed.

Lemma monotone_check_project (r : value) : monotone (check_project r).
Proof. unfold check_project. mono. Qed.

Lemma monotone_check_inventory (r : value) : monotone (check_inventory r).
Proof. unfold check_inventory. mono. Qed.

Lemma monotone_note_template_credential (c : value) :
  monotone (note_template_credential c).
Proof. unfold note_template_credential. mono. Qed.

#[local] Hint Resolve monotone_note_template_credential : mono.

Lemma monotone_check_job_template (r : value) : monotone (check_job_template r).
Proof.
  unfold check_job_template. mono.
Qed.

Lemma monotone_check_workflow_template (r : value) :
  monotone (check_workflow_template r).
Proof. unfold check_workflow_template. mono. Qed.

Lemma monotone_check_schedule (r : value) : monotone (check_schedule r).
Proof. unfold check_schedule. mono. Qed.

#[local] Hint Resolve monotone_check_organization monotone_check_team
  monotone_check_credential monotone_check_execution_environment
  monotone_check_project monotone_check_inventory monotone_check_job_template
  monotone_check_workflow_template monotone_check_schedule : mono.

Lemma monotone_validate_organizations (c : value) : monotone (validate_organizations c).
Proof. unfold validate_organizations. mono. Qed.

Lemma monotone_validate_teams (c : value) : monotone (validate_teams c).
Proof. unfold validate_teams. mono. Qed.

Lemma monotone_validate_credentials (c : value) : monotone (validate_credentials c).
Proof. unfold validate_credentials. mono. Qed.

Lemma monotone_validate_execution_environments (c : value) :
  monotone (validate_execution_environments c).
Proof. unfold validate_execution_environments. mono. Qed.

Lemma monotone_validate_projects (c : value) : monotone (validate_projects c).
Proof. unfold validate_projects. mono. Qed.

Lemma monotone_validate_inventories (c : value) : monotone (validate_inventories c).
Proof. unfold validate_inventories. mono. Qed.

Lemma monotone_validate_job_templates (c : value) : monotone (validate_job_templates c).
Proof. unfold validate_job_templates. mono. Qed.

Lemma monotone_validate_workflow_templates (c : value) :
  monotone (validate_workflow_templates c).
Proof. unfold validate_workflow_templates. mono. Qed.

Lemma monotone_validate_schedules (c : value) : monotone (validate_schedules c).
Proof. unfold validate_schedules. mono. Qed.

Lemma monotone_check_references (k : ref_kind) : monotone (check_references k).
Proof.
  unfold check_references. apply monotone_bind; [mono|].
  intros a. cbv zeta. destruct (undefined_names k a); mono.
Qed.

Lemma monotone_validate_references : monotone validate_references.
Proof.
  unfold validate_references.
  repeat (apply monotone_bind; [apply monotone_check_references|intros _]).
  apply monotone_check_references.
Qed.

#[local] Hint Resolve monotone_validate_references : mono.

Lemma monotone_load_yaml_file (fs : filesystem) (p : path) :
  monotone (load_yaml_file fs p).
Proof. unfold load_yaml_file. mono. Qed.

Lemma monotone_config_entry (entry : string * (value -> M unit)) (c : value) :
  In entry config_files -> monotone (snd entry c).
Proof.
  unfold config_files. simpl.
  intros H; repeat (destruct H as [<-|H]; [simpl|]); try contradiction;
    auto using monotone_validate_organizations, monotone_validate_teams,
      monotone_validate_credentials, monotone_validate_execution_environments,
      monotone_validate_projects, monotone_validate_inventories,
      monotone_validate_job_templates, monotone_validate_workflow_templates,
      monotone_validate_schedules.
Qed.

Lemma monotone_validate_config_file (fs : filesystem) (dir : path)
    (entry : string * (value -> M unit)) :
  In entry config_files -> monotone (validate_config_file fs dir entry).
Proof.
  intros H. unfold validate_config_file.
  destruct (path_exists fs _); [|apply monotone_ret].
  apply monotone_bind; [apply monotone_load_yaml_file|].
  intros c. apply monotone_when. now apply monotone_config_entry.
Qed.

Lemma monotone_for_each_in {A : Type} (body : A -> M unit) (items : list A) :
  (forall x, In x items -> monotone (body x)) -> monotone (for_each body items).
Proof.
  induction items as [|x rest IH]; simpl; intros Hb.
  - intros v. apply extends_refl.
  - apply monotone_bind; [apply Hb; now left|].
    intros _. apply IH. intros y Hy. apply Hb. now right.
Qed.

Lemma monotone_validate_config_files (fs : filesystem) (dir : path) :
  monotone (validate_config_files fs dir).
Proof.
  unfold validate_config_files. apply monotone_for_each_in.
  intros entry. apply monotone_validate_config_file.
Qed.

Lemma monotone_validate_environment (fs : filesystem) (env : string) :
  monotone (validate_environment fs env).
Proof.
  unfold validate_environment.
  apply monotone_bind; [apply monotone_self|]. intros a. cbv zeta.
  destruct (negb _); mono.
  apply monotone_validate_config_files.
Qed.

Lemma monotone_print_results : monotone print_results.
Proof. unfold print_results. mono. Qed.

(* ===================================================================== *)
(** ** Stepping through a method body *)
(* ===================================================================== *)

Section Triples.
Context {A : Type} (R : Prop).

Lemma triple_ret (a : A) (v : validator) (Q : A -> validator -> Prop) :
  Q a v -> triple R (ret a) v Q.
Proof. intros H. exact H. Qed.

Lemma triple_lift (o : outcome A) (a : A) (v : validator)
    (Q : A -> validator -> Prop) :
  o = Returned a -> Q a v -> triple R (lift o) v Q.
Proof. intros -> H. exact H. Qed.

Lemma triple_weaken (c : M A) (v : validator) (Q Q' : A -> validator -> Prop) :
  triple R c v Q -> (forall a v', Q a v' -> Q' a v') -> triple R c v Q'.
Proof.
  unfold triple. destruct (c v) as [[a|e] v']; auto.
Qed.

Lemma triple_returned (c : M A) (v v' : validator) (a : A)
    (Q : A -> validator -> Prop) :
  triple R c v Q -> c v = (Returned a, v') -> Q a v'.
Proof. unfold triple. intros H E. now rewrite E in H. Qed.

Lemma triple_of_eq (c : M A) (v v' : validator) (a : A)
    (Q : A -> validator -> Prop) :
  c v = (Returned a, v') -> Q a v' -> triple R c v Q.
Proof. unfold triple. intros -> H. exact H. Qed.
End Triples.

Lemma triple_bind {A B : Type} (R : Prop) (c : M A) (k : A -> M B)
    (v : validator) (Q : B -> validator -> Prop) :
  triple R c v (fun a v1 => triple R (k a) v1 Q) -> triple R (bind c k) v Q.
Proof.
  unfold triple, bind. destruct (c v) as [[a|e] v1]; auto.
Qed.

Lemma triple_total {A : Type} (c : M A) (v : validator)
    (Q : A -> validator -> Prop) :
  triple False c v Q -> exists a v', c v = (Returned a, v') /\ Q a v'.
Proof.
  unfold triple. destruct (c v) as [[a|e] v']; [eauto|contradiction].
Qed.

Lemma triple_self (R : Prop) (v : validator) (Q : validator -> validator -> Prop) :
  Q v v -> triple R self v Q.
Proof. intros H. exact H. Qed.

Lemma triple_when (R : Prop) (b : bool) (body : M unit) (v : validator)
    (Q : unit -> validator -> Prop) :
  (b = true -> triple R body v Q) -> (b = false -> Q tt v) ->
  triple R (when b body) v Q.
Proof. destruct b; intros H1 H2; [apply H1|apply H2]; reflexivity. Qed.

Lemma triple_append_error (R : Prop) (m : string) (v : validator)
    (Q : unit -> validator -> Prop) :
  Q tt (grow [m] [] [] v) -> triple R (append_error m) v Q.
Proof. unfold triple. now rewrite append_error_grow. Qed.

Lemma triple_append_warning (R : Prop) (m : string) (v : validator)
    (Q : unit -> validator -> Prop) :
  Q tt (grow [] [m] [] v) -> triple R (append_warning m) v Q.
Proof. unfold triple. now rewrite append_warning_grow. Qed.

Lemma triple_append_info (R : Prop) (m : string) (v : validator)
    (Q : unit -> validator -> Prop) :
  Q tt (grow [] [] [m] v) -> triple R (append_info m) v Q.
Proof. unfold triple. now rewrite append_info_grow. Qed.

(** A guarded append, without a case split: it appends one item or none. *)
Lemma triple_when_error (R : Prop) (b : bool) (m : string) (v : validator)
    (Q : unit -> validator -> Prop) :
  Q tt (grow (if b then [m] else []) [] [] v) ->
  triple R (when b (append_error m)) v Q.
Proof.
  destruct b; simpl.
  - apply triple_append_error.
  - now rewrite grow_nil.
Qed.

Lemma triple_when_warning (R : Prop) (b : bool) (m : string) (v : validator)
    (Q : unit -> validator -> Prop) :
  Q tt (grow [] (if b then [m] else []) [] v) ->
  triple R (when b (append_warning m)) v Q.
Proof.
  destruct b; simpl.
  - apply triple_append_warning.
  - now rewrite grow_nil.
Qed.

Lemma triple_when_info (R : Prop) (b : bool) (m : string) (v : validator)
    (Q : unit -> validator -> Prop) :
  Q tt (grow [] [] (if b then [m] else []) v) ->
  triple R (when b (append_info m)) v Q.
Proof.
  destruct b; simpl.
  - apply triple_append_info.
  - now rewrite grow_nil.
Qed.

Lemma triple_add_name (R : Prop) (k : name_set) (x : value) (v : validator)
    (Q : unit -> validator -> Prop) :
  (hashable x = true -> Q tt (put_set k (set_add x (get_set k v)) v)) ->
  (hashable x = false -> R) ->
  triple R (add_name k x) v Q.
Proof.
  unfold triple, add_name. destruct (hashable x); auto.
Qed.

(** A loop keeps what every turn keeps. *)
Lemma triple_for_each {A : Type} (R : Prop) (body : A -> M unit) (items : list A)
    (Inv : validator -> Prop) (v : validator) :
  Inv v ->
  (forall x v1, In x items -> Inv v1 -> triple R (body x) v1 (fun _ v2 => Inv v2)) ->
  triple R (for_each body items) v (fun _ v' => Inv v').
Proof.
  revert v. induction items as [|x rest IH]; intros v Hv Hb; simpl.
  - exact Hv.
  - apply triple_bind. eapply triple_weaken.
    + apply Hb; [now left|exact Hv].
    + intros a v1 H1. apply IH; [exact H1|].
      intros y v2 Hy. apply Hb. now right.
Qed.

(** Every turn of a loop that returned has returned, from a validator that
    extends the one the loop started from, into one the final validator
    extends. *)
Lemma for_each_turn {A : Type} (body : A -> M unit) (items : list A)
    (v v' : validator) (x : A) :
  (forall y, monotone (body y)) ->
  for_each body items v = (Returned tt, v') -> In x items ->
  exists v1 v2, extends v v1 /\ body x v1 = (Returned tt, v2) /\ extends v2 v'.
Proof.
  intros Hm. revert v. induction items as [|y rest IH]; intros v E Hx.
  - contradiction.
  - simpl in E. unfold bind in E.
    destruct (body y v) as [[[]|e] v1] eqn:Ey; [|discriminate].
    assert (Hyv : extends v v1).
    { specialize (Hm y v). unfold after in Hm. now rewrite Ey in Hm. }
    assert (Hrest : extends v1 v').
    { pose proof (monotone_for_each body rest Hm v1) as H.
      unfold after in H. now rewrite E in H. }
    destruct Hx as [->|Hx].
    + exists v, v1. auto using extends_refl.
    + destruct (IH v1 E Hx) as (va & vb & H1 & H2 & H3).
      exists va, vb. eauto using extends_trans.
Qed.

(* ===================================================================== *)
(** ** Texts of messages *)
(* ===================================================================== *)

Lemma append_inj_l (s a b : string) : s +:+ a = s +:+ b -> a = b.
Proof.
  induction s as [|c s IH]; simpl; intros H; [assumption|].
  injection H as H. auto.
Qed.

Lemma length_append (a b : string) :
  String.length (a +:+ b) = String.length a + String.length b.
Proof. induction a as [|c a IH]; simpl; [reflexivity|now rewrite IH]. Qed.

Lemma append_inj_r (a b t : string) : a +:+ t = b +:+ t -> a = b.
Proof.
  revert b. induction a as [|c a IH]; intros [|c' b] H; simpl in H.
  - reflexivity.
  - apply (f_equal String.length) in H. simpl in H.
    rewrite length_append in H. lia.
  - apply (f_equal String.length) in H. simpl in H.
    rewrite length_append in H. lia.
  - injection H as -> H. f_equal. auto.
Qed.

(** Two messages that open alike: strip what they share, then the rests
    differ on a literal character. *)
Ltac strip_common H :=
  repeat (apply append_inj_l in H); simpl in H.

Ltac differ H := strip_common H; discriminate H.

(* ===================================================================== *)
(** ** Credentials *)
(* ===================================================================== *)

Lemma check_sensitive_field_exact (name : value) (ins : list (value * value))
    (field : string) (v : validator) :
  check_sensitive_field name (VDict ins) field v
  = (Returned tt, grow (field_findings name ins field) [] [] v).
Proof.
  unfold check_sensitive_field, field_findings, bind, lift, contains, getitem, dict_has.
  destruct (dict_get field ins) as [raw|].
  - destruct (negb (startswith (str raw) "{{ ") && negb (startswith (str raw) "!vault")).
    + apply append_error_grow.
    + simpl. now rewrite grow_nil.
  - unfold ret. now rewrite grow_nil.
Qed.

Lemma sensitive_loop_exact (name : value) (ins : list (value * value))
    (fields : list string) (v : validator) :
  for_each (check_sensitive_field name (VDict ins)) fields v
  = (Returned tt, grow (flat_map (field_findings name ins) fields) [] [] v).
Proof.
  revert v. induction fields as [|f rest IH]; intros v; simpl.
  - unfold ret. now rewrite grow_nil.
  - unfold bind. rewrite check_sensitive_field_exact, IH, grow_grow. reflexivity.
Qed.

(** A credential record with a hashable name and a mapping under [inputs]:
    what [check_credential] leaves behind. *)
Lemma check_credential_exact (d ins : list (value * value)) (v : validator) :
  hashable (name_of d) = true ->
  dict_get_or "inputs" (VDict []) d = VDict ins ->
  check_credential (VDict d) v
  = (Returned tt,
     grow (credential_errors d ins) [] []
       (put_set DefinedCredentials
          (set_add (name_of d) (defined_credentials v)) v)).
Proof.
  intros Hn Hi.
  assert (T : triple False (check_credential (VDict d)) v
                (fun _ v' => v' = grow (credential_errors d ins) [] []
                   (put_set DefinedCredentials
                      (set_add (name_of d) (defined_credentials v)) v))).
  { unfold check_credential.
    apply triple_bind, triple_add_name; [intros _|congruence].
    apply triple_bind, triple_when_error.
    apply triple_bind, triple_when_error.
    apply triple_bind, triple_when_error.
    rewrite Hi. eapply triple_of_eq; [apply sensitive_loop_exact|].
    rewrite !grow_grow. reflexivity. }
  apply triple_total in T. destruct T as ([] & v' & E & ->). exact E.
Qed.

Lemma unencrypted_message_inj (name : value) (f f' : string) :
  unencrypted_message name f = unencrypted_message name f' -> f = f'.
Proof.
  unfold unencrypted_message. intros H.
  do 3 apply append_inj_l in H. now apply append_inj_r in H.
Qed.

Lemma in_field_findings (name : value) (ins : list (value * value))
    (f : string) (m : string) :
  In m (field_findings name ins f) -> m = unencrypted_message name f.
Proof.
  unfold field_findings. destruct (dict_get f ins) as [raw|]; [|intros []].
  destruct (_ && _); [|intros []]. intros [<-|[]]. reflexivity.
Qed.

Lemma unencrypted_in_credential_errors (d ins : list (value * value))
    (field : string) :
  In field sensitive_fields ->
  In (unencrypted_message (name_of d) field) (credential_errors d ins)
  <-> In (unencrypted_message (name_of d) field)
         (field_findings (name_of d) ins field).
Proof.
  intros Hf. unfold credential_errors. rewrite !in_app_iff, in_flat_map. split.
  - intros [H|[H|[H|(f' & Hf' & H)]]].
    + destruct (negb (dict_has "name" d)); [|destruct H].
      destruct H as [H|[]]. unfold unencrypted_message in H. differ H.
    + destruct (negb (dict_has "credential_type" d)); [|destruct H].
      destruct H as [H|[]]. unfold unencrypted_message in H. differ H.
    + destruct (negb (dict_has "organization" d)); [|destruct H].
      destruct H as [H|[]]. unfold unencrypted_message in H. differ H.
    + pose proof (in_field_findings _ _ _ _ H) as E.
      apply unencrypted_message_inj in E. now subst f'.
  - intros H. right. right. right. exists field. auto.
Qed.

(** C1.  A credential record (its name hashable, a mapping under
    [inputs]) that carries one of the sensitive fields: the record is
    processed without an exception, and the errors it appends hold the
    unencrypted-secret finding of that field if and only if the stringified
    value starts neither with the lookup marker nor with the vault marker.
    A value that starts with either marker yields no finding for the
    field. *)
Theorem credential_plaintext_iff :
  forall (d ins : list (value * value)) (field : string) (raw : value)
         (v : validator),
    hashable (name_of d) = true ->
    dict_get_or "inputs" (VDict []) d = VDict ins ->
    In field sensitive_fields ->
    dict_get field ins = Some raw ->
    exists v' appended,
      check_credential (VDict d) v = (Returned tt, v') /\
      errors v' = errors v ++ appended /\
      warnings v' = warnings v /\
      (In (unencrypted_message (name_of d) field) appended
       <-> startswith (str raw) "{{ " = false
           /\ startswith (str raw) "!vault" = false).
Proof.
  intros d ins field raw v Hn Hi Hf Hraw.
  eexists. exists (credential_errors d ins). split; [|split; [|split]].
  - exact (check_credential_exact d ins v Hn Hi).
  - proj. reflexivity.
  - proj. reflexivity.
  - rewrite unencrypted_in_credential_errors by assumption.
    unfold field_findings. rewrite Hraw.
    destruct (startswith (str raw) "{{ "), (startswith (str raw) "!vault");
      simpl; split; intros H; try tauto; try (now left);
      destruct H; discriminate.
Qed.

(* ===================================================================== *)
(** ** Execution environments *)
(* ===================================================================== *)

(** Symbolic execution of one statement of a method body. *)
Ltac step :=
  lazymatch goal with
  | |- triple _ (bind _ _) _ _ => apply triple_bind
  | |- triple _ (when _ (append_error _)) _ _ => apply triple_when_error
  | |- triple _ (when _ (append_warning _)) _ _ => apply triple_when_warning
  | |- triple _ (when _ (append_info _)) _ _ => apply triple_when_info
  | |- triple _ (append_error _) _ _ => apply triple_append_error
  | |- triple _ (append_warning _) _ _ => apply triple_append_warning
  | |- triple _ (append_info _) _ _ => apply triple_append_info
  | |- triple _ (add_name _ _) _ _ =>
      apply triple_add_name; [intros _|try congruence; try (intros; exact I)]
  | |- triple _ self _ _ => apply triple_self
  | |- triple _ (ret _) _ _ => apply triple_ret
  | |- triple _ (lift (Returned _)) _ _ => eapply triple_lift; [reflexivity|]
  end.

Lemma check_execution_environment_exact (d : list (value * value))
    (image : string) (v : validator) :
  hashable (name_of d) = true ->
  dict_get "image" d = Some (VStr image) ->
  check_execution_environment (VDict d) v
  = (Returned tt,
     grow (ee_errors d image) (ee_warnings (environment v) d image) []
       (put_set DefinedEes (set_add (name_of d) (defined_ees v)) v)).
Proof.
  intros Hn Hi.
  assert (T : triple False (check_execution_environment (VDict d)) v
                (fun _ v' => v' = grow (ee_errors d image)
                   (ee_warnings (environment v) d image) []
                   (put_set DefinedEes (set_add (name_of d) (defined_ees v)) v))).
  { unfold check_execution_environment. repeat step. rewrite Hi. simpl contains.
    repeat step. proj. repeat step.
    rewrite !grow_grow. unfold ee_errors, ee_warnings.
    cbn [app]. rewrite ?app_nil_r. reflexivity. }
  apply triple_total in T. destruct T as ([] & v' & E & ->). exact E.
Qed.

Lemma latest_in_ee_errors (d : list (value * value)) (image : string) :
  In (latest_message (name_of d)) (ee_errors d image)
  <-> str_contains ":latest" image = true.
Proof.
  unfold ee_errors. rewrite in_app_iff. split.
  - intros [H|H].
    + destruct (negb (dict_has "name" d)); [|destruct H].
      destruct H as [H|[]]. unfold latest_message in H. differ H.
    + destruct (str_contains ":latest" image); [reflexivity|destruct H].
  - intros ->. right. now left.
Qed.

Lemma digest_in_ee_warnings (env : string) (d : list (value * value))
    (image : string) :
  In (digest_message (name_of d)) (ee_warnings env d image)
  <-> str_contains "@sha256:" image = false /\ env = "prod".
Proof.
  unfold ee_warnings.
  destruct (str_contains "@sha256:" image); simpl.
  - split; [intros []|intros [H _]; discriminate].
  - destruct (String.eqb_spec env "prod") as [->|Hne]; simpl.
    + split; auto.
    + split; [intros []|intros [_ H]; contradiction].
Qed.

(** C4.  An execution-environment record (its name hashable) whose [image]
    is a text: the record is processed without an exception; among the
    errors it appends is the 'latest' finding exactly when the text holds
    [:latest], whatever the active environment; among the warnings it
    appends is the digest finding exactly when the text lacks [@sha256:]
    and the active environment is [prod].  The two tests do not depend on
    each other, so a [prod] image with [:latest] and no digest gets both. *)
Theorem image_latest_and_digest_checks :
  forall (d : list (value * value)) (image : string) (v : validator),
    hashable (name_of d) = true ->
    dict_get "image" d = Some (VStr image) ->
    exists v' new_errors new_warnings,
      check_execution_environment (VDict d) v = (Returned tt, v') /\
      errors v' = errors v ++ new_errors /\
      warnings v' = warnings v ++ new_warnings /\
      (In (latest_message (name_of d)) new_errors
       <-> str_contains ":latest" image = true) /\
      (In (digest_message (name_of d)) new_warnings
       <-> str_contains "@sha256:" image = false /\ environment v = "prod").
Proof.
  intros d image v Hn Hi.
  eexists. exists (ee_errors d image), (ee_warnings (environment v) d image).
  split; [exact (check_execution_environment_exact d image v Hn Hi)|].
  proj. split; [reflexivity|]. split; [reflexivity|]. split.
  - apply latest_in_ee_errors.
  - apply digest_in_ee_warnings.
Qed.

(* ===================================================================== *)
(** ** Records without a name *)
(* ===================================================================== *)

Lemma after_bind {A B : Type} (c : M A) (k : A -> M B) (v v1 : validator) (a : A) :
  c v = (Returned a, v1) -> after (bind c k) v = after (k a) v1.
Proof. intros E. unfold after, bind. now rewrite E. Qed.

Lemma name_of_missing (d : list (value * value)) :
  dict_has "name" d = false -> name_of d = VStr "unnamed".
Proof.
  unfold dict_has, name_of, dict_get_or.
  destruct (dict_get "name" d); [discriminate|reflexivity].
Qed.

Lemma add_name_returned (k : name_set) (x : value) (v : validator) :
  hashable x = true ->
  add_name k x v = (Returned tt, put_set k (set_add x (get_set k v)) v).
Proof. intros H. unfold add_name. now rewrite H. Qed.

(** What a record that lacks [name] has got once its first two statements
    have run stays there, whatever the rest of the body does. *)
Lemma unnamed_kept (rest : M unit) (v0 v : validator) (m : string) :
  monotone rest -> In m (errors v0) ->
  In m (errors (after rest v0)) /\
  forall k, set_mem (VStr "unnamed") (get_set k v0) = true ->
            set_mem (VStr "unnamed") (get_set k (after rest v0)) = true.
Proof.
  intros Hm Hin. destruct (Hm v0) as [_ _ He _ _ Hs]. split.
  - eapply prefix_of_In; eassumption.
  - intros k. apply set_mem_prefix, Hs.
Qed.

Ltac unnamed_defined m :=
  erewrite after_bind by (apply add_name_returned; reflexivity);
  erewrite after_bind by (apply append_error_grow);
  match goal with
  | |- context [after ?rest ?v0] =>
      destruct (unnamed_kept rest v0 v0 m) as [He Hs];
      [mono | proj; apply in_or_app; right; now left |];
      split; [exact He|];
      intros k [= <-]; apply Hs; proj; simpl;
      apply set_mem_add_same; reflexivity
  end.

Ltac unnamed_reported m :=
  erewrite after_bind by (apply append_error_grow);
  match goal with
  | |- context [after ?rest ?v0] =>
      destruct (unnamed_kept rest v0 v0 m) as [He Hs];
      [mono | proj; apply in_or_app; right; now left |];
      split; [exact He|]; intros k [=]
  end.

(** C6, as the code has it.  A record that lacks [name] gets the
    placeholder ['unnamed'] as its name; the missing-name error of its kind
    is appended; and for the six kinds that keep a set of defined names the
    placeholder is added to that set.  All of it holds on the validator the
    record leaves behind, also when a later statement of the body raises. *)
Theorem unnamed_placeholder_is_defined :
  forall (e : entity) (d : list (value * value)) (v : validator),
    dict_has "name" d = false ->
    name_of d = VStr "unnamed" /\
    In (missing_name_message e) (errors (after (checker e (VDict d)) v)) /\
    (forall k, defined_set e = Some k ->
       set_mem (VStr "unnamed") (get_set k (after (checker e (VDict d)) v)) = true).
Proof.
  intros e d v H. pose proof (name_of_missing d H) as Hn.
  split; [exact Hn|].
  destruct e; simpl checker; simpl missing_name_message; simpl defined_set;
    cbv beta delta [check_organization check_team check_credential
      check_execution_environment check_project check_inventory
      check_job_template check_workflow_template check_schedule] iota zeta;
    rewrite Hn, H; simpl negb; simpl when.
  - unnamed_defined "Organization missing 'name' field".
  - unnamed_defined "Team missing 'name' field".
  - unnamed_defined "Credential missing 'name' field".
  - unnamed_defined "Execution Environment missing 'name' field".
  - unnamed_defined "Project missing 'name' field".
  - unnamed_defined "Inventory missing 'name' field".
  - unnamed_reported "Job Template missing 'name' field".
  - unnamed_reported "Workflow Template missing 'name' field".
  - unnamed_reported "Schedule missing 'name' field".
Qed.

(* ===================================================================== *)
(** ** Job templates *)
(* ===================================================================== *)

Lemma put_set_put_set (k : name_set) (s1 s2 : pyset) (v : validator) :
  put_set k s2 (put_set k s1 v) = put_set k s2 v.
Proof. destruct v, k; reflexivity. Qed.

Lemma note_template_credential_exact (c : value) (v : validator) :
  credential_ref_ok c = true ->
  exists s, note_template_credential c v
            = (Returned tt, put_set ReferencedCredentials s v).
Proof.
  intros H. destruct c as [ | b | z | t | l | cd ]; simpl;
    try (exists (referenced_credentials v); unfold ret;
         now rewrite (put_set_same ReferencedCredentials)).
  - eexists. apply add_name_returned. reflexivity.
  - simpl in H. destruct (dict_get "name" cd) as [n|].
    + eexists. apply add_name_returned. exact H.
    + exists (referenced_credentials v). unfold ret.
      now rewrite (put_set_same ReferencedCredentials).
Qed.

Lemma template_credentials_exact (items : list value) (v : validator) :
  forallb credential_ref_ok items = true ->
  exists s, for_each note_template_credential items v
            = (Returned tt, put_set ReferencedCredentials s v).
Proof.
  revert v. induction items as [|c rest IH]; intros v H; simpl in *.
  - exists (referenced_credentials v). unfold ret.
    now rewrite (put_set_same ReferencedCredentials).
  - apply andb_true_iff in H. destruct H as [Hc Hr].
    destruct (note_template_credential_exact c v Hc) as [s1 E1].
    destruct (IH (put_set ReferencedCredentials s1 v) Hr) as [s2 E2].
    exists s2. unfold bind. rewrite E1, E2, put_set_put_set. reflexivity.
Qed.

Ltac creds_loop Hc :=
  lazymatch goal with
  | |- triple _ (for_each note_template_credential ?items) ?X _ =>
      let s := fresh "s" in
      let E := fresh "E" in
      destruct (template_credentials_exact items X Hc) as [s E];
      eapply triple_of_eq; [exact E|]
  end.

Lemma check_job_template_spec (d : list (value * value)) (v : validator) :
  job_template_ok d = true ->
  triple False (check_job_template (VDict d)) v
    (fun _ v' =>
       errors v' = errors v ++ job_template_errors d /\
       get_set ReferencedProjects v'
       = add_opt (dict_get "project" d) (get_set ReferencedProjects v) /\
       get_set ReferencedInventories v'
       = add_opt (dict_get "inventory" d) (get_set ReferencedInventories v)).
Proof.
  unfold job_template_ok, job_template_errors. intros Hok.
  apply andb_true_iff in Hok. destruct Hok as [Hok He].
  apply andb_true_iff in Hok. destruct Hok as [Hok Hc].
  apply andb_true_iff in Hok. destruct Hok as [Hp Hi].
  unfold check_job_template. do 3 step.
  destruct (dict_get "project" d) as [p|]; simpl in Hp; repeat step;
  (destruct (dict_get "inventory" d) as [i|]; simpl in Hi; repeat step);
  (destruct (dict_get "credentials" d) as [creds|];
   [ destruct (iter creds) as [items|]; [|discriminate];
     apply triple_bind; eapply triple_lift; [reflexivity|]; creds_loop Hc
   | step ]);
  apply triple_bind;
  (destruct (dict_get "execution_environment" d) as [ee|]; simpl in He;
   repeat step);
  (apply triple_when; [intros _; repeat step|intros _]);
  proj; simpl; rewrite ?app_nil_r, <- ?app_assoc; auto.
Qed.

Lemma missing_project_not_in (d : list (value * value)) (p : value) :
  dict_get "project" d = Some p ->
  ~ In (missing_project_message (name_of d)) (job_template_errors d).
Proof.
  intros Ep. unfold job_template_errors, missing_project_message.
  rewrite Ep, !in_app_iff. intros [H|[H|[H|H]]].
  - destruct (negb (dict_has "name" d)); [|destruct H].
    destruct H as [H|[]]. differ H.
  - destruct H.
  - destruct (dict_get "inventory" d); [destruct H|].
    destruct H as [H|[]]. unfold missing_inventory_message in H. differ H.
  - destruct (negb (dict_has "playbook" d)); [|destruct H].
    destruct H as [H|[]]. differ H.
Qed.

Lemma missing_inventory_not_in (d : list (value * value)) (i : value) :
  dict_get "inventory" d = Some i ->
  ~ In (missing_inventory_message (name_of d)) (job_template_errors d).
Proof.
  intros Ei. unfold job_template_errors, missing_inventory_message.
  rewrite Ei, !in_app_iff. intros [H|[H|[H|H]]].
  - destruct (negb (dict_has "name" d)); [|destruct H].
    destruct H as [H|[]]. differ H.
  - destruct (dict_get "project" d); [destruct H|].
    destruct H as [H|[]]. unfold missing_project_message in H. differ H.
  - destruct H.
  - destruct (negb (dict_has "playbook" d)); [|destruct H].
    destruct H as [H|[]]. differ H.
Qed.

(** C8.  A job-template record none of whose fields is of a shape that
    makes a statement raise: the record is processed without an exception.
    Without [project], the error naming the template is among the errors
    appended and the set of referenced projects is as before; with
    [project], its value is added to that set and no such error is
    appended.  Likewise for [inventory] and the referenced inventories. *)
Theorem job_template_project_inventory :
  forall (d : list (value * value)) (v : validator),
    job_template_ok d = true ->
    exists v' appended,
      check_job_template (VDict d) v = (Returned tt, v') /\
      errors v' = errors v ++ appended /\
      match dict_get "project" d with
      | None =>
          In (missing_project_message (name_of d)) appended /\
          referenced_projects v' = referenced_projects v
      | Some p =>
          ~ In (missing_project_message (name_of d)) appended /\
          referenced_projects v' = set_add p (referenced_projects v)
      end /\
      match dict_get "inventory" d with
      | None =>
          In (missing_inventory_message (name_of d)) appended /\
          referenced_inventories v' = referenced_inventories v
      | Some i =>
          ~ In (missing_inventory_message (name_of d)) appended /\
          referenced_inventories v' = set_add i (referenced_inventories v)
      end.
Proof.
  intros d v Hok.
  destruct (triple_total _ _ _ (check_job_template_spec d v Hok))
    as ([] & v' & E & He & Hp & Hi).
  exists v', (job_template_errors d). split; [exact E|]. split; [exact He|].
  change (get_set ReferencedProjects v') with (referenced_projects v') in Hp.
  change (get_set ReferencedInventories v') with (referenced_inventories v') in Hi.
  split.
  - destruct (dict_get "project" d) as [p|] eqn:Ep; simpl in Hp; split;
      try exact Hp.
    + now apply (missing_project_not_in d p).
    + unfold job_template_errors. rewrite Ep, !in_app_iff.
      right. left. now left.
  - destruct (dict_get "inventory" d) as [i|] eqn:Ei; simpl in Hi; split;
      try exact Hi.
    + now apply (missing_inventory_not_in d i).
    + unfold job_template_errors. rewrite Ei, !in_app_iff.
      right. right. left. now left.
Qed.

(* ===================================================================== *)
(** ** Reference reconciliation *)
(* ===================================================================== *)

Lemma warn_each_exact {A : Type} (f : A -> string) (items : list A) (v : validator) :
  for_each (fun x => append_warning (f x)) items v
  = (Returned tt, grow [] (map f items) [] v).
Proof.
  revert v. induction items as [|x rest IH]; intros v; simpl.
  - unfold ret. now rewrite grow_nil.
  - unfold bind. rewrite append_warning_grow, IH, grow_grow. reflexivity.
Qed.

(** Whatever the order, the loop meets the members of the difference. *)
Lemma undefined_in_order_permutes (k : ref_kind) (v : validator) :
  Permutation (undefined_in_order k v) (undefined_names k v).
Proof. unfold undefined_in_order, undefined_names. apply walk_permutes. Qed.

Lemma check_references_exact (k : ref_kind) (v : validator) :
  check_references k v
  = (Returned tt, grow [] (map (dangling_message k) (undefined_in_order k v)) [] v).
Proof.
  unfold check_references, bind, self.
  destruct (undefined_names k v) as [|x rest] eqn:E.
  - pose proof (undefined_in_order_permutes k v) as P. rewrite E in P.
    apply Permutation_sym, Permutation_nil in P. rewrite P.
    unfold ret. simpl. now rewrite grow_nil.
  - apply warn_each_exact.
Qed.

Lemma undefined_names_grow (k : ref_kind) (e w i : list string) (v : validator) :
  undefined_names k (grow e w i v) = undefined_names k v.
Proof. unfold undefined_names. now rewrite !get_set_grow. Qed.

Lemma undefined_in_order_grow (k : ref_kind) (e w i : list string) (v : validator) :
  undefined_in_order k (grow e w i v) = undefined_in_order k v.
Proof. unfold undefined_in_order. now rewrite !get_set_grow. Qed.

Lemma validate_references_exact (v : validator) :
  validate_references v = (Returned tt, grow [] (dangling_warnings v) [] v).
Proof.
  unfold validate_references, bind.
  rewrite check_references_exact.
  rewrite check_references_exact, undefined_in_order_grow, grow_grow.
  rewrite check_references_exact, undefined_in_order_grow, grow_grow.
  rewrite check_references_exact, undefined_in_order_grow, grow_grow.
  unfold dangling_warnings. simpl. rewrite app_nil_r, <- !app_assoc. reflexivity.
Qed.

(** The appended warnings are, up to their order within a kind, one per
    member of the four differences. *)
Lemma dangling_warnings_permute (v : validator) :
  Permutation (dangling_warnings v)
    (flat_map (fun k => map (dangling_message k) (undefined_names k v)) ref_kinds).
Proof.
  unfold dangling_warnings. simpl.
  repeat apply Permutation_app; try apply Permutation_refl;
    apply Permutation_map, undefined_in_order_permutes.
Qed.

(** *** Counting in well-formed sets *)

Lemma eqv_congr (x y z : value) :
  hashable x = true -> hashable y = true -> canon x = canon y ->
  eqv x z = eqv y z.
Proof.
  intros Hx Hy E.
  destruct (hashable z) eqn:Hz.
  - destruct (eqv x z) eqn:E1, (eqv y z) eqn:E2; try reflexivity.
    + apply eqv_canon in E1; auto.
      assert (eqv y z = true) by (apply eqv_canon; auto; congruence).
      congruence.
    + apply eqv_canon in E2; auto.
      assert (eqv x z = true) by (apply eqv_canon; auto; congruence).
      congruence.
  - destruct z; try discriminate; destruct x, y; reflexivity.
Qed.

Lemma set_mem_congr (x y : value) (t : pyset) :
  hashable x = true -> hashable y = true -> canon x = canon y ->
  set_mem x t = set_mem y t.
Proof.
  intros Hx Hy E. unfold set_mem. induction t as [|z t IH]; simpl.
  - reflexivity.
  - now rewrite IH, (eqv_congr x y z Hx Hy E).
Qed.

Lemma count_name_wf (x : value) (s : pyset) :
  hashable x = true -> wf_set s ->
  count_name x s = if set_mem x s then 1 else 0.
Proof.
  intros Hx [Hh Hn]. unfold count_name. induction s as [|y s IH]; simpl.
  - reflexivity.
  - inversion Hh as [|? ? Hy Hs]; subst. simpl in Hn.
    inversion Hn as [|? ? Hnot Hnd]; subst.
    specialize (IH Hs Hnd).
    destruct (eqv x y) eqn:E; simpl.
    + apply eqv_canon in E; auto.
      assert (set_mem x s = false) as Hm.
      { destruct (set_mem x s) eqn:M; [|reflexivity].
        apply (set_mem_canon x s Hx Hs) in M. rewrite E in M. contradiction. }
      rewrite Hm in IH. now rewrite IH.
    + exact IH.
Qed.

Lemma NoDup_map_filter {A B : Type} (f : A -> B) (P : A -> bool) (l : list A) :
  NoDup (map f l) -> NoDup (map f (filter P l)).
Proof.
  induction l as [|a l IH]; simpl; intros H; [constructor|].
  inversion H as [|? ? Hnot Hnd]; subst.
  destruct (P a); simpl; auto.
  constructor; auto.
  intros Hin. apply Hnot. apply in_map_iff in Hin.
  destruct Hin as (b & E & Hb). apply filter_In in Hb.
  apply in_map_iff. exists b. tauto.
Qed.

Lemma wf_set_diff (s t : pyset) : wf_set s -> wf_set (set_diff s t).
Proof.
  intros [Hh Hn]. split.
  - unfold set_diff. rewrite Forall_forall in *. intros x Hx.
    apply filter_In in Hx. apply Hh. tauto.
  - now apply NoDup_map_filter.
Qed.

Lemma set_mem_diff (x : value) (s t : pyset) :
  hashable x = true -> wf_set s ->
  set_mem x (set_diff s t) = set_mem x s && negb (set_mem x t).
Proof.
  intros Hx [Hh _]. unfold set_diff. induction s as [|y s IH]; simpl.
  - reflexivity.
  - inversion Hh as [|? ? Hy Hs]; subst. specialize (IH Hs).
    destruct (eqv x y) eqn:E; simpl.
    + assert (C : set_mem y t = set_mem x t).
      { apply set_mem_congr; auto. symmetry. now apply eqv_canon. }
      rewrite C. destruct (set_mem x t); simpl.
      * rewrite IH. now rewrite andb_false_r.
      * unfold set_mem at 1. simpl. now rewrite E.
    + destruct (negb (set_mem y t)); simpl.
      * unfold set_mem at 1. simpl. rewrite E. simpl. exact IH.
      * exact IH.
Qed.

(** In a well-formed validator, the difference of a kind holds a name once
    when it is referenced and not defined, and not at all otherwise. *)
Lemma count_undefined (k : ref_kind) (x : value) (v : validator) :
  wf_validator v -> hashable x = true ->
  count_name x (undefined_names k v)
  = if set_mem x (get_set (referenced_of k) v)
       && negb (set_mem x (get_set (defined_of k) v))
    then 1 else 0.
Proof.
  intros Hwf Hx. unfold undefined_names.
  rewrite count_name_wf by auto using wf_set_diff.
  now rewrite set_mem_diff by auto.
Qed.

Lemma count_name_permutation (x : value) (l l' : list value) :
  Permutation l l' -> count_name x l = count_name x l'.
Proof.
  unfold count_name. induction 1 as [|y l l' _ IH|y z l|l l' l'' _ IH1 _ IH2]; simpl.
  - reflexivity.
  - destruct (eqv x y); simpl; now rewrite IH.
  - destruct (eqv x y), (eqv x z); reflexivity.
  - now rewrite IH1.
Qed.

Lemma forallb_permutation {A : Type} (f : A -> bool) (l l' : list A) :
  Permutation l l' -> forallb f l = forallb f l'.
Proof.
  induction 1 as [|y l l' _ IH|y z l|l l' l'' _ IH1 _ IH2]; simpl.
  - reflexivity.
  - now rewrite IH.
  - now rewrite !andb_assoc, (andb_comm (f y) (f z)).
  - now rewrite IH1.
Qed.

(** So does the walk over it, in whatever order. *)
Lemma count_undefined_in_order (k : ref_kind) (x : value) (v : validator) :
  wf_validator v -> hashable x = true ->
  count_name x (undefined_in_order k v)
  = if set_mem x (get_set (referenced_of k) v)
       && negb (set_mem x (get_set (defined_of k) v))
    then 1 else 0.
Proof.
  intros Hwf Hx.
  rewrite (count_name_permutation x _ _ (undefined_in_order_permutes k v)).
  now apply count_undefined.
Qed.

(** *** Counting the warnings by their text *)

Lemma dangling_message_inj (k : ref_kind) (s t : string) :
  dangling_message k (VStr s) = dangling_message k (VStr t) -> s = t.
Proof.
  unfold dangling_message, str. intros H.
  do 3 apply append_inj_l in H. now apply append_inj_r in H.
Qed.

Lemma dangling_message_kind (k k' : ref_kind) (x y : value) :
  dangling_message k x = dangling_message k' y -> k = k'.
Proof.
  unfold dangling_message. intros H. apply append_inj_l in H.
  destruct k, k'; try reflexivity; simpl in H; discriminate H.
Qed.

Lemma count_other_kind (k k' : ref_kind) (x : value) (l : list value) :
  k <> k' ->
  count_occ string_dec (map (dangling_message k') l) (dangling_message k x) = 0.
Proof.
  intros Hne. apply count_occ_not_In. intros Hin.
  apply in_map_iff in Hin. destruct Hin as (y & E & _).
  apply dangling_message_kind in E. congruence.
Qed.

Lemma count_same_kind (k : ref_kind) (s : string) (l : list value) :
  forallb is_text l = true ->
  count_occ string_dec (map (dangling_message k) l) (dangling_message k (VStr s))
  = count_name (VStr s) l.
Proof.
  unfold count_name. induction l as [|y l IH]; intros H; [reflexivity|].
  cbn [forallb] in H. apply andb_true_iff in H. destruct H as [Hy Hl].
  destruct y as [ | | | t | | ]; try discriminate.
  cbn [map count_occ filter eqv].
  destruct (string_dec (dangling_message k (VStr t)) (dangling_message k (VStr s)))
    as [E|N].
  - apply dangling_message_inj in E. subst t. rewrite String.eqb_refl.
    cbn [length]. now rewrite IH.
  - destruct (String.eqb_spec s t) as [->|_]; [contradiction|]. auto.
Qed.

Lemma count_dangling_warnings (k : ref_kind) (s : string) (v : validator) :
  forallb is_text (undefined_names k v) = true ->
  count_occ string_dec (dangling_warnings v) (dangling_message k (VStr s))
  = count_name (VStr s) (undefined_names k v).
Proof.
  intros H.
  rewrite <- (forallb_permutation is_text _ _ (undefined_in_order_permutes k v)) in H.
  rewrite <- (count_name_permutation _ _ _ (undefined_in_order_permutes k v)).
  unfold dangling_warnings. simpl. rewrite !count_occ_app. simpl.
  destruct k;
    rewrite (count_same_kind _ s _ H);
    rewrite ?count_other_kind by discriminate; lia.
Qed.

(** C3.  Let [v] be the validator the entity validators of an environment
    have left, and take any order in which the interpreter walks a set.
    [validate_references] returns, changes no set and appends to the
    warnings only: kind by kind, one warning per member the loop meets in
    Referenced minus Defined, and the loop meets every member of that
    difference, in whatever order.  It meets a name once if the name is
    referenced and not defined, and not at all if the name is defined in the
    same environment.  When the dangling names of a kind are texts, the
    warning of a text occurs exactly once among the appended warnings if it
    dangles and not at all otherwise; without that condition two dangling
    names may share the text of their warning. *)
Theorem dangling_references_warned_once :
  forall (fs : filesystem) (dir base : path) (env : string),
    let v := after (validate_config_files fs dir) (new_validator base env) in
    validate_references v = (Returned tt, grow [] (dangling_warnings v) [] v) /\
    dangling_warnings v
    = flat_map (fun k => map (dangling_message k) (undefined_in_order k v)) ref_kinds /\
    (forall k : ref_kind,
       Permutation (undefined_in_order k v) (undefined_names k v)) /\
    Permutation (dangling_warnings v)
      (flat_map (fun k => map (dangling_message k) (undefined_names k v)) ref_kinds) /\
    (forall (k : ref_kind) (x : value),
       hashable x = true ->
       count_name x (undefined_in_order k v)
       = if set_mem x (get_set (referenced_of k) v)
            && negb (set_mem x (get_set (defined_of k) v))
         then 1 else 0) /\
    (forall (k : ref_kind) (s : string),
       forallb is_text (undefined_names k v) = true ->
       count_occ string_dec (dangling_warnings v) (dangling_message k (VStr s))
       = if set_mem (VStr s) (get_set (referenced_of k) v)
            && negb (set_mem (VStr s) (get_set (defined_of k) v))
         then 1 else 0).
Proof.
  intros fs dir base env v.
  assert (Hwf : wf_validator v).
  { apply (ext_wf _ _ (monotone_validate_config_files fs dir (new_validator base env))).
    intros k. destruct k; apply wf_set_nil. }
  split; [apply validate_references_exact|].
  split; [reflexivity|].
  split; [intros k; apply undefined_in_order_permutes|].
  split; [apply dangling_warnings_permute|]. split.
  - intros k x Hx. now apply count_undefined_in_order.
  - intros k s Ht. rewrite count_dangling_warnings by exact Ht.
    now apply count_undefined.
Qed.

(* ===================================================================== *)
(** ** The verdict *)
(* ===================================================================== *)

Lemma print_results_verdict (v : validator) :
  exists verdict,
    print_results v = (Returned verdict, v) /\
    (verdict = false <-> exists m, In m (errors v)) /\
    (errors v = [] -> verdict = true).
Proof.
  unfold print_results, bind, self.
  destruct (errors v) as [|m rest] eqn:E.
  - exists true. split; [reflexivity|]. split; [|reflexivity].
    split; [discriminate|]. intros [m []].
  - exists false. split; [reflexivity|]. split; [|discriminate].
    split; [|reflexivity]. intros _. exists m. now left.
Qed.

(** C2.  [print_results] returns on every validator, leaves it as it is,
    and its verdict is [false] if and only if at least one error has been
    recorded; with no error the verdict is [true], whatever the warnings and
    the informational notes.  So the report of every environment that [main]
    validates has failed if and only if it shows an error. *)
Theorem passed_iff_no_error :
  (forall v : validator,
     exists verdict,
       print_results v = (Returned verdict, v) /\
       (verdict = false <-> exists m, In m (errors v)) /\
       (errors v = [] -> verdict = true)) /\
  (forall (fs : filesystem) (base : path) (env : string) (r : report),
     solo fs base env = Returned r ->
     (passed r = false <-> exists m, In m (shown_errors r))).
Proof.
  split; [exact print_results_verdict|].
  intros fs base env r. unfold solo.
  destruct (validate_environment fs env (new_validator base env)) as [[b|e] v1];
    [|discriminate].
  destruct (print_results_verdict v1) as (verdict & E & Hiff & _).
  rewrite E. intros [= <-]. exact Hiff.
Qed.

(* ===================================================================== *)
(** ** Nothing recorded is ever lost *)
(* ===================================================================== *)

Lemma prefix_of_incl {A : Type} (l l' : list A) : prefix_of l l' -> incl l l'.
Proof. intros [t ->]. apply incl_appl, incl_refl. Qed.

Lemma extends_only_grows (v v' : validator) : extends v v' -> only_grows v v'.
Proof.
  intros [_ _ He Hw Hi Hs _]. repeat split; auto.
  intros k. apply prefix_of_incl, Hs.
Qed.

Lemma monotone_validator_of (e : entity) (c : value) : monotone (validator_of e c).
Proof.
  destruct e; simpl;
    auto using monotone_validate_organizations, monotone_validate_teams,
      monotone_validate_credentials, monotone_validate_execution_environments,
      monotone_validate_projects, monotone_validate_inventories,
      monotone_validate_job_templates, monotone_validate_workflow_templates,
      monotone_validate_schedules.
Qed.

(** C10.  Loading a file, each of the nine entity validators, the
    reference reconciliation, the per-environment driver and the result
    summary: from the validator they start on to the one they leave, by
    return or by exception, the errors, the warnings and the notes have only
    been appended to, and every name of every set is still in it. *)
Theorem operations_only_grow :
  forall v : validator,
    (forall fs path, only_grows v (after (load_yaml_file fs path) v)) /\
    (forall e config, only_grows v (after (validator_of e config) v)) /\
    only_grows v (after validate_references v) /\
    (forall fs env, only_grows v (after (validate_environment fs env) v)) /\
    only_grows v (after print_results v).
Proof.
  intros v. split; [|split; [|split; [|split]]]; intros;
    apply extends_only_grows.
  - apply monotone_load_yaml_file.
  - apply monotone_validator_of.
  - apply monotone_validate_references.
  - apply monotone_validate_environment.
  - apply monotone_print_results.
Qed.

(* ===================================================================== *)
(** ** Zero records, empty documents, missing files *)
(* ===================================================================== *)

Lemma skip_silently (fs : filesystem) (dir : path)
    (entry : string * (value -> M unit)) (v : validator) :
  (fs (path_str (path_div dir (fst entry))) = NoEntry \/
   exists content,
     fs (path_str (path_div dir (fst entry))) = File (Document content) /\
     truthy content = false) ->
  validate_config_file fs dir entry v = (Returned tt, v).
Proof.
  unfold validate_config_file, path_exists, load_yaml_file.
  intros [E|(content & E & F)]; rewrite E.
  - reflexivity.
  - rewrite F. reflexivity.
Qed.

(** C7, as the code has it.  A document whose recognized key maps to an
    empty list of records is non-empty, and its validator returns having
    appended: for the seven kinds from credentials to schedules, exactly the
    note counting zero; for organizations and teams, exactly one warning and
    no note.  A file that is missing, or that decodes to an empty or falsy
    document, leaves the validator as it was. *)
Theorem zero_records_outcome :
  forall (e : entity) (c : list (value * value)) (v : validator),
    dict_get (config_key e) c = Some (VList []) ->
    truthy (VDict c) = true /\
    validator_of e (VDict c) v
    = (Returned tt, grow [] (zero_warnings e) (zero_info e) v) /\
    (forall fs dir entry,
       (fs (path_str (path_div dir (fst entry))) = NoEntry \/
        exists content,
          fs (path_str (path_div dir (fst entry))) = File (Document content) /\
          truthy content = false) ->
       validate_config_file fs dir entry v = (Returned tt, v)).
Proof.
  intros e c v H. split; [|split].
  - destruct c; [discriminate H|reflexivity].
  - destruct e; cbn [validator_of config_key zero_warnings zero_info] in *;
      unfold validate_organizations, validate_teams, validate_credentials,
        validate_execution_environments, validate_projects,
        validate_inventories, validate_job_templates,
        validate_workflow_templates, validate_schedules,
        config_get, dict_get_or, bind;
      rewrite H; cbn -[append_info append_warning grow];
      apply append_info_grow || apply append_warning_grow.
  - intros fs dir entry. apply skip_silently.
Qed.

(* ===================================================================== *)
(** ** Well-shaped documents *)
(* ===================================================================== *)

Lemma monotone_checker (e : entity) (r : value) : monotone (checker e r).
Proof. destruct e; simpl; auto with mono. Qed.

(** *** A record of an acceptable shape is processed to the end *)

Lemma record_returns (e : entity) (d : list (value * value)) (v : validator) :
  record_ok e d = true ->
  triple False (checker e (VDict d)) v (fun _ _ => True).
Proof.
  intros Hok. destruct e; cbn [checker record_ok] in *.
  - unfold check_organization. repeat step. exact I.
  - unfold check_team. repeat step. exact I.
  - apply andb_true_iff in Hok. destruct Hok as [Hn Hi].
    destruct (dict_get_or "inputs" (VDict []) d) as [ | | | | | ins] eqn:E;
      try discriminate.
    eapply triple_of_eq; [apply (check_credential_exact d ins v Hn E)|exact I].
  - apply andb_true_iff in Hok. destruct Hok as [Hn Hi].
    unfold check_execution_environment. repeat step.
    destruct (dict_get "image" d) as [[ | | | image | | ]|]; try discriminate;
      simpl contains; repeat step; exact I.
  - apply andb_true_iff in Hok. destruct Hok as [Hok He].
    apply andb_true_iff in Hok. destruct Hok as [Hn Hc].
    unfold check_project. repeat step.
    destruct (dict_get "scm_type" d); repeat step;
      (destruct (dict_get "credential" d); simpl in Hc; repeat step);
      (destruct (dict_get "default_environment" d); simpl in He; repeat step);
      exact I.
  - unfold check_inventory. repeat step. exact I.
  - eapply triple_weaken; [apply (check_job_template_spec d v Hok)|].
    intros; exact I.
  - unfold check_workflow_template. repeat step. exact I.
  - unfold check_schedule. repeat step. exact I.
Qed.

(** *** A required field that is missing is reported *)

Lemma triple_skip {A B : Type} (c : M A) (k : A -> M B) (v : validator)
    (Q : B -> validator -> Prop) :
  (forall a v1, triple True (k a) v1 Q) -> triple True (bind c k) v Q.
Proof.
  intros H. unfold triple, bind. destruct (c v) as [[a|e] v1]; [apply H|exact I].
Qed.

Lemma triple_emit_last (m : string) (v : validator) :
  triple True (append_error m) v (fun _ v' => In m (errors v')).
Proof.
  apply triple_append_error. proj. apply in_or_app. right. now left.
Qed.

Lemma triple_emit (m : string) (rest : unit -> M unit) (v : validator) :
  (forall a, monotone (rest a)) ->
  triple True (bind (append_error m) rest) v (fun _ v' => In m (errors v')).
Proof.
  intros Hm. unfold triple, bind. rewrite append_error_grow.
  pose proof (Hm tt (grow [m] [] [] v)) as Hx. unfold after in Hx.
  destruct (rest tt (grow [m] [] [] v)) as [[a|e] v']; [|exact I].
  simpl in Hx. eapply prefix_of_In; [apply (ext_errors _ _ Hx)|].
  proj. apply in_or_app. right. now left.
Qed.

(** Walks down the body to the statement that appends the message. *)
Ltac report :=
  first
    [ apply triple_emit_last
    | apply triple_emit; intros ?; solve [mono]
    | apply triple_skip; intros ? ?; report ].

Lemma required_reported (e : entity) (d : list (value * value))
    (f m : string) (v : validator) :
  In (f, m) (required_fields e d) -> dict_has f d = false ->
  triple True (checker e (VDict d)) v (fun _ v' => In m (errors v')).
Proof.
  intros Hin Hmiss. unfold dict_has in Hmiss.
  destruct (dict_get f d) eqn:Ef; [discriminate|]. clear Hmiss.
  destruct e; cbn [required_fields] in Hin;
    repeat (destruct Hin as [Hin|Hin];
            [injection Hin as <- <-|]); try contradiction;
    cbn [checker];
    unfold check_organization, check_team, check_credential,
      check_execution_environment, check_project, check_inventory,
      check_job_template, check_workflow_template, check_schedule, dict_has;
    rewrite ?Ef; cbn [negb when]; cbv zeta; report.
Qed.

(** *** The validators on a list of records *)

Lemma validator_of_list (e : entity) (c : list (value * value))
    (items : list value) (v : validator) :
  dict_get_or (config_key e) (VList []) c = VList items ->
  validator_of e (VDict c) v
  = match items with
    | [] =>
        if guards_empty e
        then (Returned tt, grow [] (zero_warnings e) [] v)
        else (Returned tt, grow [] [] [count_message e 0] v)
    | _ :: _ =>
        bind (for_each (checker e) items)
          (fun _ => append_info (count_message e (List.length items))) v
    end.
Proof.
  intros H.
  destruct e; cbn [validator_of config_key zero_warnings guards_empty checker] in *;
    unfold validate_organizations, validate_teams, validate_credentials,
      validate_execution_environments, validate_projects,
      validate_inventories, validate_job_templates,
      validate_workflow_templates, validate_schedules, config_get, bind;
    rewrite H; destruct items as [|r rest];
    cbn -[append_info append_warning grow for_each checker str_of_nat
          check_organization check_team check_credential
          check_execution_environment check_project check_inventory
          check_job_template check_workflow_template check_schedule];
    try apply append_info_grow; try apply append_warning_grow;
    try reflexivity.
Qed.

Lemma records_loop_returns (e : entity) (items : list value) (v : validator) :
  forallb (is_ok_record e) items = true ->
  exists v', for_each (checker e) items v = (Returned tt, v').
Proof.
  intros Hok.
  destruct (triple_total (for_each (checker e) items) v (fun _ _ => True))
    as ([] & v' & E & _); [|eauto].
  apply (triple_for_each False (checker e) items (fun _ => True)); [exact I|].
  intros r v1 Hr _. rewrite forallb_forall in Hok. specialize (Hok r Hr).
  destruct r; try discriminate. now apply record_returns.
Qed.

(** C5, as the code has it.  On a well-shaped document (a mapping; under
    the recognized key, if present, a list; every record a mapping whose
    fields have the shapes the statements need) the validator of every kind
    returns, and every required field a record lacks is reported by the
    error of that field. *)
Theorem well_shaped_document_never_raises :
  forall (e : entity) (config : value) (v : validator),
    config_ok e config = true ->
    exists v' items,
      validator_of e config v = (Returned tt, v') /\
      records_of e config = Some items /\
      forall d f m,
        In (VDict d) items -> In (f, m) (required_fields e d) ->
        dict_has f d = false -> In m (errors v').
Proof.
  intros e config v Hok. unfold config_ok in Hok.
  destruct (records_of e config) as [items|] eqn:Er; [|discriminate].
  destruct config as [ | | | | | c]; try discriminate. simpl in Er.
  destruct (dict_get_or (config_key e) (VList []) c) as [ | | | | l | ] eqn:Ec;
    try discriminate.
  injection Er as ->.
  rewrite (validator_of_list e c items v Ec).
  destruct items as [|r rest].
  - destruct (guards_empty e); eexists; exists []; (split; [reflexivity|]);
      (split; [reflexivity|]); intros d f m [].
  - destruct (records_loop_returns e (r :: rest) v Hok) as [v1 E1].
    unfold bind. rewrite E1, append_info_grow.
    eexists. exists (r :: rest). split; [reflexivity|]. split; [reflexivity|].
    intros d f m Hd Hf Hmiss. proj.
    destruct (for_each_turn (checker e) (r :: rest) v v1 (VDict d)
                (monotone_checker e) E1 Hd) as (va & vb & _ & Eb & Hext).
    eapply prefix_of_In; [apply (ext_errors _ _ Hext)|].
    exact (triple_returned True _ _ _ _ _ (required_reported e d f m va Hf Hmiss) Eb).
Qed.

(* ===================================================================== *)
(** ** Several environments in one invocation *)
(* ===================================================================== *)

Lemma main_step_solo (fs : filesystem) (base : path) (env : string) (p : process) :
  match solo fs base env with
  | Returned r =>
      fst (main_step fs base env p) = Returned tt /\
      console (snd (main_step fs base env p)) = console p ++ [r] /\
      all_passed (snd (main_step fs base env p)) = all_passed p && passed r
  | Raised e =>
      fst (main_step fs base env p) = Raised e /\
      console (snd (main_step fs base env p)) = console p
  end.
Proof.
  unfold solo, main_step.
  destruct (validate_environment fs env (new_validator base env)) as [[b|e] v1];
    [|now split].
  destruct (print_results v1) as [[verdict|e] v2]; simpl; auto.
Qed.



(* ===================================================================== *)
(** ** The theorems at sample inputs *)
(* ===================================================================== *)

(** The plaintext password of the sample credential is reported. *)
Lemma credential_plaintext_iff_witness :
  exists v' appended,
    check_credential (VDict sample_credential) sample_validator
    = (Returned tt, v') /\
    errors v' = errors sample_validator ++ appended /\
    warnings v' = warnings sample_validator /\
    (In (unencrypted_message (name_of sample_credential) "password") appended
     <-> startswith (str (VStr "hunter2")) "{{ " = false
         /\ startswith (str (VStr "hunter2")) "!vault" = false).
Proof.
  apply (credential_plaintext_iff sample_credential sample_inputs "password"
           (VStr "hunter2") sample_validator).
  - reflexivity.
  - reflexivity.
  - simpl. auto.
  - reflexivity.
Defined.

(** The sample execution environment in [prod] gets both findings. *)
Lemma image_latest_and_digest_checks_witness :
  exists v' new_errors new_warnings,
    check_execution_environment (VDict sample_ee) sample_validator
    = (Returned tt, v') /\
    errors v' = errors sample_validator ++ new_errors /\
    warnings v' = warnings sample_validator ++ new_warnings /\
    (In (latest_message (name_of sample_ee)) new_errors
     <-> str_contains ":latest" "quay.io/acme/ee:latest" = true) /\
    (In (digest_message (name_of sample_ee)) new_warnings
     <-> str_contains "@sha256:" "quay.io/acme/ee:latest" = false
         /\ environment sample_validator = "prod").
Proof.
  apply (image_latest_and_digest_checks sample_ee "quay.io/acme/ee:latest"
           sample_validator).
  - reflexivity.
  - reflexivity.
Defined.

(** The nameless sample credential defines ['unnamed']. *)
Lemma unnamed_placeholder_is_defined_witness :
  name_of nameless_credential = VStr "unnamed" /\
  In (missing_name_message Credential)
     (errors (after (checker Credential (VDict nameless_credential))
                sample_validator)) /\
  (forall k, defined_set Credential = Some k ->
     set_mem (VStr "unnamed")
       (get_set k (after (checker Credential (VDict nameless_credential))
                     sample_validator)) = true).
Proof.
  apply (unnamed_placeholder_is_defined Credential nameless_credential
           sample_validator).
  reflexivity.
Defined.

(** The sample template: its project is referenced, its missing inventory
    is reported. *)
Lemma job_template_project_inventory_witness :
  exists v' appended,
    check_job_template (VDict sample_template) sample_validator
    = (Returned tt, v') /\
    errors v' = errors sample_validator ++ appended /\
    (~ In (missing_project_message (name_of sample_template)) appended /\
     referenced_projects v'
     = set_add (VStr "playbooks") (referenced_projects sample_validator)) /\
    (In (missing_inventory_message (name_of sample_template)) appended /\
     referenced_inventories v' = referenced_inventories sample_validator).
Proof.
  apply (job_template_project_inventory sample_template sample_validator).
  reflexivity.
Defined.

(** A credentials document without records gets the zero count. *)
Lemma zero_records_outcome_witness :
  truthy (VDict no_credentials) = true /\
  validator_of Credential (VDict no_credentials) sample_validator
  = (Returned tt,
     grow [] (zero_warnings Credential) (zero_info Credential) sample_validator) /\
  (forall fs dir entry,
     (fs (path_str (path_div dir (fst entry))) = NoEntry \/
      exists content,
        fs (path_str (path_div dir (fst entry))) = File (Document content) /\
        truthy content = false) ->
     validate_config_file fs dir entry sample_validator
     = (Returned tt, sample_validator)).
Proof.
  apply (zero_records_outcome Credential no_credentials sample_validator).
  reflexivity.
Defined.

(** The document with the sample template is well shaped. *)
Lemma well_shaped_document_never_raises_witness :
  exists v' items,
    validator_of JobTemplate templates_document sample_validator
    = (Returned tt, v') /\
    records_of JobTemplate templates_document = Some items /\
    forall d f m,
      In (VDict d) items -> In (f, m) (required_fields JobTemplate d) ->
      dict_has f d = false -> In m (errors v').
Proof.
  apply (well_shaped_document_never_raises JobTemplate templates_document
           sample_validator).
  reflexivity.
Defined.

(* ===================================================================== *)
(** ** Inputs on which the code departs from the specification *)
(* ===================================================================== *)

(** C5.  A recognized key that maps to null makes the credentials
    validator raise [TypeError]; a record that is a text, not a mapping,
    makes the projects validator raise [AttributeError].  Neither becomes an
    error finding. *)
Lemma malformed_document_raises :
  validate_credentials null_credentials sample_validator
  = (Raised TypeError, sample_validator) /\
  validate_projects text_for_project sample_validator
  = (Raised AttributeError, sample_validator).
Proof. split; reflexivity. Qed.

(** C6.  The placeholder is not in the set of defined credentials before a
    nameless credential is processed, and it is in the set afterwards. *)
Lemma placeholder_enters_defined_set :
  dict_has "name" nameless_credential = false /\
  set_mem (VStr "unnamed") (defined_credentials sample_validator) = false /\
  set_mem (VStr "unnamed")
    (defined_credentials
       (after (check_credential (VDict nameless_credential)) sample_validator))
  = true.
Proof. repeat split; reflexivity. Qed.

(** C7.  An organizations document whose key maps to zero records is
    non-empty, and its validator appends a warning and no note at all. *)
Lemma zero_organizations_no_count :
  truthy (VDict no_organizations) = true /\
  dict_get (config_key Organization) no_organizations = Some (VList []) /\
  info (after (validate_organizations (VDict no_organizations)) sample_validator)
  = [] /\
  warnings (after (validate_organizations (VDict no_organizations)) sample_validator)
  = ["No organizations defined"].
Proof. repeat split; reflexivity. Qed.

(* ===================================================================== *)
(** ** What a record contributes, and what a validator makes of a list *)
(* ===================================================================== *)

Lemma add_names_app (l1 l2 : list (name_set * value)) (v : validator) :
  add_names (l1 ++ l2) v = add_names l2 (add_names l1 v).
Proof. apply fold_left_app. Qed.

Lemma add_pure_grow (k : name_set) (x : value) (e w i : list string) (v : validator) :
  add_pure k x (grow e w i v) = grow e w i (add_pure k x v).
Proof. unfold add_pure. now rewrite get_set_grow, put_set_grow. Qed.

Lemma add_names_grow (l : list (name_set * value)) (e w i : list string)
    (v : validator) :
  add_names l (grow e w i v) = grow e w i (add_names l v).
Proof.
  revert v. induction l as [|[k x] l IH]; intros v; simpl; [reflexivity|].
  unfold add_names in *. simpl. now rewrite add_pure_grow, IH.
Qed.

Lemma environment_add_names (l : list (name_set * value)) (v : validator) :
  environment (add_names l v) = environment v.
Proof.
  revert v. induction l as [|[k x] l IH]; intros v; [reflexivity|].
  unfold add_names in *. simpl. rewrite IH. apply environment_put_set.
Qed.

Lemma errors_add_names (l : list (name_set * value)) (v : validator) :
  errors (add_names l v) = errors v.
Proof.
  revert v. induction l as [|[k x] l IH]; intros v; [reflexivity|].
  unfold add_names in *. simpl. rewrite IH. apply errors_put_set.
Qed.

Lemma warnings_add_names (l : list (name_set * value)) (v : validator) :
  warnings (add_names l v) = warnings v.
Proof.
  revert v. induction l as [|[k x] l IH]; intros v; [reflexivity|].
  unfold add_names in *. simpl. rewrite IH. apply warnings_put_set.
Qed.

Lemma info_add_names (l : list (name_set * value)) (v : validator) :
  info (add_names l v) = info v.
Proof.
  revert v. induction l as [|[k x] l IH]; intros v; [reflexivity|].
  unfold add_names in *. simpl. rewrite IH. apply info_put_set.
Qed.

Lemma get_set_add_names (k : name_set) (l : list (name_set * value))
    (v : validator) :
  get_set k (add_names l v) = add_all (names_for k l) (get_set k v).
Proof.
  revert v. induction l as [|[k' x] l IH]; intros v; [reflexivity|].
  unfold add_names in *. simpl fold_left. rewrite IH.
  unfold add_pure, names_for. simpl. rewrite get_put_set.
  destruct (name_set_eq_dec k' k) as [->|Hne].
  - destruct (name_set_eq_dec k k); [reflexivity|contradiction].
  - destruct (name_set_eq_dec k k') as [->|_]; [contradiction|reflexivity].
Qed.

#[local] Hint Rewrite environment_add_names errors_add_names warnings_add_names
  info_add_names : proj.

Lemma note_template_credential_names (c : value) (v : validator) :
  credential_ref_ok c = true ->
  note_template_credential c v
  = (Returned tt,
     add_names (map (pair ReferencedCredentials) (template_credential_names [c])) v).
Proof.
  intros H. destruct c as [ | b | z | t | l | cd ]; try reflexivity.
  simpl in *. destruct (dict_get "name" cd) as [n|]; [|reflexivity].
  simpl. now apply add_name_returned.
Qed.

Lemma template_credentials_loop (items : list value) (v : validator) :
  forallb credential_ref_ok items = true ->
  for_each note_template_credential items v
  = (Returned tt,
     add_names (map (pair ReferencedCredentials) (template_credential_names items)) v).
Proof.
  revert v. induction items as [|c rest IH]; intros v H; [reflexivity|].
  simpl in H. apply andb_true_iff in H. destruct H as [Hc Hr].
  cbn [for_each]. unfold bind.
  rewrite (note_template_credential_names c v Hc), (IH _ Hr).
  assert (E : template_credential_names (c :: rest)
              = template_credential_names [c] ++ template_credential_names rest).
  { unfold template_credential_names. simpl. now rewrite app_nil_r. }
  rewrite E, map_app, add_names_app. reflexivity.
Qed.

Lemma triple_state (c : M unit) (v w : validator) :
  triple False c v (fun _ v' => v' = w) -> c v = (Returned tt, w).
Proof.
  intros T. apply triple_total in T. destruct T as ([] & v' & E & ->). exact E.
Qed.

(** Brings the validator a body has been stepped into to the form
    "findings appended to additions". *)
Ltac finish_state :=
  repeat rewrite ?environment_grow, ?environment_put_set,
    ?environment_add_names, ?get_set_grow, ?put_set_grow, ?add_names_grow,
    ?grow_grow;
  unfold record_errors, record_warnings, record_info, record_names, if_msg,
    if_present, ee_warnings, job_template_errors, missing_project_message,
    missing_inventory_message;
  rewrite ?add_names_app;
  cbn [add_names fold_left fst snd app]; unfold add_pure;
  rewrite ?app_nil_r; try reflexivity.

Lemma inputs_of_dict (d ins : list (value * value)) :
  dict_get_or "inputs" (VDict []) d = VDict ins -> inputs_of d = ins.
Proof. unfold inputs_of. now intros ->. Qed.

(** A record of an acceptable shape: the validator its kind's loop body
    leaves is the one it started from with the record's additions made and
    the record's findings appended. *)
Lemma checker_state (e : entity) (d : list (value * value)) (v : validator) :
  record_ok e d = true ->
  checker e (VDict d) v
  = (Returned tt,
     grow (record_errors e d)
       (record_warnings (environment v) e d)
       (record_info (environment v) e d)
       (add_names (record_names e d) v)).
Proof.
  intros Hok.
  destruct e; cbn [checker record_ok] in *;
    cbn beta iota zeta delta [record_errors record_warnings record_info record_names].
  - apply triple_state. unfold check_organization. repeat step. finish_state.
  - apply triple_state. unfold check_team. repeat step. finish_state.
  - apply andb_true_iff in Hok. destruct Hok as [Hn Hi].
    destruct (dict_get_or "inputs" (VDict []) d) as [ | | | | | ins] eqn:E;
      try discriminate.
    rewrite (check_credential_exact d ins v Hn E).
    rewrite (inputs_of_dict d ins E). reflexivity.
  - apply andb_true_iff in Hok. destruct Hok as [Hn Hi].
    apply triple_state. unfold check_execution_environment. repeat step.
    destruct (dict_get "image" d) as [[ | | | image | | ]|]; try discriminate;
      simpl contains; repeat step; finish_state.
  - apply andb_true_iff in Hok. destruct Hok as [Hok He].
    apply andb_true_iff in Hok. destruct Hok as [Hn Hc].
    apply triple_state. unfold check_project, dict_has. repeat step.
    destruct (dict_get "scm_type" d); repeat step;
      (destruct (dict_get "credential" d); simpl in Hc; repeat step);
      (destruct (dict_get "default_environment" d); simpl in He; repeat step);
      finish_state.
  - apply triple_state. unfold check_inventory. repeat step. finish_state.
  - unfold job_template_ok in Hok.
    apply andb_true_iff in Hok. destruct Hok as [Hok He].
    apply andb_true_iff in Hok. destruct Hok as [Hok Hc].
    apply andb_true_iff in Hok. destruct Hok as [Hp Hi].
    apply triple_state.
    unfold check_job_template, template_credentials, job_template_errors,
      missing_project_message, missing_inventory_message.
    do 3 step.
    destruct (dict_get "project" d) as [p|]; simpl in Hp; repeat step;
    (destruct (dict_get "inventory" d) as [i|]; simpl in Hi; repeat step);
    (destruct (dict_get "credentials" d) as [creds|];
     [ destruct (iter creds) as [items|]; [|discriminate];
       apply triple_bind; eapply triple_lift; [reflexivity|];
       eapply triple_of_eq; [apply (template_credentials_loop items _ Hc)|]
     | step ]);
    apply triple_bind;
    (destruct (dict_get "execution_environment" d) as [ee|]; simpl in He;
     repeat step);
    repeat rewrite ?environment_grow, ?environment_put_set,
      ?environment_add_names;
    (destruct (String.eqb (environment v) "prod");
     cbn [when]; repeat step; finish_state).
  - apply triple_state. unfold check_workflow_template. repeat step. finish_state.
  - apply triple_state. unfold check_schedule. repeat step. finish_state.
Qed.

Lemma records_loop_state (e : entity) (items : list value) (v : validator) :
  forallb (is_ok_record e) items = true ->
  for_each (checker e) items v
  = (Returned tt,
     grow (flat_map (errors_of e) items)
       (flat_map (warnings_of (environment v) e) items)
       (flat_map (info_of (environment v) e) items)
       (add_names (flat_map (names_of e) items) v)).
Proof.
  revert v. induction items as [|r rest IH]; intros v Hok.
  - simpl. unfold ret. now rewrite grow_nil.
  - cbn [forallb] in Hok. apply andb_true_iff in Hok. destruct Hok as [Hr Hrest].
    destruct r as [ | | | | | d]; try discriminate. cbn [is_ok_record] in Hr.
    cbn [for_each flat_map errors_of warnings_of info_of names_of].
    unfold bind. rewrite (checker_state e d v Hr), (IH _ Hrest).
    rewrite environment_grow, environment_add_names.
    rewrite add_names_grow, grow_grow, <- add_names_app. reflexivity.
Qed.

Lemma records_of_list (e : entity) (c : list (value * value)) (items : list value) :
  records_of e (VDict c) = Some items ->
  dict_get_or (config_key e) (VList []) c = VList items.
Proof.
  unfold records_of.
  destruct (dict_get_or (config_key e) (VList []) c); try discriminate.
  now intros [= ->].
Qed.

Lemma validator_of_validated (e : entity) (config : value) (items : list value)
    (v : validator) :
  config_ok e config = true ->
  records_of e config = Some items ->
  validator_of e config v = (Returned tt, validated e items v).
Proof.
  intros Hok Hrec. unfold config_ok in Hok. rewrite Hrec in Hok.
  destruct config as [ | | | | | c]; try discriminate.
  rewrite (validator_of_list e c items v (records_of_list e c items Hrec)).
  unfold validated. destruct items as [|r rest]; [destruct (guards_empty e); reflexivity|].
  unfold bind. rewrite (records_loop_state e (r :: rest) v Hok).
  rewrite append_info_grow, grow_grow, !app_nil_r. reflexivity.
Qed.

Lemma errors_validated (e : entity) (items : list value) (v : validator) :
  errors (validated e items v) = errors v ++ flat_map (errors_of e) items.
Proof.
  unfold validated. destruct items as [|r rest].
  - destruct (guards_empty e); proj; simpl; now rewrite ?app_nil_r.
  - now proj.
Qed.

Lemma get_set_validated (e : entity) (k : name_set) (items : list value)
    (v : validator) :
  get_set k (validated e items v)
  = add_all (names_for k (flat_map (names_of e) items)) (get_set k v).
Proof.
  unfold validated. destruct items as [|r rest].
  - destruct (guards_empty e); now proj.
  - rewrite get_set_grow. apply get_set_add_names.
Qed.

(** X1.  On a well-shaped document the validator of every kind returns,
    and what it leaves is the validator it started from with, record by
    record in order, the record's own errors, warnings and notes appended and
    the record's names added, and then the count of the records as the last
    note.  What a record contributes depends on the record and on the active
    environment only, not on what has been found before. *)
Theorem validator_findings_by_record :
  forall (e : entity) (config : value) (items : list value) (v : validator),
    config_ok e config = true ->
    records_of e config = Some items ->
    validator_of e config v = (Returned tt, validated e items v) /\
    (items <> [] ->
     errors (validated e items v) = errors v ++ flat_map (errors_of e) items /\
     warnings (validated e items v)
     = warnings v ++ flat_map (warnings_of (environment v) e) items /\
     info (validated e items v)
     = info v ++ flat_map (info_of (environment v) e) items
              ++ [count_message e (List.length items)] /\
     forall k, get_set k (validated e items v)
               = add_all (names_for k (flat_map (names_of e) items)) (get_set k v)).
Proof.
  intros e config items v Hok Hrec. split.
  - now apply validator_of_validated.
  - intros Hne. destruct items as [|r rest]; [contradiction|].
    unfold validated. proj. repeat split; try reflexivity.
    intros k. rewrite get_set_grow. apply get_set_add_names.
Qed.

(* ===================================================================== *)
(** ** Records that give no error *)
(* ===================================================================== *)

Lemma if_msg_nil (b : bool) (m : string) : if_msg b m = [] <-> b = false.
Proof. destruct b; simpl; split; intros H; congruence. Qed.

Lemma field_findings_nil (name : value) (ins : list (value * value)) (f : string) :
  field_findings name ins f = [] <-> secret_ok ins f = true.
Proof.
  unfold field_findings, secret_ok. destruct (dict_get f ins) as [raw|].
  - destruct (startswith (str raw) "{{ "), (startswith (str raw) "!vault");
      simpl; split; intros H; congruence.
  - split; reflexivity.
Qed.

Lemma flat_map_nil {A B : Type} (f : A -> list B) (l : list A) :
  flat_map f l = [] <-> forall x, In x l -> f x = [].
Proof.
  induction l as [|a l IH]; simpl.
  - split; [intros _ x []|reflexivity].
  - split.
    + intros H. apply app_eq_nil in H. destruct H as [Ha Hl].
      intros x [<-|Hx]; [exact Ha|]. now apply IH.
    + intros H. rewrite (H a) by now left. simpl. apply IH.
      intros x Hx. apply H. now right.
Qed.

Lemma secret_findings_nil (name : value) (ins : list (value * value))
    (fields : list string) :
  flat_map (field_findings name ins) fields = []
  <-> forallb (secret_ok ins) fields = true.
Proof.
  rewrite flat_map_nil, forallb_forall. split; intros H x Hx.
  - apply (field_findings_nil name). auto.
  - apply field_findings_nil. auto.
Qed.

Ltac nil_cases :=
  repeat match goal with
         | |- context [dict_has ?f ?d] => destruct (dict_has f d)
         end;
  simpl; split; intros H; try discriminate; try reflexivity.

(** The errors of a record are none exactly when it is clean. *)
Lemma record_errors_nil (e : entity) (d : list (value * value)) :
  record_ok e d = true ->
  record_errors e d = [] <-> clean_record e d = true.
Proof.
  intros Hok. unfold clean_record, has_required.
  destruct e;
    cbn beta iota zeta delta [record_errors required_fields policy_ok forallb fst
                              record_ok] in *;
    unfold if_msg.
  - nil_cases.
  - nil_cases.
  - unfold credential_errors.
    rewrite andb_true_iff, <- secret_findings_nil with (name := name_of d).
    destruct (flat_map (field_findings (name_of d) (inputs_of d)) sensitive_fields).
    + nil_cases; tauto || (destruct H; discriminate).
    + split; intros H.
      * destruct (negb (dict_has "name" d)), (negb (dict_has "credential_type" d)),
          (negb (dict_has "organization" d)); discriminate.
      * destruct H; discriminate.
  - apply andb_true_iff in Hok. destruct Hok as [_ Hi]. unfold dict_has.
    destruct (dict_get "name" d);
      (destruct (dict_get "image" d) as [[ | | | image | | ]|]; try discriminate);
      try (destruct (str_contains ":latest" image));
      simpl; split; intros H; try discriminate; reflexivity.
  - nil_cases.
  - nil_cases.
  - unfold job_template_errors, dict_has.
    destruct (dict_get "name" d), (dict_get "project" d),
      (dict_get "inventory" d), (dict_get "playbook" d);
      simpl; split; intros H; try discriminate; reflexivity.
  - nil_cases.
  - nil_cases.
Qed.

Lemma errors_of_nil (e : entity) (r : value) :
  is_ok_record e r = true -> errors_of e r = [] <-> is_clean e r = true.
Proof.
  destruct r as [ | | | | | d]; try discriminate. apply record_errors_nil.
Qed.

(** X2.  On a well-shaped document a validator leaves the errors as they
    were if and only if every record is clean: it has all the required
    fields of its kind, and, for a credential, no sensitive input in
    plaintext, for an execution environment, no [:latest] in its image. *)
Theorem clean_document_adds_no_error :
  forall (e : entity) (config : value) (items : list value) (v : validator),
    config_ok e config = true ->
    records_of e config = Some items ->
    errors (after (validator_of e config) v) = errors v
    <-> forallb (is_clean e) items = true.
Proof.
  intros e config items v Hok Hrec. unfold after.
  rewrite (validator_of_validated e config items v Hok Hrec). cbn [snd].
  rewrite errors_validated.
  unfold config_ok in Hok. rewrite Hrec in Hok. rewrite forallb_forall in Hok.
  rewrite forallb_forall. split.
  - intros H r Hr.
    assert (N : flat_map (errors_of e) items = []).
    { apply (app_inv_head (errors v)). now rewrite app_nil_r. }
    apply errors_of_nil; [auto|]. now apply (proj1 (flat_map_nil _ _) N).
  - intros H.
    assert (N : flat_map (errors_of e) items = []).
    { apply flat_map_nil. intros r Hr. apply errors_of_nil; auto. }
    rewrite N. apply app_nil_r.
Qed.

(* ===================================================================== *)
(** ** One error per missing field *)
(* ===================================================================== *)

Lemma count_if_msg_same (b : bool) (m : string) :
  count_occ string_dec (if_msg b m) m = if b then 1 else 0.
Proof.
  destruct b; simpl; [|reflexivity].
  destruct (string_dec m m); [reflexivity|contradiction].
Qed.

Lemma count_if_msg_other (b : bool) (m' m : string) :
  m' <> m -> count_occ string_dec (if_msg b m') m = 0.
Proof.
  intros N. destruct b; simpl; [|reflexivity].
  destruct (string_dec m' m); [contradiction|reflexivity].
Qed.

Lemma count_singleton_same (m : string) : count_occ string_dec [m] m = 1.
Proof. simpl. destruct (string_dec m m); [reflexivity|contradiction]. Qed.

Lemma count_singleton_other (m' m : string) :
  m' <> m -> count_occ string_dec [m'] m = 0.
Proof. intros N. simpl. destruct (string_dec m' m); [contradiction|reflexivity]. Qed.

Lemma count_secret_findings (name : value) (ins : list (value * value))
    (fields : list string) (m : string) :
  (forall f, unencrypted_message name f <> m) ->
  count_occ string_dec (flat_map (field_findings name ins) fields) m = 0.
Proof.
  intros N. apply count_occ_not_In. intros Hin. apply in_flat_map in Hin.
  destruct Hin as (f & _ & Hf). apply in_field_findings in Hf.
  apply (N f). now symmetry.
Qed.

(** Counts a message in a list built of guarded messages: the guard of the
    message itself is known, the other messages differ from it. *)
Ltac count_messages :=
  repeat match goal with
         | |- context [if ?b then [?m] else []] =>
             change (if b then [m] else []) with (if_msg b m)
         end;
  rewrite ?count_occ_app;
  repeat first
    [ rewrite count_if_msg_same
    | rewrite count_singleton_same
    | rewrite count_if_msg_other by (let E := fresh in intros E; differ E)
    | rewrite count_singleton_other by (let E := fresh in intros E; differ E)
    | rewrite count_secret_findings
        by (let E := fresh in
            intros ? E; unfold unencrypted_message in E; differ E) ];
  cbn [count_occ negb]; try reflexivity.

Ltac pick_required Hin :=
  repeat (destruct Hin as [Hin|Hin];
          [apply pair_equal_spec in Hin; destruct Hin as [<- <-]|]);
  try contradiction.

Lemma required_counted (e : entity) (d : list (value * value)) (f m : string) :
  record_ok e d = true ->
  In (f, m) (required_fields e d) ->
  count_occ string_dec (record_errors e d) m = if dict_has f d then 0 else 1.
Proof.
  intros Hok Hin.
  destruct (dict_has f d) eqn:Hd;
  (assert (Ef := Hd); unfold dict_has in Ef;
   destruct (dict_get f d) as [x|] eqn:Ex; try discriminate Ef; clear Ef;
   destruct e; cbn [required_fields] in Hin; pick_required Hin;
    cbn beta iota zeta delta [record_errors record_ok] in *;
    unfold credential_errors, job_template_errors, missing_project_message,
      missing_inventory_message, latest_message;
    rewrite ?Hd, ?Ex; cbn [negb];
    try (apply andb_true_iff in Hok; destruct Hok as [_ Hok]);
    try rewrite Ex in Hok;
    try match goal with
        | |- context [match x with VStr _ => _ | _ => _ end] =>
            destruct x as [ | | | ? | | ]; try discriminate Hok
        end;
    repeat match goal with
           | |- context [match dict_get ?k ?y with Some _ => _ | None => _ end] =>
               let E := fresh "E" in
               destruct (dict_get k y) as [[ | | | ? | | ]|] eqn:E;
               try discriminate Hok
           end;
    count_messages).
Qed.

(** X3.  A record of an acceptable shape is processed to the end, and for
    each required field of its kind the errors it appends hold the error of
    that field exactly once when the field is missing and not at all when it
    is there. *)
Theorem one_error_per_missing_field :
  forall (e : entity) (d : list (value * value)) (f m : string) (v : validator),
    record_ok e d = true ->
    In (f, m) (required_fields e d) ->
    exists v' appended,
      checker e (VDict d) v = (Returned tt, v') /\
      errors v' = errors v ++ appended /\
      count_occ string_dec appended m = if dict_has f d then 0 else 1.
Proof.
  intros e d f m v Hok Hin.
  eexists. exists (record_errors e d). split; [apply (checker_state e d v Hok)|].
  split; [now proj|]. now apply required_counted.
Qed.

(* ===================================================================== *)
(** ** Findings that depend on the environment *)
(* ===================================================================== *)

Lemma after_checker (e : entity) (d : list (value * value)) (v : validator) :
  record_ok e d = true ->
  after (checker e (VDict d)) v
  = grow (record_errors e d)
      (record_warnings (environment v) e d)
      (record_info (environment v) e d)
      (add_names (record_names e d) v).
Proof. intros H. unfold after. now rewrite (checker_state e d v H). Qed.

(** X4.  Outside [prod] no record of any kind appends a note, and a job
    template or an execution environment appends no warning: the findings
    about prompts, the fact cache, image digests and enabled schedules are
    for production only. *)
Theorem production_only_findings :
  forall (e : entity) (d : list (value * value)) (v : validator),
    record_ok e d = true ->
    environment v <> "prod" ->
    info (after (checker e (VDict d)) v) = info v /\
    (e = JobTemplate \/ e = ExecutionEnvironment ->
     warnings (after (checker e (VDict d)) v) = warnings v).
Proof.
  intros e d v Hok Henv. rewrite (after_checker e d v Hok).
  apply String.eqb_neq in Henv. proj. split.
  - destruct e; cbn [record_info]; rewrite ?app_nil_r; try reflexivity.
    rewrite Henv, andb_false_r. simpl. apply app_nil_r.
  - intros [->| ->]; cbn [record_warnings].
    + rewrite Henv. apply app_nil_r.
    + destruct (dict_get "image" d) as [[ | | | image | | ]|];
        rewrite ?app_nil_r; try reflexivity.
      unfold ee_warnings. rewrite Henv, andb_false_r. apply app_nil_r.
Qed.

(** X5.  In [prod] a job template of an acceptable shape gets the warning
    about variable prompts exactly when [ask_variables_on_launch] is
    truthy, and the warning about the fact cache exactly when
    [use_fact_cache] is absent or falsy; it gets no other warning. *)
Theorem job_template_production_warnings :
  forall (d : list (value * value)) (v : validator),
    job_template_ok d = true ->
    environment v = "prod" ->
    exists v',
      check_job_template (VDict d) v = (Returned tt, v') /\
      warnings v'
      = warnings v
        ++ (if truthy (dict_get_or "ask_variables_on_launch" (VBool false) d)
            then [prompts_message (name_of d)] else [])
        ++ (if truthy (dict_get_or "use_fact_cache" (VBool false) d)
            then [] else [fact_cache_message (name_of d)]).
Proof.
  intros d v Hok Henv. eexists. split; [apply (checker_state JobTemplate d v Hok)|].
  proj. cbn [record_warnings]. rewrite Henv. cbn [String.eqb Ascii.eqb Bool.eqb].
  unfold if_msg, prompts_message, fact_cache_message.
  destruct (truthy (dict_get_or "use_fact_cache" (VBool false) d)); reflexivity.
Qed.

(** X6.  A schedule is processed to the end whatever its fields; it gets
    the note that it is live in production exactly when the environment is
    [prod] and [enabled] is absent or truthy, and never a warning. *)
Theorem schedule_enabled_note :
  forall (d : list (value * value)) (v : validator),
    exists v' notes,
      check_schedule (VDict d) v = (Returned tt, v') /\
      info v' = info v ++ notes /\
      warnings v' = warnings v /\
      (In (enabled_message (name_of d)) notes
       <-> environment v = "prod" /\
           (dict_get "enabled" d = None \/
            exists x, dict_get "enabled" d = Some x /\ truthy x = true)).
Proof.
  intros d v. eexists. exists (record_info (environment v) Schedule d).
  split; [apply (checker_state Schedule d v eq_refl)|].
  proj. split; [reflexivity|]. split; [reflexivity|].
  cbn [record_info]. unfold if_msg, enabled_message, dict_get_or.
  destruct (String.eqb_spec (environment v) "prod") as [E|N].
  - destruct (dict_get "enabled" d) as [x|].
    + destruct (truthy x) eqn:T; simpl; split.
      * intros _. split; [exact E|]. right. eauto.
      * intros _. now left.
      * intros [].
      * intros [_ [H|(y & [= <-] & H)]]; congruence.
    + simpl. split; [intros _|intros _; now left]. split; [exact E|now left].
  - rewrite andb_false_r. simpl. split; [intros []|intros [H _]; contradiction].
Qed.

(** X7.  A workflow template is processed to the end whatever its fields,
    changes no set, and is warned about having no nodes exactly when it has
    neither [simplified_workflow_nodes] nor [workflow_nodes]. *)
Theorem workflow_nodes_warning :
  forall (d : list (value * value)) (v : validator),
    exists v',
      check_workflow_template (VDict d) v = (Returned tt, v') /\
      warnings v'
      = warnings v
        ++ (if dict_has "simplified_workflow_nodes" d || dict_has "workflow_nodes" d
            then [] else [no_nodes_message (name_of d)]) /\
      (forall k, get_set k v' = get_set k v).
Proof.
  intros d v. eexists.
  split; [apply (checker_state WorkflowTemplate d v eq_refl)|].
  proj. split.
  - cbn [record_warnings]. unfold if_msg, no_nodes_message.
    destruct (dict_has "simplified_workflow_nodes" d), (dict_has "workflow_nodes" d);
      reflexivity.
  - intros k. now rewrite get_set_grow.
Qed.

(* ===================================================================== *)
(** ** Cross references collected from projects and job templates *)
(* ===================================================================== *)

Lemma add_all_app (l1 l2 : list value) (s : pyset) :
  add_all (l1 ++ l2) s = add_all l2 (add_all l1 s).
Proof. apply fold_left_app. Qed.

Lemma prefix_of_add_all (l : list value) (s : pyset) : prefix_of s (add_all l s).
Proof.
  revert s. induction l as [|x l IH]; intros s; simpl.
  - apply prefix_of_refl.
  - eapply prefix_of_trans; [apply prefix_of_set_add|apply IH].
Qed.

Lemma set_mem_add_all (x : value) (l : list value) (s : pyset) :
  hashable x = true -> In x l -> set_mem x (add_all l s) = true.
Proof.
  intros Hx. revert s. induction l as [|y l IH]; intros s Hin; [destruct Hin|].
  simpl. destruct Hin as [->|Hin]; [|now apply IH].
  eapply set_mem_prefix; [apply prefix_of_add_all|].
  now apply set_mem_add_same.
Qed.

Lemma names_for_app (k : name_set) (l1 l2 : list (name_set * value)) :
  names_for k (l1 ++ l2) = names_for k l1 ++ names_for k l2.
Proof. unfold names_for. now rewrite filter_app, map_app. Qed.

Lemma names_for_if_present (k k' : name_set) (o : option value) :
  names_for k (if_present k' o)
  = if name_set_eq_dec k' k then match o with Some x => [x] | None => [] end else [].
Proof.
  destruct o as [x|]; unfold names_for; simpl;
    destruct (name_set_eq_dec k' k); reflexivity.
Qed.

Lemma names_for_same (k : name_set) (l : list value) :
  names_for k (map (pair k) l) = l.
Proof.
  unfold names_for. induction l as [|x l IH]; simpl; [reflexivity|].
  destruct (name_set_eq_dec k k); [|contradiction]. simpl. now rewrite IH.
Qed.

Lemma names_for_other (k k' : name_set) (l : list value) :
  k' <> k -> names_for k (map (pair k') l) = [].
Proof.
  intros N. unfold names_for. induction l as [|x l IH]; simpl; [reflexivity|].
  destruct (name_set_eq_dec k' k); [contradiction|]. exact IH.
Qed.

(** X8.  A project of an acceptable shape is processed to the end: its
    name is added to the defined projects, the value of [credential], if
    there, to the referenced credentials, the value of
    [default_environment], if there, to the referenced execution
    environments; it is warned about its source control exactly when
    [scm_type] is there and is not the text [git], and about the branch
    exactly when [scm_branch] is missing. *)
Theorem project_references_and_warnings :
  forall (d : list (value * value)) (v : validator),
    record_ok Project d = true ->
    exists v',
      check_project (VDict d) v = (Returned tt, v') /\
      defined_projects v' = set_add (name_of d) (defined_projects v) /\
      referenced_credentials v'
      = add_opt (dict_get "credential" d) (referenced_credentials v) /\
      referenced_ees v'
      = add_opt (dict_get "default_environment" d) (referenced_ees v) /\
      warnings v'
      = warnings v
        ++ match dict_get "scm_type" d with
           | Some scm_type =>
               if is_str "git" scm_type then [] else [not_git_message (name_of d)]
           | None => []
           end
        ++ (if dict_has "scm_branch" d then [] else [no_branch_message (name_of d)]).
Proof.
  intros d v Hok. eexists. split; [apply (checker_state Project d v Hok)|].
  change defined_projects with (get_set DefinedProjects).
  change referenced_credentials with (get_set ReferencedCredentials).
  change referenced_ees with (get_set ReferencedEes).
  rewrite !get_set_grow, !get_set_add_names, warnings_grow, warnings_add_names.
  cbn [record_names record_warnings].
  rewrite !names_for_app, !names_for_if_present.
  repeat split.
  - destruct (dict_get "credential" d), (dict_get "default_environment" d);
      reflexivity.
  - destruct (dict_get "credential" d), (dict_get "default_environment" d);
      reflexivity.
  - destruct (dict_get "scm_type" d) as [t|]; unfold if_msg, not_git_message,
      no_branch_message;
      try destruct (is_str "git" t); destruct (dict_has "scm_branch" d); reflexivity.
Qed.

(** X9.  A job template of an acceptable shape adds to the referenced
    credentials the names of its [credentials] in order: a text item as it
    is, a mapping item by its [name]; items of any other kind and mappings
    without [name] are passed over.  Every such name is in the set
    afterwards, and no set of defined names is changed. *)
Theorem job_template_credential_references :
  forall (d : list (value * value)) (v : validator),
    job_template_ok d = true ->
    exists v',
      check_job_template (VDict d) v = (Returned tt, v') /\
      referenced_credentials v'
      = add_all (template_credential_names (template_credentials d))
          (referenced_credentials v) /\
      (forall x, In x (template_credential_names (template_credentials d)) ->
                 hashable x = true ->
                 set_mem x (referenced_credentials v') = true) /\
      (forall e k, defined_set e = Some k -> get_set k v' = get_set k v).
Proof.
  intros d v Hok. eexists. split; [apply (checker_state JobTemplate d v Hok)|].
  change referenced_credentials with (get_set ReferencedCredentials).
  assert (E : forall k,
             get_set k (grow (record_errors JobTemplate d)
                          (record_warnings (environment v) JobTemplate d)
                          (record_info (environment v) JobTemplate d)
                          (add_names (record_names JobTemplate d) v))
             = add_all (names_for k (record_names JobTemplate d)) (get_set k v)).
  { intros k. rewrite get_set_grow. apply get_set_add_names. }
  assert (N : names_for ReferencedCredentials (record_names JobTemplate d)
              = template_credential_names (template_credentials d)).
  { cbn [record_names].
    rewrite !names_for_app, !names_for_if_present, names_for_same.
    simpl. now rewrite app_nil_r. }
  split; [|split].
  - now rewrite E, N.
  - intros x Hx Hh. rewrite E, N. now apply set_mem_add_all.
  - intros e k Hk. rewrite E. cbn [record_names].
    rewrite !names_for_app, !names_for_if_present.
    destruct e; try discriminate; injection Hk as <-;
      (rewrite names_for_other by discriminate); reflexivity.
Qed.

(* ===================================================================== *)
(** ** Files, the driver and the exit status *)
(* ===================================================================== *)

(** X10.  A validator reads its document through its recognized key
    only: two documents with the same value (or none) under that key are
    validated alike, whatever else they hold. *)
Theorem only_recognized_key_matters :
  forall (e : entity) (c c' : list (value * value)) (v : validator),
    dict_get (config_key e) c = dict_get (config_key e) c' ->
    validator_of e (VDict c) v = validator_of e (VDict c') v.
Proof.
  intros e c c' v H.
  destruct e; cbn [validator_of config_key] in *;
    unfold validate_organizations, validate_teams, validate_credentials,
      validate_execution_environments, validate_projects,
      validate_inventories, validate_job_templates,
      validate_workflow_templates, validate_schedules, config_get, dict_get_or;
    rewrite H; reflexivity.
Qed.

(** X11.  One file of an environment, by what is at its path: nothing, and
    nothing happens; a file that does not parse, and exactly one error
    naming the path is appended and the validator is not run; a directory,
    and [IsADirectoryError] escapes; a document, and the validator runs on
    it if it is truthy and is skipped otherwise.  The warning of
    [load_yaml_file] for a file not found is never reached from here. *)
Theorem config_file_cases :
  forall (fs : filesystem) (dir : path) (entry : string * (value -> M unit))
         (v : validator),
    validate_config_file fs dir entry v
    = match fs (path_str (path_div dir (fst entry))) with
      | NoEntry => (Returned tt, v)
      | Directory => (Raised IsADirectoryError, v)
      | File (YamlError msg) =>
          (Returned tt,
           grow [yaml_error_message (path_str (path_div dir (fst entry))) msg] [] [] v)
      | File (Document content) =>
          if truthy content then snd entry content v else (Returned tt, v)
      end.
Proof.
  intros fs dir entry v.
  unfold validate_config_file, path_exists, load_yaml_file.
  destruct (fs (path_str (path_div dir (fst entry)))) as [ | | [msg|content]];
    try reflexivity.
  - unfold bind. rewrite append_error_grow. reflexivity.
  - unfold bind, ret. destruct (truthy content) eqn:T; simpl.
    + rewrite T. reflexivity.
    + reflexivity.
Qed.

(** X12.  When the directory of the environment does not exist,
    [validate_environment] returns [False] having appended exactly one
    error that names the path as [pathlib] renders it; no file is read, no
    validator and no reconciliation runs. *)
Theorem missing_environment_directory :
  forall (fs : filesystem) (env : string) (v : validator),
    path_exists fs (get_group_vars_path (base_path v) env) = false ->
    validate_environment fs env v
    = (Returned false,
       grow [not_found_message (path_str (get_group_vars_path (base_path v) env))]
            [] [] v).
Proof.
  intros fs env v H. unfold validate_environment, bind, self. rewrite H.
  cbn [negb]. rewrite append_error_grow. reflexivity.
Qed.

Lemma validate_environment_exact (fs : filesystem) (env : string) (v : validator) :
  path_exists fs (get_group_vars_path (base_path v) env) = true ->
  validate_environment fs env v
  = match validate_config_files fs (get_group_vars_path (base_path v) env) v with
    | (Returned _, v1) => (Returned true, grow [] (dangling_warnings v1) [] v1)
    | (Raised e, v1) => (Raised e, v1)
    end.
Proof.
  intros H.
  unfold validate_environment, bind at 1, self. rewrite H. cbn [negb].
  unfold bind at 1.
  destruct (validate_config_files fs (get_group_vars_path (base_path v) env) v)
    as [[[]|e] v1]; [|reflexivity].
  unfold bind. rewrite validate_references_exact. reflexivity.
Qed.

(** X13.  When the directory exists, [validate_environment] runs the
    validators of the files and then the reconciliation.  If the validators
    return, it returns [True]; the errors, the notes and the sets are those
    the validators left, and the warnings are those of the validators
    followed by the warnings of the dangling references, which are, in the
    order the interpreter walks the four differences, one per member of
    each.  If a validator raises, the exception escapes and no
    reconciliation is made. *)
Theorem environment_then_references :
  forall (fs : filesystem) (env : string) (v : validator),
    path_exists fs (get_group_vars_path (base_path v) env) = true ->
    match validate_config_files fs (get_group_vars_path (base_path v) env) v with
    | (Returned _, v1) =>
        exists dangling : list string,
          validate_environment fs env v = (Returned true, grow [] dangling [] v1) /\
          dangling = dangling_warnings v1 /\
          Permutation dangling
            (flat_map (fun k => map (dangling_message k) (undefined_names k v1))
                      ref_kinds)
    | (Raised e, v1) => validate_environment fs env v = (Raised e, v1)
    end.
Proof.
  intros fs env v H. rewrite (validate_environment_exact fs env v H).
  destruct (validate_config_files fs (get_group_vars_path (base_path v) env) v)
    as [[[]|e] v1]; [|reflexivity].
  exists (dangling_warnings v1). split; [reflexivity|]. split; [reflexivity|].
  apply dangling_warnings_permute.
Qed.

Lemma main_loop_all_returned (fs : filesystem) (base : path)
    (envs : list string) (p : process) :
  (forall env, In env envs -> exists r, solo fs base env = Returned r) ->
  exists reports,
    map (solo fs base) envs = map Returned reports /\
    main_loop fs base envs p
    = (Returned tt,
       mkProcess (validator_var (snd (main_loop fs base envs p)))
         (all_passed p && forallb passed reports)
         (console p ++ reports)).
Proof.
  revert p. induction envs as [|env rest IH]; intros p H.
  - exists []. split; [reflexivity|]. simpl.
    rewrite andb_true_r, app_nil_r. now destruct p.
  - destruct (H env (or_introl eq_refl)) as [r Hr].
    pose proof (main_step_solo fs base env p) as Hs. rewrite Hr in Hs.
    destruct Hs as (H1 & H2 & H3).
    cbn [main_loop].
    destruct (main_step fs base env p) as [o p'] eqn:E. simpl in H1, H2, H3.
    subst o.
    destruct (IH p' (fun e He => H e (or_intror He))) as (reports & Hm & Hl).
    exists (r :: reports). split; [simpl; now rewrite Hr, Hm|].
    rewrite Hl at 1. rewrite H2, H3. simpl.
    rewrite <- app_assoc, andb_assoc. reflexivity.
Qed.

(** X14.  When every requested environment is validated without an
    exception, [main] shows one report per environment and exits with
    status 0 if every report has passed and with status 1 otherwise. *)
Theorem exit_status_of_main :
  forall (fs : filesystem) (base : path) (all_environments : bool) (env : string),
    (forall e, In e (environments_of all_environments env) ->
               exists r, solo fs base e = Returned r) ->
    exists reports,
      map (solo fs base) (environments_of all_environments env)
      = map Returned reports /\
      main fs base all_environments env
      = (Returned (if forallb passed reports then 0%Z else 1%Z), reports).
Proof.
  intros fs base a env H. unfold main.
  destruct (main_loop_all_returned fs base (environments_of a env)
              (mkProcess None true []) H) as (reports & Hm & Hl).
  exists reports. split; [exact Hm|]. rewrite Hl. reflexivity.
Qed.

(* ===================================================================== *)
(** ** Shapes that raise *)
(* ===================================================================== *)

(** X15.  In the six kinds that keep a set of defined names, a record
    whose name is a list or a mapping raises [TypeError] at the first
    statement that touches the validator: nothing is recorded for it. *)
Theorem unhashable_name_raises :
  forall (e : entity) (k : name_set) (d : list (value * value)) (v : validator),
    defined_set e = Some k ->
    hashable (name_of d) = false ->
    checker e (VDict d) v = (Raised TypeError, v).
Proof.
  intros e k d v Hk Hn.
  destruct e; try discriminate Hk; cbn [checker];
    unfold check_organization, check_team, check_credential,
      check_execution_environment, check_project, check_inventory,
      bind, add_name;
    rewrite Hn; reflexivity.
Qed.

Lemma checker_not_mapping (e : entity) (r : value) (v : validator) :
  is_mapping r = false -> checker e r v = (Raised AttributeError, v).
Proof.
  intros H. destruct r; try discriminate H; destruct e; reflexivity.
Qed.

(** X16.  A record that is not a mapping raises [AttributeError] in every
    kind and leaves the validator as it was; so does a document that is not
    a mapping; and a list of records that starts with such a record makes
    the validator of every kind raise before anything is recorded. *)
Theorem non_mapping_raises :
  forall (e : entity) (v : validator),
    (forall r, is_mapping r = false ->
               checker e r v = (Raised AttributeError, v)) /\
    (forall config, is_mapping config = false ->
                    validator_of e config v = (Raised AttributeError, v)) /\
    (forall c r rest,
       dict_get (config_key e) c = Some (VList (r :: rest)) ->
       is_mapping r = false ->
       validator_of e (VDict c) v = (Raised AttributeError, v)).
Proof.
  intros e v. split; [|split].
  - intros r H. now apply checker_not_mapping.
  - intros config H. destruct config; try discriminate H; destruct e; reflexivity.
  - intros c r rest Hc Hr.
    assert (Hl : dict_get_or (config_key e) (VList []) c = VList (r :: rest)).
    { unfold dict_get_or. now rewrite Hc. }
    rewrite (validator_of_list e c (r :: rest) v Hl).
    unfold bind. cbn [for_each]. unfold bind.
    now rewrite (checker_not_mapping e r v Hr).
Qed.

(** X17.  When the recognized key maps to [None], a boolean or a number:
    the validators of organizations and teams take a falsy one for an empty
    collection and append their warning; every other case raises
    [TypeError] at the loop, with nothing recorded. *)
Theorem scalar_under_key :
  forall (e : entity) (c : list (value * value)) (x : value) (v : validator),
    dict_get (config_key e) c = Some x ->
    not_iterable x = true ->
    validator_of e (VDict c) v
    = if guards_empty e && negb (truthy x)
      then (Returned tt, grow [] (zero_warnings e) [] v)
      else (Raised TypeError, v).
Proof.
  intros e c x v Hc Hx.
  destruct e; cbn [validator_of config_key guards_empty zero_warnings] in *;
    unfold validate_organizations, validate_teams, validate_credentials,
      validate_execution_environments, validate_projects,
      validate_inventories, validate_job_templates,
      validate_workflow_templates, validate_schedules, config_get, dict_get_or,
      bind;
    rewrite Hc;
    destruct x as [ | [|] | z | | | ]; try discriminate Hx;
    cbn [ret truthy negb andb lift iter];
    try reflexivity;
    try (apply append_warning_grow);
    destruct (Z.eqb z 0); cbn [negb];
    try reflexivity; apply append_warning_grow.
Qed.

(* ===================================================================== *)
(** ** What a method never touches *)
(* ===================================================================== *)

Section Keeps.
Variable k : name_set.

Lemma keeps_ret {A : Type} (a : A) : keeps k (ret a).
Proof. intros v. reflexivity. Qed.

Lemma keeps_raise {A : Type} (e : exn) : keeps k (@raise A e).
Proof. intros v. reflexivity. Qed.

Lemma keeps_lift {A : Type} (o : outcome A) : keeps k (lift o).
Proof. intros v. reflexivity. Qed.

Lemma keeps_self : keeps k self.
Proof. intros v. reflexivity. Qed.

Lemma keeps_bind {A B : Type} (c : M A) (f : A -> M B) :
  keeps k c -> (forall a, keeps k (f a)) -> keeps k (bind c f).
Proof.
  intros Hc Hf v. unfold after, bind. specialize (Hc v). unfold after in Hc.
  destruct (c v) as [[a|e] v1]; simpl in *; [|assumption].
  rewrite <- Hc. apply Hf.
Qed.

Lemma keeps_when (b : bool) (body : M unit) : keeps k body -> keeps k (when b body).
Proof. intros H. destruct b; [exact H|apply keeps_ret]. Qed.

Lemma keeps_for_each {A : Type} (body : A -> M unit) (items : list A) :
  (forall x, keeps k (body x)) -> keeps k (for_each body items).
Proof.
  intros Hb. induction items as [|x rest IH]; simpl.
  - intros v. reflexivity.
  - apply keeps_bind; auto.
Qed.

Lemma keeps_append_error (m : string) : keeps k (append_error m).
Proof. intros v. unfold after. rewrite append_error_grow. apply get_set_grow. Qed.

Lemma keeps_append_warning (m : string) : keeps k (append_warning m).
Proof. intros v. unfold after. rewrite append_warning_grow. apply get_set_grow. Qed.

Lemma keeps_append_info (m : string) : keeps k (append_info m).
Proof. intros v. unfold after. rewrite append_info_grow. apply get_set_grow. Qed.

Lemma keeps_add_name (k' : name_set) (x : value) :
  k' <> k -> keeps k (add_name k' x).
Proof.
  intros N v. unfold after, add_name. destruct (hashable x); simpl; [|reflexivity].
  rewrite get_put_set. destruct (name_set_eq_dec k k') as [->|_];
    [contradiction|reflexivity].
Qed.

Lemma keeps_config_get (key : string) (config : value) :
  keeps k (config_get key config).
Proof. destruct config; intros v; reflexivity. Qed.
End Keeps.

Create HintDb keep.
#[local] Hint Resolve keeps_ret keeps_raise keeps_lift keeps_self
  keeps_append_error keeps_append_warning keeps_append_info
  keeps_config_get : keep.

(** Walks down a method body; an addition to a set is left as a side
    condition: the set is another one. *)
Ltac keep :=
  repeat first
    [ progress (auto with keep)
    | match goal with
      | |- keeps _ (bind _ _) => apply keeps_bind; [|intros ?]
      | |- keeps _ (when _ _) => apply keeps_when
      | |- keeps _ (for_each _ _) => apply keeps_for_each; intros ?
      | |- keeps _ (add_name _ _) => apply keeps_add_name
      | |- keeps _ (match ?x with _ => _ end) => destruct x
      | |- keeps _ (if ?x then _ else _) => destruct x
      end ].

Ltac other_set H :=
  let E := fresh in
  intros E; apply H; rewrite <- E; simpl; tauto.

Lemma keeps_check_sensitive_field (k : name_set) (name inputs : value)
    (field : string) :
  keeps k (check_sensitive_field name inputs field).
Proof. unfold check_sensitive_field. keep. Qed.

Lemma keeps_note_template_credential (k : name_set) (c : value) :
  k <> ReferencedCredentials -> keeps k (note_template_credential c).
Proof. intros N. unfold note_template_credential. keep; congruence. Qed.

Lemma keeps_checker (e : entity) (k : name_set) (r : value) :
  ~ In k (touched e) -> keeps k (checker e r).
Proof.
  intros H. destruct e; cbn [checker touched] in *.
  - unfold check_organization. keep. other_set H.
  - unfold check_team. keep. other_set H.
  - unfold check_credential. keep; try other_set H.
    apply keeps_check_sensitive_field.
  - unfold check_execution_environment. keep. other_set H.
  - unfold check_project. keep; other_set H.
  - unfold check_inventory. keep. other_set H.
  - unfold check_job_template. keep; try other_set H.
    apply keeps_note_template_credential. intros ->. apply H. simpl. tauto.
  - unfold check_workflow_template. keep.
  - unfold check_schedule. keep.
Qed.

Lemma keeps_validator_of (e : entity) (k : name_set) (config : value) :
  ~ In k (touched e) -> keeps k (validator_of e config).
Proof.
  intros H.
  assert (L : forall items, keeps k (for_each (checker e) items)).
  { intros items. apply keeps_for_each. intros r. now apply keeps_checker. }
  destruct e; cbn [validator_of checker] in *;
    unfold validate_organizations, validate_teams, validate_credentials,
      validate_execution_environments, validate_projects,
      validate_inventories, validate_job_templates,
      validate_workflow_templates, validate_schedules;
    (apply keeps_bind; [apply keeps_config_get|]; intros recs;
     try (destruct (negb (truthy recs)); [apply keeps_append_warning|]);
     apply keeps_bind; [apply keeps_lift|]; intros items;
     apply keeps_bind; [apply L|]; intros _;
     apply keeps_bind; [apply keeps_lift|]; intros n;
     apply keeps_append_info).
Qed.

(** X18.  The validator of a kind adds to the sets of its kind only, on
    every document and also when it raises: organizations, teams,
    credentials, execution environments and inventories to their own set of
    defined names; projects to the defined projects and the referenced
    credentials and execution environments; job templates to the four sets
    of references; workflow templates and schedules to none.  No validator
    changes the active environment or the base path. *)
Theorem validators_touch_their_sets_only :
  forall (e : entity) (config : value) (v : validator),
    (forall k, ~ In k (touched e) ->
               get_set k (after (validator_of e config) v) = get_set k v) /\
    environment (after (validator_of e config) v) = environment v /\
    base_path (after (validator_of e config) v) = base_path v.
Proof.
  intros e config v. split; [|split].
  - intros k H. now apply keeps_validator_of.
  - apply (ext_env _ _ (monotone_validator_of e config v)).
  - apply (ext_base _ _ (monotone_validator_of e config v)).
Qed.

(* ===================================================================== *)
(** ** Secrets that are not texts *)
(* ===================================================================== *)

Lemma append_assoc (a b c : string) : (a +:+ b) +:+ c = a +:+ (b +:+ c).
Proof. induction a as [|x a IH]; simpl; [reflexivity|now rewrite IH]. Qed.

Lemma repr_first_char (x : value) :
  exists c rest, repr x = String c rest /\ c <> " "%char.
Proof.
  destruct x as [ | [|] | z | s | items | entries ]; simpl.
  - eexists _, _. split; [reflexivity|discriminate].
  - eexists _, _. split; [reflexivity|discriminate].
  - eexists _, _. split; [reflexivity|discriminate].
  - unfold str_of_Z, NilZero.string_of_int.
    destruct (Z.to_int z) as [d|d].
    + destruct d; simpl; eexists _, _; (split; [reflexivity|discriminate]).
    + eexists _, _. split; [reflexivity|discriminate].
  - unfold repr_str.
    destruct (has_char "'" s && negb (has_char dquote s));
      eexists _, _; (split; [reflexivity|discriminate]).
  - eexists _, _. split; [reflexivity|discriminate].
  - eexists _, _. split; [reflexivity|discriminate].
Qed.

(** The text of a dict opens with a brace and then the text of its first
    key, or closes at once. *)
Lemma repr_dict_opening (entries : list (value * value)) :
  repr (VDict entries) = "{}"
  \/ exists k tail, repr (VDict entries) = String "{" (repr k +:+ tail).
Proof.
  destruct entries as [|[k y] rest]; [now left|right].
  exists k. cbn [repr map].
  destruct (map _ rest) as [|s l]; cbn [String.concat].
  - eexists. cbn [String.append]. rewrite !append_assoc. reflexivity.
  - eexists. cbn [String.append]. rewrite !append_assoc. reflexivity.
Qed.

Lemma prefix_cons (a b : ascii) (s t : string) :
  String.prefix (String a s) (String b t)
  = if ascii_dec a b then String.prefix s t else false.
Proof. reflexivity. Qed.

Lemma repr_no_brace_space (k : value) (s : string) :
  String.prefix "{ " (repr k +:+ s) = false.
Proof.
  destruct k as [ | [|] | z | t | items | entries ]; try reflexivity.
  - cbn [repr]. unfold str_of_Z, NilZero.string_of_int.
    destruct (Z.to_int z) as [d|d]; [destruct d|]; reflexivity.
  - cbn [repr]. unfold repr_str.
    destruct (has_char "'" t && negb (has_char dquote t)); reflexivity.
  - destruct (repr_dict_opening entries) as [E|(k2 & tail & E)]; rewrite E.
    + reflexivity.
    + destruct (repr_first_char k2) as (c & more & Ec & N). rewrite Ec.
      cbn [String.append]. rewrite !prefix_cons.
      destruct (ascii_dec "{" "{") as [_|C]; [|contradiction].
      destruct (ascii_dec " " c) as [<-|_]; [contradiction|reflexivity].
Qed.

(** The text of a value that is not a text starts with neither marker. *)
Lemma str_not_marked (x : value) :
  is_text x = false ->
  startswith (str x) "{{ " = false /\ startswith (str x) "!vault" = false.
Proof.
  intros H. destruct x as [ | [|] | z | s | items | entries ];
    try discriminate H; try (split; reflexivity).
  - unfold str, repr, str_of_Z, NilZero.string_of_int.
    destruct (Z.to_int z) as [d|d]; [destruct d|]; split; reflexivity.
  - unfold str, startswith.
    destruct (repr_dict_opening entries) as [E|(k & tail & E)]; rewrite E.
    + split; reflexivity.
    + split; [|reflexivity].
      rewrite prefix_cons.
      destruct (ascii_dec "{" "{") as [_|C]; [|contradiction].
      apply repr_no_brace_space.
Qed.

(** X19.  A sensitive input of a credential whose value is not a text (a
    number, a boolean, [None], a list, a mapping) is always reported as
    unencrypted: its text never starts with one of the two markers. *)
Theorem non_text_secret_is_reported :
  forall (d ins : list (value * value)) (field : string) (raw : value)
         (v : validator),
    hashable (name_of d) = true ->
    dict_get_or "inputs" (VDict []) d = VDict ins ->
    In field sensitive_fields ->
    dict_get field ins = Some raw ->
    is_text raw = false ->
    exists v',
      check_credential (VDict d) v = (Returned tt, v') /\
      In (unencrypted_message (name_of d) field) (errors v').
Proof.
  intros d ins field raw v Hn Hi Hf Hraw Ht.
  eexists. split; [apply (check_credential_exact d ins v Hn Hi)|].
  proj. apply in_or_app. right.
  apply unencrypted_in_credential_errors; [exact Hf|].
  unfold field_findings. rewrite Hraw.
  destruct (str_not_marked raw Ht) as [-> ->]. now left.
Qed.

(* ===================================================================== *)
(** ** The same name twice *)
(* ===================================================================== *)

Lemma set_add_present (x : value) (s : pyset) :
  set_mem x s = true -> set_add x s = s.
Proof. intros H. unfold set_add. now rewrite H. Qed.

Lemma names_for_defined (e : entity) (k : name_set) (d : list (value * value)) :
  defined_set e = Some k -> names_for k (record_names e d) = [name_of d].
Proof.
  intros H. destruct e; try discriminate H; injection H as <-;
    cbn [record_names]; try reflexivity.
  rewrite !names_for_app, !names_for_if_present. reflexivity.
Qed.

(** X20.  Two records of a kind that carry the same name: both are
    processed, the set of defined names of the kind is after the second what
    it was after the first, and the errors appended are those of the first
    followed by those of the second; a name defined twice is not reported. *)
Theorem duplicate_names_not_reported :
  forall (e : entity) (k : name_set) (d1 d2 : list (value * value))
         (v : validator),
    defined_set e = Some k ->
    record_ok e d1 = true -> record_ok e d2 = true ->
    eqv (name_of d2) (name_of d1) = true ->
    exists v1 v2,
      checker e (VDict d1) v = (Returned tt, v1) /\
      checker e (VDict d2) v1 = (Returned tt, v2) /\
      get_set k v2 = get_set k v1 /\
      get_set k v1 = set_add (name_of d1) (get_set k v) /\
      errors v2 = errors v ++ record_errors e d1 ++ record_errors e d2.
Proof.
  intros e k d1 d2 v Hk H1 H2 Heq.
  assert (Hh1 : hashable (name_of d1) = true).
  { destruct e; try discriminate Hk; cbn [record_ok] in H1;
      repeat (apply andb_true_iff in H1; destruct H1 as [H1 ?]); assumption. }
  assert (Hh2 : hashable (name_of d2) = true).
  { destruct e; try discriminate Hk; cbn [record_ok] in H2;
      repeat (apply andb_true_iff in H2; destruct H2 as [H2 ?]); assumption. }
  assert (G : forall d w, get_set k
                (grow (record_errors e d) (record_warnings (environment w) e d)
                   (record_info (environment w) e d)
                   (add_names (record_names e d) w))
              = set_add (name_of d) (get_set k w)).
  { intros d w. rewrite get_set_grow, get_set_add_names.
    now rewrite (names_for_defined e k d Hk). }
  eexists. eexists.
  split; [apply (checker_state e d1 v H1)|].
  split; [apply (checker_state e d2 _ H2)|].
  rewrite !G. split; [|split; [reflexivity|]].
  - apply set_add_present.
    rewrite (set_mem_congr (name_of d2) (name_of d1)); auto.
    + now apply set_mem_add_same.
    + now apply eqv_canon.
  - proj. now rewrite app_assoc.
Qed.

(* ===================================================================== *)
(** ** The verdict on an environment *)
(* ===================================================================== *)

Lemma config_files_entities :
  config_files = map (fun e => (file_name e, validator_of e)) entities.
Proof. reflexivity. Qed.

Lemma validate_config_file_errors (fs : filesystem) (dir : path) (e : entity)
    (v : validator) :
  file_ok fs dir e = true ->
  exists v',
    validate_config_file fs dir (file_name e, validator_of e) v = (Returned tt, v') /\
    errors v' = errors v ++ flat_map (errors_of e) (records_in fs dir e).
Proof.
  unfold file_ok, records_in, validate_config_file, path_exists, load_yaml_file.
  cbn [fst snd].
  destruct (fs (path_str (path_div dir (file_name e)))) as [ | | [msg|c]]; try discriminate.
  - intros _. exists v. split; [reflexivity|]. simpl. now rewrite app_nil_r.
  - intros H. unfold bind, ret. destruct (truthy c) eqn:T; cbn [negb orb] in H.
    + rewrite T. cbn [when].
      unfold config_ok in H.
      destruct (records_of e c) as [items|] eqn:R; [|discriminate].
      assert (Hok : config_ok e c = true) by (unfold config_ok; now rewrite R).
      rewrite (validator_of_validated e c items v Hok R).
      eexists. split; [reflexivity|]. apply errors_validated.
    + cbn [truthy when]. exists v. split; [reflexivity|]. simpl.
      now rewrite app_nil_r.
Qed.

Lemma validate_config_files_errors (fs : filesystem) (dir : path)
    (l : list entity) (v : validator) :
  forallb (file_ok fs dir) l = true ->
  exists v',
    for_each (validate_config_file fs dir)
      (map (fun e => (file_name e, validator_of e)) l) v = (Returned tt, v') /\
    errors v' = errors v ++ errors_in fs dir l.
Proof.
  revert v. induction l as [|e l IH]; intros v H.
  - exists v. split; [reflexivity|]. simpl. now rewrite app_nil_r.
  - cbn [forallb] in H. apply andb_true_iff in H. destruct H as [He Hl].
    destruct (validate_config_file_errors fs dir e v He) as (v1 & E1 & H1).
    destruct (IH v1 Hl) as (v2 & E2 & H2).
    exists v2. split.
    + cbn [map for_each]. unfold bind. now rewrite E1.
    + rewrite H2, H1. unfold errors_in. cbn [flat_map]. now rewrite app_assoc.
Qed.

Lemma errors_in_nil (fs : filesystem) (dir : path) (l : list entity) :
  forallb (file_ok fs dir) l = true ->
  errors_in fs dir l = []
  <-> forall e, In e l -> forallb (is_clean e) (records_in fs dir e) = true.
Proof.
  intros Hok. unfold errors_in. rewrite flat_map_nil.
  rewrite forallb_forall in Hok.
  split; intros H e He; specialize (H e He); specialize (Hok e He).
  - rewrite flat_map_nil in H. rewrite forallb_forall. intros r Hr.
    apply errors_of_nil; [|auto].
    unfold file_ok in Hok. unfold records_in in Hr.
    destruct (fs (path_str (path_div dir (file_name e)))) as [ | | [msg|c]];
      try contradiction.
    destruct (truthy c); [|contradiction]. cbn [negb orb] in Hok.
    unfold config_ok in Hok. destruct (records_of e c); [|contradiction].
    rewrite forallb_forall in Hok. auto.
  - rewrite flat_map_nil. rewrite forallb_forall in H. intros r Hr.
    apply errors_of_nil; [|auto].
    unfold file_ok in Hok. unfold records_in in Hr.
    destruct (fs (path_str (path_div dir (file_name e)))) as [ | | [msg|c]];
      try contradiction.
    destruct (truthy c); [|contradiction]. cbn [negb orb] in Hok.
    unfold config_ok in Hok. destruct (records_of e c); [|contradiction].
    rewrite forallb_forall in Hok. auto.
Qed.

Lemma validate_environment_returned (fs : filesystem) (env : string)
    (v v1 : validator) :
  path_exists fs (get_group_vars_path (base_path v) env) = true ->
  validate_config_files fs (get_group_vars_path (base_path v) env) v
  = (Returned tt, v1) ->
  validate_environment fs env v
  = (Returned true, grow [] (dangling_warnings v1) [] v1).
Proof.
  intros H E. unfold validate_environment. unfold bind at 1. unfold self.
  rewrite H. cbn [negb]. unfold bind at 1. rewrite E.
  unfold bind. rewrite validate_references_exact. reflexivity.
Qed.

(** X21.  An environment whose directory exists and whose nine files are
    each missing, empty, or a well-shaped document: [main]'s turn for it
    shows a report, and the report has passed if and only if every record of
    every file is clean.  Warnings, dangling references among them, do not
    enter the verdict. *)
Theorem environment_passes_iff_clean :
  forall (fs : filesystem) (base : path) (env : string),
    let dir := get_group_vars_path base env in
    path_exists fs dir = true ->
    forallb (file_ok fs dir) entities = true ->
    exists r,
      solo fs base env = Returned r /\
      shown_errors r = errors_in fs dir entities /\
      (passed r = true
       <-> forall e, In e entities ->
                     forallb (is_clean e) (records_in fs dir e) = true).
Proof.
  intros fs base env dir Hdir Hok.
  destruct (validate_config_files_errors fs dir entities (new_validator base env) Hok)
    as (v1 & E1 & H1).
  unfold solo.
  rewrite (validate_environment_returned fs env (new_validator base env) v1 Hdir)
    by (unfold validate_config_files; rewrite config_files_entities; exact E1).
  destruct (print_results_verdict (grow [] (dangling_warnings v1) [] v1))
    as (verdict & Ep & Hf & _).
  rewrite Ep. eexists. split; [reflexivity|].
  cbn [shown_errors passed report_of]. rewrite errors_grow, app_nil_r, H1.
  cbn [errors new_validator app]. split; [reflexivity|].
  rewrite <- (errors_in_nil fs dir entities Hok).
  rewrite errors_grow, app_nil_r, H1 in Hf. cbn [errors new_validator app] in Hf.
  destruct verdict.
  - split; [intros _|reflexivity].
    destruct (errors_in fs dir entities) as [|m l]; [reflexivity|].
    assert (true = false) by (apply Hf; exists m; now left). discriminate.
  - split; [discriminate|]. intros N.
    destruct (proj1 Hf eq_refl) as [m Hm]. rewrite N in Hm. destruct Hm.
Qed.

(** X22.  When the validation of an environment raises, the loop of
    [main] ends with that exception: the reports of the environments before
    it have been shown, no report is shown for it, and the environments
    after it are not validated. *)
Theorem exception_ends_the_run :
  forall (fs : filesystem) (base : path) (before later : list string)
         (env : string) (x : exn) (p : process),
  (forall e, In e before -> exists r, solo fs base e = Returned r) ->
  solo fs base env = Raised x ->
  exists reports,
    map (solo fs base) before = map Returned reports /\
    fst (main_loop fs base (before ++ env :: later) p) = Raised x /\
    console (snd (main_loop fs base (before ++ env :: later) p))
    = console p ++ reports.
Proof.
  intros fs base before later env x p. revert p.
  induction before as [|b before IH]; intros p Hb Hx.
  - exists []. split; [reflexivity|].
    change ([] ++ env :: later) with (env :: later). cbn [main_loop].
    pose proof (main_step_solo fs base env p) as Hs. rewrite Hx in Hs.
    destruct Hs as [H1 H2].
    destruct (main_step fs base env p) as [[[]|y] p']; cbn [fst snd] in *;
      try discriminate H1.
    injection H1 as ->. split; [reflexivity|]. now rewrite app_nil_r.
  - destruct (Hb b (or_introl eq_refl)) as [r Hr].
    pose proof (main_step_solo fs base b p) as Hs. rewrite Hr in Hs.
    destruct Hs as (H1 & H2 & _).
    destruct (IH (snd (main_step fs base b p))
                (fun e He => Hb e (or_intror He)) Hx) as (reports & Hm & Ho & Hc).
    exists (r :: reports). split; [simpl; now rewrite Hr, Hm|].
    change ((b :: before) ++ env :: later) with (b :: (before ++ env :: later)).
    cbn [main_loop].
    destruct (main_step fs base b p) as [[[]|y] p']; cbn [fst snd] in *;
      try discriminate H1.
    split; [exact Ho|]. rewrite Hc, H2, <- app_assoc. reflexivity.
Qed.


(* ===================================================================== *)
(** ** The further theorems at sample inputs *)
(* ===================================================================== *)

Lemma validator_findings_by_record_witness :
  validator_of JobTemplate templates_document sample_validator
  = (Returned tt, validated JobTemplate [VDict sample_template] sample_validator) /\
  errors (validated JobTemplate [VDict sample_template] sample_validator)
  = ["Job Template 'deploy' missing inventory"].
Proof.
  destruct (validator_findings_by_record JobTemplate templates_document
              [VDict sample_template] sample_validator eq_refl eq_refl)
    as [E H].
  split; [exact E|].
  destruct (H ltac:(discriminate)) as (He & _). rewrite He. reflexivity.
Defined.

Lemma clean_document_adds_no_error_witness :
  errors (after (validator_of JobTemplate templates_document) sample_validator)
  = errors sample_validator
  <-> forallb (is_clean JobTemplate) [VDict sample_template] = true.
Proof.
  apply (clean_document_adds_no_error JobTemplate templates_document
           [VDict sample_template] sample_validator).
  - reflexivity.
  - reflexivity.
Defined.

Lemma one_error_per_missing_field_witness :
  exists v' appended,
    checker JobTemplate (VDict sample_template) sample_validator
    = (Returned tt, v') /\
    errors v' = errors sample_validator ++ appended /\
    count_occ string_dec appended "Job Template 'deploy' missing inventory"
    = if dict_has "inventory" sample_template then 0 else 1.
Proof.
  apply (one_error_per_missing_field JobTemplate sample_template "inventory"
           "Job Template 'deploy' missing inventory" sample_validator).
  - reflexivity.
  - simpl. auto.
Defined.

Lemma production_only_findings_witness :
  info (after (checker JobTemplate (VDict sample_template)) dev_validator)
  = info dev_validator /\
  (JobTemplate = JobTemplate \/ JobTemplate = ExecutionEnvironment ->
   warnings (after (checker JobTemplate (VDict sample_template)) dev_validator)
   = warnings dev_validator).
Proof.
  apply (production_only_findings JobTemplate sample_template dev_validator).
  - reflexivity.
  - discriminate.
Defined.

Lemma job_template_production_warnings_witness :
  exists v',
    check_job_template (VDict sample_template) sample_validator
    = (Returned tt, v') /\
    warnings v'
    = warnings sample_validator
      ++ (if truthy (dict_get_or "ask_variables_on_launch" (VBool false)
                       sample_template)
          then [prompts_message (name_of sample_template)] else [])
      ++ (if truthy (dict_get_or "use_fact_cache" (VBool false) sample_template)
          then [] else [fact_cache_message (name_of sample_template)]).
Proof.
  apply (job_template_production_warnings sample_template sample_validator).
  - reflexivity.
  - reflexivity.
Defined.

Lemma project_references_and_warnings_witness :
  exists v',
    check_project (VDict sample_project) sample_validator = (Returned tt, v') /\
    defined_projects v'
    = set_add (name_of sample_project) (defined_projects sample_validator) /\
    referenced_credentials v'
    = add_opt (dict_get "credential" sample_project)
        (referenced_credentials sample_validator) /\
    referenced_ees v'
    = add_opt (dict_get "default_environment" sample_project)
        (referenced_ees sample_validator) /\
    warnings v'
    = warnings sample_validator
      ++ match dict_get "scm_type" sample_project with
         | Some scm_type =>
             if is_str "git" scm_type then []
             else [not_git_message (name_of sample_project)]
         | None => []
         end
      ++ (if dict_has "scm_branch" sample_project then []
          else [no_branch_message (name_of sample_project)]).
Proof.
  apply (project_references_and_warnings sample_project sample_validator).
  reflexivity.
Defined.

Lemma job_template_credential_references_witness :
  exists v',
    check_job_template (VDict sample_template) sample_validator
    = (Returned tt, v') /\
    referenced_credentials v'
    = add_all (template_credential_names (template_credentials sample_template))
        (referenced_credentials sample_validator) /\
    (forall x,
       In x (template_credential_names (template_credentials sample_template)) ->
       hashable x = true ->
       set_mem x (referenced_credentials v') = true) /\
    (forall e k, defined_set e = Some k ->
                 get_set k v' = get_set k sample_validator).
Proof.
  apply (job_template_credential_references sample_template sample_validator).
  reflexivity.
Defined.

Lemma only_recognized_key_matters_witness :
  validator_of Credential (VDict no_credentials) sample_validator
  = validator_of Credential (VDict no_credentials_and_more) sample_validator.
Proof.
  apply (only_recognized_key_matters Credential no_credentials
           no_credentials_and_more sample_validator).
  reflexivity.
Defined.

Lemma unhashable_name_raises_witness :
  checker Organization (VDict list_named_organization) sample_validator
  = (Raised TypeError, sample_validator).
Proof.
  apply (unhashable_name_raises Organization DefinedOrganizations
           list_named_organization sample_validator).
  - reflexivity.
  - reflexivity.
Defined.

Lemma scalar_under_key_witness :
  validator_of Credential (VDict [(VStr "controller_credentials", VNone)])
    sample_validator
  = if guards_empty Credential && negb (truthy VNone)
    then (Returned tt, grow [] (zero_warnings Credential) [] sample_validator)
    else (Raised TypeError, sample_validator).
Proof.
  apply (scalar_under_key Credential [(VStr "controller_credentials", VNone)]
           VNone sample_validator).
  - reflexivity.
  - reflexivity.
Defined.

Lemma non_text_secret_is_reported_witness :
  exists v',
    check_credential (VDict numeric_password_credential) sample_validator
    = (Returned tt, v') /\
    In (unencrypted_message (name_of numeric_password_credential) "password")
       (errors v').
Proof.
  apply (non_text_secret_is_reported numeric_password_credential
           numeric_password_inputs "password" (VInt 12345) sample_validator).
  - reflexivity.
  - reflexivity.
  - simpl. auto.
  - reflexivity.
  - reflexivity.
Defined.

Lemma duplicate_names_not_reported_witness :
  exists v1 v2,
    checker Inventory (VDict lab_inventory) sample_validator = (Returned tt, v1) /\
    checker Inventory (VDict lab_inventory_again) v1 = (Returned tt, v2) /\
    get_set DefinedInventories v2 = get_set DefinedInventories v1 /\
    get_set DefinedInventories v1
    = set_add (name_of lab_inventory) (get_set DefinedInventories sample_validator) /\
    errors v2
    = errors sample_validator ++ record_errors Inventory lab_inventory
      ++ record_errors Inventory lab_inventory_again.
Proof.
  apply (duplicate_names_not_reported Inventory DefinedInventories lab_inventory
           lab_inventory_again sample_validator).
  - reflexivity.
  - reflexivity.
  - reflexivity.
  - reflexivity.
Defined.

(* ===================================================================== *)
(** ** Whole runs, in whatever order the interpreter walks a set *)
(* ===================================================================== *)

Example str_of_values :
  str (VList [VStr "a'b"; VInt (-12); VBool true; VNone; VDict [(VStr "k", VInt 0)]])
  = "[" +:+ String dquote ("a'b" +:+ String dquote ", -12, True, None, {'k': 0}]").
Proof. reflexivity. Qed.

(** What [pathlib] makes of the text given as [--base-path]. *)
Example paths_as_rendered :
  path_str (get_group_vars_path (path_of_string "/repo") "dev")
  = "/repo/inventory/group_vars/aap_dev" /\
  path_str (get_group_vars_path (path_of_string ".") "dev")
  = "inventory/group_vars/aap_dev" /\
  path_str (get_group_vars_path (path_of_string "/") "dev")
  = "/inventory/group_vars/aap_dev" /\
  path_str (get_group_vars_path (path_of_string "repo//aap/./") "qa")
  = "repo/aap/inventory/group_vars/aap_qa" /\
  path_str (get_group_vars_path (path_of_string "..") "")
  = "../inventory/group_vars" /\
  path_str (path_of_string "") = "." /\
  path_str (path_of_string "//srv/x") = "//srv/x" /\
  path_str (path_of_string "///srv/x") = "/srv/x" /\
  path_str (path_div (path_of_string "/repo") "/etc/passwd") = "/etc/passwd" /\
  path_str (path_div (path_of_string "/repo") "credentials.yml")
  = "/repo/credentials.yml".
Proof. repeat split; reflexivity. Qed.

(** A plaintext password: one error, the count, exit status 1. *)
Example run_plaintext_password :
  main fs_plaintext repo false "dev"
  = (Returned 1%Z,
     [mkReport
        ["Credential 'machine' has unencrypted 'password' - use ansible-vault or lookup"]
        []
        ["Found 1 credential(s)"]
        false]).
Proof. reflexivity. Qed.

(** No directory for the environment: a single error, nothing else runs. *)
Example run_missing_environment :
  main fs_empty repo false "dev"
  = (Returned 1%Z,
     [mkReport ["Environment path not found: /repo/inventory/group_vars/aap_dev"]
        [] [] false]).
Proof. reflexivity. Qed.

(** The same from the repository itself, with [--base-path .]. *)
Example run_missing_environment_here :
  main fs_empty (path_of_string ".") false "dev"
  = (Returned 1%Z,
     [mkReport ["Environment path not found: inventory/group_vars/aap_dev"]
        [] [] false]).
Proof. reflexivity. Qed.

(** An empty [organizations.yml]: no finding at all, exit status 0. *)
Example run_blank_organizations :
  main fs_blank_organizations repo false "dev"
  = (Returned 0%Z, [mkReport [] [] [] true]).
Proof. reflexivity. Qed.

(** A null under [controller_credentials]: the exception ends the process
    before any report is shown. *)
Example run_null_credentials :
  main fs_null_credentials repo false "dev" = (Raised TypeError, []).
Proof. reflexivity. Qed.

(** All three environments, none of them there: three separate reports. *)
Example run_all_environments :
  List.length (snd (main fs_empty repo true "dev")) = 3.
Proof. reflexivity. Qed.

(** A defined project is not warned about, an undefined inventory is. *)
Example run_references :
  main fs_references repo false "dev"
  = (Returned 0%Z,
     [mkReport []
        ["Referenced inventory 'lab' is not defined (may be in different environment)"]
        ["Found 1 project(s)"; "Found 1 job template(s)"]
        true]).
Proof.
  assert (W : walk_difference order [VStr "lab"] [] = [VStr "lab"]).
  { apply Permutation_length_1_inv, Permutation_sym.
    exact (walk_permutes order [VStr "lab"] []). }
  unfold main, environments_of. cbn [orb String.eqb Ascii.eqb Bool.eqb main_loop].
  unfold main_step.
  rewrite (validate_environment_returned fs_references "dev"
             (new_validator repo "dev")
             (mkValidator repo "dev" [] []
                ["Found 1 project(s)"; "Found 1 job template(s)"]
                [] [VStr "playbooks"] [] [] [] []
                [] [VStr "playbooks"] [VStr "lab"] [])
             eq_refl eq_refl).
  unfold dangling_warnings, undefined_in_order.
  cbn [flat_map map ref_kinds referenced_of defined_of get_set
       referenced_credentials defined_credentials referenced_projects
       defined_projects referenced_inventories defined_inventories
       referenced_ees defined_ees].
  rewrite W.
  rewrite (Permutation_nil (Permutation_sym (walk_permutes order [] []))).
  rewrite (Permutation_nil (Permutation_sym
             (walk_permutes order [VStr "playbooks"] [VStr "playbooks"]))).
  reflexivity.
Qed.

End Interpreter.

(* ===================================================================== *)
(** ** Runs under two orders of the interpreter *)
(* ===================================================================== *)

(** With [--base-path .] the missing directory is named without a leading
    dot. *)
Lemma missing_environment_directory_witness :
  validate_environment insertion_order fs_empty "dev"
    (new_validator (path_of_string ".") "dev")
  = (Returned false,
     grow ["Environment path not found: inventory/group_vars/aap_dev"] [] []
       (new_validator (path_of_string ".") "dev")).
Proof.
  apply (missing_environment_directory insertion_order fs_empty "dev"
           (new_validator (path_of_string ".") "dev")).
  reflexivity.
Defined.

Lemma environment_then_references_witness :
  match validate_config_files fs_references
          (get_group_vars_path (base_path dev_validator) "dev") dev_validator with
  | (Returned _, v1) =>
      exists dangling : list string,
        validate_environment reverse_order fs_references "dev" dev_validator
        = (Returned true, grow [] dangling [] v1) /\
        dangling = dangling_warnings reverse_order v1 /\
        Permutation dangling
          (flat_map (fun k => map (dangling_message k) (undefined_names k v1))
                    ref_kinds)
  | (Raised e, v1) =>
      validate_environment reverse_order fs_references "dev" dev_validator
      = (Raised e, v1)
  end.
Proof.
  apply (environment_then_references reverse_order fs_references "dev"
           dev_validator).
  reflexivity.
Defined.

(** The run of [run_references] from the repository itself, with
    [--base-path .]: the files are found at relative paths. *)
Example run_references_here :
  main reverse_order fs_here (path_of_string ".") false "dev"
  = (Returned 0%Z,
     [mkReport []
        ["Referenced inventory 'lab' is not defined (may be in different environment)"]
        ["Found 1 project(s)"; "Found 1 job template(s)"]
        true]).
Proof. reflexivity. Qed.

(** Under the reverse order too, the one dangling inventory of the sample
    tree is warned about once and the defined project not at all. *)
Lemma dangling_references_warned_once_witness :
  count_occ string_dec
    (dangling_warnings reverse_order
       (after (validate_config_files fs_references (get_group_vars_path repo "dev"))
              (new_validator repo "dev")))
    (dangling_message Inventories (VStr "lab")) = 1 /\
  count_occ string_dec
    (dangling_warnings reverse_order
       (after (validate_config_files fs_references (get_group_vars_path repo "dev"))
              (new_validator repo "dev")))
    (dangling_message Projects (VStr "playbooks")) = 0.
Proof.
  destruct (dangling_references_warned_once reverse_order fs_references
              (get_group_vars_path repo "dev") repo "dev")
    as (_ & _ & _ & _ & _ & H).
  split.
  - exact (H Inventories "lab" eq_refl).
  - exact (H Projects "playbooks" eq_refl).
Defined.

Lemma exit_status_of_main_witness :
  exists reports,
    map (solo insertion_order fs_references repo) (environments_of false "dev")
    = map Returned reports /\
    main insertion_order fs_references repo false "dev"
    = (Returned (if forallb passed reports then 0%Z else 1%Z), reports).
Proof.
  apply (exit_status_of_main insertion_order fs_references repo false "dev").
  intros e [<-|[]]. eexists. vm_compute. reflexivity.
Defined.

Lemma environment_passes_iff_clean_witness :
  exists r,
    solo insertion_order fs_references repo "dev" = Returned r /\
    shown_errors r
    = errors_in fs_references (get_group_vars_path repo "dev") entities /\
    (passed r = true
     <-> forall e, In e entities ->
                   forallb (is_clean e)
                     (records_in fs_references
                        (get_group_vars_path repo "dev") e) = true).
Proof.
  apply (environment_passes_iff_clean insertion_order fs_references repo "dev").
  - reflexivity.
  - reflexivity.
Defined.

Lemma exception_ends_the_run_witness :
  exists reports,
    map (solo insertion_order fs_null_credentials repo) [] = map Returned reports /\
    fst (main_loop insertion_order fs_null_credentials repo
           ([] ++ "dev" :: ["qa"; "prod"])
           (mkProcess None true []))
    = Raised TypeError /\
    console (snd (main_loop insertion_order fs_null_credentials repo
                    ([] ++ "dev" :: ["qa"; "prod"]) (mkProcess None true [])))
    = console (mkProcess None true []) ++ reports.
Proof.
  apply (exception_ends_the_run insertion_order fs_null_credentials repo []
           ["qa"; "prod"]
           "dev" TypeError (mkProcess None true [])).
  - intros e [].
  - reflexivity.
Defined.

(* ===================================================================== *)
(** ** Two dangling names with one text *)
(* ===================================================================== *)

(** C3.  One job template has [project: 5], another [project: "5"], and no
    project is defined.  The number and the text are two names, both are in
    Referenced minus Defined, and their warnings have the same text: the
    warning naming ['5'] is appended twice, under either order, and the
    report shows it twice. *)
Lemma same_text_warned_twice :
  eqv (VInt 5) (VStr "5") = false /\
  set_mem (VInt 5) (undefined_names Projects five_twice_validated) = true /\
  set_mem (VStr "5") (undefined_names Projects five_twice_validated) = true /\
  dangling_message Projects (VInt 5) = dangling_message Projects (VStr "5") /\
  count_occ string_dec (dangling_warnings insertion_order five_twice_validated)
    (dangling_message Projects (VStr "5")) = 2 /\
  count_occ string_dec (dangling_warnings reverse_order five_twice_validated)
    (dangling_message Projects (VStr "5")) = 2 /\
  main insertion_order fs_five_twice repo false "dev"
  = (Returned 0%Z,
     [mkReport []
        ["Referenced project '5' is not defined (may be in different environment)";
         "Referenced project '5' is not defined (may be in different environment)";
         "Referenced inventory 'lab' is not defined (may be in different environment)"]
        ["Found 2 job template(s)"]
        true]).
Proof. repeat split; reflexivity. Qed.
